(** * ollama-gui: a shallow embedding of the front-end client and of the
    orchestration contracts it talks to.

    The TypeScript sources embedded here are
      - [frontend/src/lib/api/api-client.ts]        (module [ApiClient]),
      - [frontend/src/lib/stores/conversations-store.ts]
                              (modules [ConversationsStore], [ModelsStore]),
      - [frontend/src/routes/chat-page.ts]          (module [ChatPage]).
    The Python back end (provider registry, RAG engine, streaming session
    manager) is not part of the tree; its contracts are modelled from the
    specification in the modules [Registry], [Retrieval] and [Sessions]. *)

From Stdlib Require Import ZArith QArith DecimalString.
From stdpp Require Import gmap strings list sorting.

Local Open Scope string_scope.
Local Open Scope Z_scope.

(** ** JavaScript values and completions *)

Module Js.

(** The JSON-shaped part of the JavaScript value universe: what an HTTP
    body decoded by axios can be.  Numbers are restricted to integers. *)
#[local] Unset Elimination Schemes.
Inductive JsValue : Type :=
  | JsUndefined
  | JsNull
  | JsBool (b : bool)
  | JsNumber (z : Z)
  | JsString (s : string)
  | JsArray (items : list JsValue)
  | JsObject (fields : list (string * JsValue)).
#[local] Set Elimination Schemes.

(** ToBoolean. *)
Definition truthy (v : JsValue) : bool :=
  match v with
  | JsUndefined | JsNull => false
  | JsBool b => b
  | JsNumber z => negb (z =? 0)
  | JsString s => negb (String.eqb s "")
  | JsArray _ | JsObject _ => true
  end.

(** An own property of an object literal, first binding first. *)
Fixpoint field (k : string) (fields : list (string * JsValue)) : option JsValue :=
  match fields with
  | [] => None
  | (k', v) :: rest => if String.eqb k k' then Some v else field k rest
  end.

(** What a [throw] carries: an [Error]-like object.  An axios failure has a
    [message] and, when the server answered, a [response] with its body. *)
Record AxiosResponse : Type := mkResponse {
  data : JsValue;
  http_status : Z
}.

Record JsError : Type := mkError {
  response : option AxiosResponse;
  message : string
}.

Definition TypeError (msg : string) : JsError :=
  {| response := None; message := msg |}.

(** Completion of a statement list: a value or an exception in flight. *)
Inductive Completion (A : Type) : Type :=
  | Normal (a : A)
  | Throw (e : JsError).
Arguments Normal {A} a.
Arguments Throw {A} e.

Definition bind {A B} (c : Completion A) (k : A -> Completion B) : Completion B :=
  match c with
  | Normal a => k a
  | Throw e => Throw e
  end.

(** [try { body } catch (error) { handler(error) }]. *)
Definition try_catch {A} (body : Completion A) (handler : JsError -> Completion A)
  : Completion A :=
  match body with
  | Normal a => Normal a
  | Throw e => handler e
  end.

(** [s || fallback] on strings: the empty string is falsy. *)
Definition or_else (s fallback : string) : string :=
  if String.eqb s "" then fallback else s.

(** Strings.  A JavaScript string is a sequence of UTF-16 code units; a
    [string] here is the sequence of its code units, one character each,
    so the embedding has the strings whose code units are below 256
    (ASCII and Latin-1).  The character of code [n] is the code unit
    [n]. *)
Definition code_unit (c : Ascii.ascii) : nat := Ascii.nat_of_ascii c.

(** [Array.prototype.sort(comparefn)] is the engine's: a function from
    the comparison function and the elements to the elements in their new
    order. *)
Definition ArraySort : Type := forall A : Type, (A -> A -> Z) -> list A -> list A.

(** A consistent comparison function for the elements of [arr]
    (ECMAScript, Array.prototype.sort): [a <CF b] exactly when
    [b >CF a], and the order is transitive. *)
Definition consistent_comparator {A} (comparefn : A -> A -> Z) (arr : list A)
  : Prop :=
  (forall a b, a ∈ arr -> b ∈ arr -> comparefn a b < 0 <-> 0 < comparefn b a)
  /\ (forall a b c, a ∈ arr -> b ∈ arr -> c ∈ arr ->
        comparefn a b <= 0 -> comparefn b c <= 0 -> comparefn a c <= 0).

(** What ECMAScript asks of every engine's sort: the result holds the
    same elements, and is in the order of [comparefn] when [comparefn] is
    a consistent comparison function for them.  When it is not, "the sort
    order is implementation-defined": nothing more is known. *)
Definition conforming (array_sort : ArraySort) : Prop :=
  (forall A (comparefn : A -> A -> Z) arr, array_sort A comparefn arr ≡ₚ arr)
  /\ (forall A (comparefn : A -> A -> Z) arr,
        consistent_comparator comparefn arr ->
        StronglySorted (fun a b => comparefn a b <= 0) (array_sort A comparefn arr)).

End Js.

(** ** [websocket-client.ts]: the socket as an event emitter *)

Module Socket.
Import Js.

(** The two arrow functions [chat-page.ts] passes to [streamChatResponse]
    (lines 147-162): they close over the page variables only. *)
Inductive TokenCallback : Type := appendToStreamedMessage.
Inductive CompleteCallback : Type := finishAssistantMessage.

(** The function values that are ever registered with [socket.on]: the
    three named functions of [chat-page.ts] and the three arrow functions
    created by [streamChatResponse], with what they close over. *)
Inductive Listener : Type :=
  | handleNewMessage
  | handleConversationUpdate
  | handleTypingIndicator
  | tokenListener (onToken : option TokenCallback)
  | doneListener (streamId : string) (onComplete : option CompleteCallback)
  | errorListener (streamId : string) (onComplete : option CompleteCallback).

#[export] Instance TokenCallback_eq_dec : EqDecision TokenCallback.
Proof. solve_decision. Defined.
#[export] Instance CompleteCallback_eq_dec : EqDecision CompleteCallback.
Proof. solve_decision. Defined.
#[export] Instance Listener_eq_dec : EqDecision Listener.
Proof. solve_decision. Defined.

(** What the page sends to the server. *)
Inductive Emitted : Type :=
  | chat_stream (conversationId message : string) (parameters : JsValue)
                (streamId : string)
  | chat_cancel (conversationId socketId : string).

Record State : Type := mkState {
  listeners : list (string * Listener);
  emitted : list Emitted
}.

(** [socket.on(name, listener)] *)
Definition on (name : string) (l : Listener) (s : State) : State :=
  {| listeners := listeners s ++ [(name, l)]; emitted := emitted s |}.

(** [socket.off(name)]: every listener of that event goes. *)
Definition off (name : string) (s : State) : State :=
  {| listeners := List.filter (fun e => negb (String.eqb (fst e) name)) (listeners s);
     emitted := emitted s |}.

(** [socket.off(name, listener)] *)
Definition off_listener (name : string) (l : Listener) (s : State) : State :=
  {| listeners :=
       List.filter (fun e => negb (String.eqb (fst e) name && bool_decide (snd e = l)))
                   (listeners s);
     emitted := emitted s |}.

(** [socket.emit(...)] *)
Definition emit (m : Emitted) (s : State) : State :=
  {| listeners := listeners s; emitted := emitted s ++ [m] |}.

(** The listeners an incoming event of that name is dispatched to, in
    registration order (the emitter iterates over a copy). *)
Definition listeners_of (name : string) (s : State) : list Listener :=
  map snd (List.filter (fun e => String.eqb (fst e) name) (listeners s)).

Definition token_event (streamId : string) : string :=
  "stream:" +:+ streamId +:+ ":token".
Definition done_event (streamId : string) : string :=
  "stream:" +:+ streamId +:+ ":done".
Definition error_event (streamId : string) : string :=
  "stream:" +:+ streamId +:+ ":error".

End Socket.

(** ** [api-client.ts] *)

Module ApiClient.
Import Js.

Inductive Method : Type := GET | POST | PATCH | DELETE.

Record Request : Type := mkRequest {
  method : Method;
  url : string;
  body : JsValue
}.

(** The promise returned by an [axiosInstance] call, once settled. *)
Inductive Settled : Type :=
  | Resolved (r : AxiosResponse)
  | Rejected (e : JsError).

(** The network as the client sees it: every request settles. *)
Definition Network : Type := Request -> Settled.

(** [await p]. *)
Definition await (p : Settled) : Completion AxiosResponse :=
  match p with
  | Resolved r => Normal r
  | Rejected e => Throw e
  end.

Definition unknown_error_result (error : JsError) : JsValue :=
  JsObject
    [ ("status", JsBool false);
      ("data", JsObject []);
      ("error", JsObject
         [ ("code", JsString "unknown_error");
           ("message", JsString (or_else (message error) "An unknown error occurred")) ]) ].

(** [private handleError(error: any): ApiResponse<any>] *)
Definition handleError (error : JsError) : JsValue :=
  match response error with
  | Some r => if truthy (data r) then data r else unknown_error_result error
  | None => unknown_error_result error
  end.

(** The request [sendChatMessage] posts. *)
Definition chat_request (conversationId message : string) (parameters : JsValue)
  : Request :=
  {| method := POST;
     url := "/chat/" +:+ conversationId;
     body := JsObject [ ("message", JsString message);
                        ("parameters", parameters);
                        ("stream", JsBool false) ] |}.

(** [async sendChatMessage(conversationId, message, parameters)] *)
Definition sendChatMessage (net : Network)
    (conversationId message : string) (parameters : JsValue) : Completion JsValue :=
  try_catch
    (bind (await (net (chat_request conversationId message parameters)))
          (fun response => Normal (data response)))
    (fun error => Normal (handleError error)).

Definition bool_literal (b : bool) : string := if b then "true" else "false".

(** [async deleteConversation(id, permanent = false)] *)
Definition deleteConversation (net : Network) (id : string) (permanent : bool)
  : Completion JsValue :=
  try_catch
    (bind (await (net {| method := DELETE;
                         url := "/conversations/" +:+ id +:+ "?permanent="
                                  +:+ bool_literal permanent;
                         body := JsUndefined |}))
          (fun response => Normal (data response)))
    (fun error => Normal (handleError error)).

(** The shape [ApiError] of [types]: an object with string [code] and
    [message]. *)
Definition isApiError (v : JsValue) : bool :=
  match v with
  | JsObject fs =>
      match field "code" fs, field "message" fs with
      | Some (JsString _), Some (JsString _) => true
      | _, _ => false
      end
  | _ => false
  end.

(** The shape [ApiResponse] of [types], read as a tagged result: a boolean
    [status], and on [status = false] an [error] that is an [ApiError]. *)
Definition isTaggedResult (v : JsValue) : bool :=
  match v with
  | JsObject fs =>
      match field "status" fs with
      | Some (JsBool true) => true
      | Some (JsBool false) =>
          match field "error" fs with
          | Some e => isApiError e
          | None => false
          end
      | _ => false
      end
  | _ => false
  end.

Definition errorCode (v : JsValue) : option JsValue :=
  match v with
  | JsObject fs =>
      match field "error" fs with
      | Some (JsObject es) => field "code" es
      | _ => None
      end
  | _ => None
  end.

(** A failure "without a structured error payload", as [handleError] tests
    it: no response at all, or a response whose body is falsy. *)
Definition no_error_payload (error : JsError) : bool :=
  match response error with
  | Some r => negb (truthy (data r))
  | None => true
  end.

(** [async streamChatResponse(conversationId, message, parameters,
    onToken, onComplete)].  [now] and [rand] are [Date.now()] and the
    base-36 fragment of [Math.random()], already rendered. *)
Definition new_stream_id (now rand : string) : string :=
  "stream-" +:+ now +:+ "-" +:+ rand.

Definition streamChatResponse (now rand : string)
    (conversationId message : string) (parameters : JsValue)
    (onToken : option Socket.TokenCallback)
    (onComplete : option Socket.CompleteCallback)
    (socket : Socket.State) : string * Socket.State :=
  let streamId := new_stream_id now rand in
  let socket := Socket.on (Socket.token_event streamId)
                          (Socket.tokenListener onToken) socket in
  let socket := Socket.on (Socket.done_event streamId)
                          (Socket.doneListener streamId onComplete) socket in
  let socket := Socket.on (Socket.error_event streamId)
                          (Socket.errorListener streamId onComplete) socket in
  let socket := Socket.emit
                  (Socket.chat_stream conversationId message parameters streamId)
                  socket in
  (streamId, socket).

End ApiClient.

(** ** [types] as used by the stores and the chat page *)

Module Types.

Record ApiError : Type := mkApiError {
  code : string;
  message : string
}.

(** [ApiResponse<T>]: what the stores receive from the client. *)
Record ApiResponse (T : Type) : Type := mkApiResponse {
  status : bool;
  data : T;
  error : option ApiError
}.
Arguments mkApiResponse {T} _ _ _.
Arguments status {T} _.
Arguments data {T} _.
Arguments error {T} _.

Inductive Role : Type := user | assistant | system.

Module Message.
Record t : Type := mk {
  id : string;
  role : Role;
  content : string;
  created_at : string
}.
End Message.

Module Conversation.
Record t : Type := mk {
  id : string;
  title : string;
  model_id : string;
  created_at : string;
  updated_at : string;
  system_prompt : option string;
  is_pinned : bool;
  is_archived : bool;
  messages : option (list Message.t)
}.
End Conversation.

Module Model.
Record t : Type := mk {
  id : string;
  provider : string;
  name : string;
  display_name : string;
  context_length : Z;
  available : bool
}.
End Model.

End Types.

(** ** [conversations-store.ts], first store: conversations *)

Module ConversationsStore.
Import Js Types.

Record State : Type := mkState {
  conversations : list Conversation.t;
  isLoading : bool;
  currentConversation : option Conversation.t;
  error : option string
}.

Definition initialState : State :=
  {| conversations := []; isLoading := false;
     currentConversation := None; error := None |}.

(** [state.currentConversation?.id === conversationId] *)
Definition current_is (conversationId : string) (st : State) : bool :=
  match currentConversation st with
  | Some c => String.eqb (Conversation.id c) conversationId
  | None => false
  end.

(** The updater passed to [update] on a successful delete. *)
Definition remove_from_store (conversationId : string) (st : State) : State :=
  {| conversations :=
       List.filter (fun c => negb (String.eqb (Conversation.id c) conversationId))
                   (conversations st);
     isLoading := isLoading st;
     currentConversation :=
       if current_is conversationId st then None else currentConversation st;
     error := error st |}.

(** [deleteConversation: async (conversationId, permanent = false)].
    [api] is [apiClient.deleteConversation]; the result pairs the store
    value after the call with the boolean the method resolves to. *)
Definition deleteConversation
    (api : string -> bool -> Completion (ApiResponse JsValue))
    (conversationId : string) (permanent : bool) (st : State) : State * bool :=
  match api conversationId permanent with
  | Normal response =>
      if status response
      then (remove_from_store conversationId st, true)
      else (st, false)
  | Throw _ => (st, false)
  end.

(** [addConversation(conversation)] *)
Definition addConversation (conversation : Conversation.t) (st : State) : State :=
  {| conversations := conversation :: conversations st;
     isLoading := isLoading st;
     currentConversation := currentConversation st;
     error := error st |}.

End ConversationsStore.

(** ** [conversations-store.ts], second store: models *)

Module ModelsStore.
Import Js Types.

Record State : Type := mkState {
  models : list Model.t;
  isLoading : bool;
  selectedModel : option Model.t;
  error : option string
}.

Definition initialState : State :=
  {| models := []; isLoading := false; selectedModel := None; error := None |}.

(** [window.localStorage]. *)
Definition LocalStorage : Type := gmap string string.

Definition find_by_id (modelId : string) (ms : list Model.t) : option Model.t :=
  List.find (fun m => String.eqb (Model.id m) modelId) ms.

(** [selectModel: (modelId) => update(state => ...)].  [browser] is the
    flag of [$app/environment]; the store value and the local storage are
    threaded through. *)
Definition selectModel (browser : bool) (modelId : string)
    (w : State * LocalStorage) : State * LocalStorage :=
  let '(state, storage) := w in
  let selectedModel := find_by_id modelId (models state) in
  let storage' :=
    match selectedModel with
    | Some m => if browser then <["selected_model_id" := Model.id m]> storage
                else storage
    | None => storage
    end in
  ({| models := models state; isLoading := isLoading state;
      selectedModel := selectedModel; error := error state |}, storage').

Section Sorting.

(** [String.prototype.localeCompare] under the host's collation. *)
Variable localeCompare : string -> string -> Z.

(** The comparator given to [models.sort] in [loadModels]. *)
Definition compareModels (a b : Model.t) : Z :=
  if negb (Bool.eqb (Model.available a) (Model.available b))
  then (if Model.available a then -1 else 1)
  else if negb (String.eqb (Model.provider a) (Model.provider b))
  then (if String.eqb (Model.provider a) "ollama" then -1 else 1)
  else localeCompare (Model.display_name a) (Model.display_name b).

(** [models.sort(...)]: the engine's sort. *)
Variable array_sort : ArraySort.

Definition sortModels (ms : list Model.t) : list Model.t :=
  array_sort Model.t compareModels ms.

(** What [localeCompare] is required to be: a consistent comparator. *)
Definition consistent : Prop :=
  (forall s t, localeCompare s t < 0 <-> 0 < localeCompare t s)
  /\ (forall s t u, localeCompare s t <= 0 -> localeCompare t u <= 0 ->
                    localeCompare s u <= 0).

(** The list mixes [ollama] with at most one other provider: two models of
    different providers are never both foreign. *)
Definition one_other_provider (ms : list Model.t) : Prop :=
  forall a b, a ∈ ms -> b ∈ ms ->
    Model.provider a <> Model.provider b ->
    Model.provider a = "ollama" \/ Model.provider b = "ollama".

(** No two distinct models of the list compare equal. *)
Definition no_ties (ms : list Model.t) : Prop :=
  forall a b, a ∈ ms -> b ∈ ms -> compareModels a b = 0 -> a = b.

(** [a] may be presented before [b]: available before unavailable, then
    [ollama] before the other provider, then by display name. *)
Definition presented_before (a b : Model.t) : Prop :=
  (Model.available b = true -> Model.available a = true)
  /\ (Model.available a = Model.available b ->
      (Model.provider b = "ollama" -> Model.provider a = "ollama")
      /\ (Model.provider a = Model.provider b ->
          localeCompare (Model.display_name a) (Model.display_name b) <= 0)).

(** The success branch of [loadModels], given [response.data.models]. *)
Definition loadModels_ok (browser : bool) (received : option (list Model.t))
    (w : State * LocalStorage) : State * LocalStorage * bool :=
  let '(state, storage) := w in
  let models := sortModels (default [] received) in
  let saved :=
    if browser then
      match storage !! "selected_model_id" with
      | Some savedModelId =>
          if String.eqb savedModelId "" then None else find_by_id savedModelId models
      | None => None
      end
    else None in
  let selectedModel :=
    match saved with
    | Some m => Some m
    | None =>
        match List.find Model.available models with
        | Some m => Some m
        | None => head models
        end
    end in
  let storage' :=
    match selectedModel with
    | Some m => if browser then <["selected_model_id" := Model.id m]> storage
                else storage
    | None => storage
    end in
  ({| models := models; isLoading := false;
      selectedModel := selectedModel; error := None |}, storage', true).

End Sorting.

End ModelsStore.

(** ** [chat-page.ts] *)

Module ChatPage.
Import Js Types.

(** The component's [let] variables. *)
Record Page : Type := mkPage {
  conversation : option Conversation.t;
  messages : list Message.t;
  loading : bool;
  error : option string;
  streaming : bool;
  streamedMessage : string;
  activeSocketId : option string
}.

(** Everything the component's functions read or write: its own variables,
    the socket, the conversations store and the router ([goto] targets). *)
Record World : Type := mkWorld {
  page : Page;
  socket : Socket.State;
  store : ConversationsStore.State;
  visited : list string
}.

Definition with_page (f : Page -> Page) (w : World) : World :=
  {| page := f (page w); socket := socket w; store := store w; visited := visited w |}.

Definition with_socket (f : Socket.State -> Socket.State) (w : World) : World :=
  {| page := page w; socket := f (socket w); store := store w; visited := visited w |}.

Definition set_error (e : string) (p : Page) : Page :=
  {| conversation := conversation p; messages := messages p; loading := loading p;
     error := Some e; streaming := streaming p;
     streamedMessage := streamedMessage p; activeSocketId := activeSocketId p |}.

Definition set_streaming (b : bool) (p : Page) : Page :=
  {| conversation := conversation p; messages := messages p; loading := loading p;
     error := error p; streaming := b;
     streamedMessage := streamedMessage p; activeSocketId := activeSocketId p |}.

Definition set_streamedMessage (s : string) (p : Page) : Page :=
  {| conversation := conversation p; messages := messages p; loading := loading p;
     error := error p; streaming := streaming p;
     streamedMessage := s; activeSocketId := activeSocketId p |}.

Definition set_messages (ms : list Message.t) (p : Page) : Page :=
  {| conversation := conversation p; messages := ms; loading := loading p;
     error := error p; streaming := streaming p;
     streamedMessage := streamedMessage p; activeSocketId := activeSocketId p |}.

Definition set_activeSocketId (i : option string) (p : Page) : Page :=
  {| conversation := conversation p; messages := messages p; loading := loading p;
     error := error p; streaming := streaming p;
     streamedMessage := streamedMessage p; activeSocketId := i |}.

Definition set_conversation (c : option Conversation.t) (p : Page) : Page :=
  {| conversation := c; messages := messages p; loading := loading p;
     error := error p; streaming := streaming p;
     streamedMessage := streamedMessage p; activeSocketId := activeSocketId p |}.

(** [event.detail] of the [send] event. *)
Record Detail : Type := mkDetail {
  message : string;
  stream : bool;
  parameters : JsValue
}.

Record ConversationCreateRequest : Type := mkCreate {
  req_title : string;
  req_model_id : string;
  req_system_prompt : option string
}.

(** [response.data] of the non-streaming chat endpoint. *)
Record ChatReply : Type := mkReply {
  user_message : Message.t;
  assistant_message : Message.t
}.

(** One reading of the clock: [Date.now()] rendered in decimal and
    [new Date().toISOString()]. *)
Record Tick : Type := mkTick {
  now : string;
  iso : string
}.

(** The code units that [String.prototype.trim] strips (WhiteSpace and
    LineTerminator), among those a [string] has: U+0009 to U+000D, U+0020
    and U+00A0.  The others (U+1680, U+2000 to U+200A, U+2028, U+2029,
    U+202F, U+205F, U+3000, U+FEFF) are code units from 256 on. *)
Definition is_space (c : Ascii.ascii) : bool :=
  let n := code_unit c in
  ((9 <=? n)%nat && (n <=? 13)%nat) || (n =? 32)%nat || (n =? 160)%nat.

Fixpoint all_space (s : string) : bool :=
  match s with
  | EmptyString => true
  | String c rest => is_space c && all_space rest
  end.

(** [!message.trim()] *)
Definition is_blank (s : string) : bool := all_space s.

(** [response.error?.message || fallback] *)
Definition error_message {T} (response : ApiResponse T) (fallback : string) : string :=
  match Types.error response with
  | Some e => or_else (Types.message e) fallback
  | None => fallback
  end.

(** Events the server pushes to the page, each with the payload its name
    implies.  (['chat:update'] events, which only rewrite [conversation],
    are not delivered in this model.) *)
Inductive Incoming : Type :=
  | stream_token (streamId token : string)
  | stream_done (streamId : string)
  | stream_error (streamId : string) (error : JsValue)
  | chat_message (conversationId : string) (message : Message.t)
  | chat_typing.

Definition event_name (ev : Incoming) : string :=
  match ev with
  | stream_token streamId _ => Socket.token_event streamId
  | stream_done streamId => Socket.done_event streamId
  | stream_error streamId _ => Socket.error_event streamId
  | chat_message _ _ => "chat:message"
  | chat_typing => "chat:typing"
  end.

(** The listeners of one stream, as [streamChatResponse] registers them
    for the two callbacks of the page. *)
Definition stream_listeners (streamId : string) : list (string * Socket.Listener) :=
  [ (Socket.token_event streamId,
     Socket.tokenListener (Some Socket.appendToStreamedMessage));
    (Socket.done_event streamId,
     Socket.doneListener streamId (Some Socket.finishAssistantMessage));
    (Socket.error_event streamId,
     Socket.errorListener streamId (Some Socket.finishAssistantMessage)) ].

(** A world in which the listeners of stream [streamId] are registered
    after listeners [old], none of which listens to that stream's token or
    done events. *)
Definition listening (streamId : string) (w : World) : Prop :=
  exists old,
    Socket.listeners (socket w) = (old ++ stream_listeners streamId)%list
    /\ List.filter (fun e => String.eqb (fst e) (Socket.token_event streamId)) old = []
    /\ List.filter (fun e => String.eqb (fst e) (Socket.done_event streamId)) old = [].

Section Component.

(** [$page.params.id] *)
Variable conversationId : string.

Definition isNewChat : bool := String.eqb conversationId "new".

(** [apiClient.createConversation] and [apiClient.sendChatMessage], as
    settled promises. *)
Variable createConversation :
  ConversationCreateRequest -> Completion (ApiResponse Conversation.t).
Variable sendChatMessage :
  string -> string -> JsValue -> Completion (ApiResponse ChatReply).

(** [(token) => { streamedMessage += token; }] *)
Definition onToken (token : string) (w : World) : World :=
  with_page (fun p => set_streamedMessage (streamedMessage p +:+ token) p) w.

(** The completion callback, lines 150-162. *)
Definition onComplete (t : Tick) (w : World) : World :=
  with_page
    (fun p =>
       let assistantMessage :=
         {| Message.id := "stream-" +:+ now t;
            Message.role := assistant;
            Message.content := streamedMessage p;
            Message.created_at := iso t |} in
       set_activeSocketId None
         (set_streamedMessage ""
            (set_streaming false
               (set_messages (messages p ++ [assistantMessage]) p))))
    w.

(** The clean-up both the [done] and the [error] listener start with. *)
Definition remove_stream_listeners (streamId : string) (w : World) : World :=
  with_socket
    (fun s => Socket.off (Socket.error_event streamId)
                (Socket.off (Socket.done_event streamId)
                   (Socket.off (Socket.token_event streamId) s)))
    w.

(** [handleNewMessage(data)] *)
Definition handleNewMessage (data_conversationId : string) (m : Message.t)
    (w : World) : World :=
  if String.eqb data_conversationId conversationId
  then with_page (fun p => set_messages (messages p ++ [m]) p) w
  else w.

(** Calling a registered listener with an incoming event.  A listener is
    only ever registered under the name of the events carrying its
    payload; the remaining pairs leave the world alone. *)
Definition run_listener (t : Tick) (l : Socket.Listener) (ev : Incoming)
    (w : World) : World :=
  match l, ev with
  | Socket.tokenListener cb, stream_token _ token =>
      match cb with
      | Some Socket.appendToStreamedMessage => onToken token w
      | None => w
      end
  | Socket.doneListener streamId cb, stream_done _
  | Socket.errorListener streamId cb, stream_error _ _ =>
      let w := remove_stream_listeners streamId w in
      match cb with
      | Some Socket.finishAssistantMessage => onComplete t w
      | None => w
      end
  | Socket.handleNewMessage, chat_message cid m => handleNewMessage cid m w
  | _, _ => w
  end.

(** The emitter dispatching one incoming event. *)
Definition deliver (t : Tick) (ev : Incoming) (w : World) : World :=
  fold_left (fun w l => run_listener t l ev w)
            (Socket.listeners_of (event_name ev) (socket w)) w.

Definition deliver_all (evs : list (Tick * Incoming)) (w : World) : World :=
  fold_left (fun w e => deliver (fst e) (snd e) w) evs w.

(** [message.length > 30 ? `${message.substring(0, 30)}...` : message] *)
Definition title_of (message : string) : string :=
  if (30 <? String.length message)%nat
  then String.substring 0 30 message +:+ "..."
  else message.

(** Lines 98-123; the boolean is [false] on the early [return]. *)
Definition create_if_new (d : Detail) (w : World) : World * bool :=
  if isNewChat then
    match conversation (page w) with
    | None => (with_page (set_error "Error creating conversation") w, false)
    | Some c =>
        match createConversation
                {| req_title := title_of (message d);
                   req_model_id := Conversation.model_id c;
                   req_system_prompt := Conversation.system_prompt c |} with
        | Throw _ => (with_page (set_error "Error creating conversation") w, false)
        | Normal response =>
            if status response then
              let c' := Types.data response in
              ({| page := set_conversation (Some c') (page w);
                  socket := socket w;
                  store := ConversationsStore.addConversation c' (store w);
                  visited := visited w ++ ["/chat/" +:+ Conversation.id c'] |}, true)
            else
              (with_page (set_error (error_message response
                                       "Failed to create conversation")) w, false)
        end
    end
  else (w, true).

(** Lines 139-189: the [try] block and its [catch]. *)
Definition request_reply (rand : string) (t : Tick) (d : Detail)
    (userMessage : Message.t) (w : World) : World :=
  let failed := with_page (fun p => set_streaming false
                                      (set_error "Error sending message" p)) w in
  match conversation (page w) with
  | None => failed
  | Some c =>
      if stream d then
        let '(streamId, s) :=
          ApiClient.streamChatResponse (now t) rand (Conversation.id c) (message d)
            (parameters d)
            (Some Socket.appendToStreamedMessage)
            (Some Socket.finishAssistantMessage) (socket w) in
        with_page (set_activeSocketId (Some streamId)) (with_socket (fun _ => s) w)
      else
        match sendChatMessage (Conversation.id c) (message d) (parameters d) with
        | Throw _ => failed
        | Normal response =>
            with_page
              (fun p =>
                 set_streaming false
                   (if status response then
                      set_messages
                        (List.filter
                           (fun m => negb (String.eqb (Message.id m)
                                                      (Message.id userMessage)))
                           (messages p)
                         ++ [user_message (Types.data response);
                             assistant_message (Types.data response)]) p
                    else set_error (error_message response "Failed to send message") p))
              w
        end
  end.

(** [async function handleSendMessage(event)].  [t] is the clock when the
    handler runs and [rand] the random fragment of the stream id.  The
    handler is taken to run to its end before the next socket event is
    dispatched; on the streaming branch that is what happens, its only
    [await] being on an already resolved promise. *)
Definition handleSendMessage (rand : string) (t : Tick) (d : Detail)
    (w : World) : World :=
  if is_blank (message d) then w
  else
    let '(w, proceed) := create_if_new d w in
    if proceed then
      let userMessage :=
        {| Message.id := "temp-" +:+ now t;
           Message.role := user;
           Message.content := message d;
           Message.created_at := iso t |} in
      let w := with_page
                 (fun p => set_streamedMessage ""
                             (set_streaming true
                                (set_messages (messages p ++ [userMessage]) p))) w in
      request_reply rand t d userMessage w
    else w.

(** [onDestroy(() => ...)] *)
Definition onDestroy (w : World) : World :=
  let w := with_socket
             (fun s => Socket.off_listener "chat:typing" Socket.handleTypingIndicator
                         (Socket.off_listener "chat:update" Socket.handleConversationUpdate
                            (Socket.off_listener "chat:message" Socket.handleNewMessage s)))
             w in
  match activeSocketId (page w) with
  | Some socketId =>
      if String.eqb socketId "" then w
      else with_socket (Socket.emit (Socket.chat_cancel conversationId socketId)) w
  | None => w
  end.

(** [disabled={streaming || isNewChat && !$modelsStore.selectedModel}] *)
Definition disabled (selectedModel : option Model.t) (w : World) : bool :=
  streaming (page w) || (isNewChat && negb (bool_decide (is_Some selectedModel))).

End Component.

End ChatPage.

(** ** Provider registry (back end, [app/core/provider_registry.py]) *)

Module Registry.

Inductive RegistryError : Type := ModelNotFound | ModelUnavailable.

(** An adapter as the registry sees it: the model ids of its catalog and
    the outcome of its last health probe. *)
Record Adapter : Type := mkAdapter {
  provider : string;
  catalog : list string;
  healthy : bool
}.

Definition declares (modelId : string) (a : Adapter) : bool :=
  existsb (String.eqb modelId) (catalog a).

(** Modelled from the spec: [selectAdapter] of the provider registry, whose
    source file is not in the tree.  Section 4.2: exact match on the model
    id among available models; [ModelNotFound] if no adapter declares the
    id; [ModelUnavailable] if it is declared but its adapter is unhealthy;
    no substitution. *)
Definition selectAdapter (registry : list Adapter) (modelId : string)
  : Adapter + RegistryError :=
  match List.find (fun a => declares modelId a && healthy a) registry with
  | Some a => inl a
  | None =>
      if existsb (declares modelId) registry
      then inr ModelUnavailable
      else inr ModelNotFound
  end.

End Registry.

(** ** Retrieval pipeline (back end, [app/rag/chunking.py], [app/rag/engine.py]) *)

Module Retrieval.

Inductive IngestionError : Type := FileTooLarge | TooManyFiles.

(** What the splitter prefers to cut at. *)
Inductive Boundary : Type := Paragraph | Sentence.

(** The [rag] options of the configuration the pipeline consumes. *)
Record Config : Type := mkConfig {
  chunk_size : nat;
  chunk_overlap : nat;
  file_max_count : nat;
  file_max_size : N;
  top_k : nat;
  relevance_threshold : Q
}.

Section Pipeline.

(** Embedding vectors, the embedding adapter and cosine similarity are
    choices the spec leaves open. *)
Variable Vector : Type.
Variable embed : list Ascii.ascii -> Vector.
Variable cosine : Vector -> Vector -> Q.

Record RetrievalChunk : Type := mkChunk {
  text : list Ascii.ascii;
  offset : nat;
  embedding : Vector
}.

(** Where paragraphs and sentences end is a choice the spec leaves open:
    [ends b document p] says that one ends at offset [p] of the
    document. *)
Variable ends : Boundary -> list Ascii.ascii -> nat -> bool.

(** The last of the offsets [lo + 1 .. lo + n] where a [b] ends. *)
Fixpoint last_boundary (b : Boundary) (document : list Ascii.ascii) (lo n : nat)
  : option nat :=
  match n with
  | O => None
  | S n' =>
      if ends b document (lo + n)%nat then Some (lo + n)%nat
      else last_boundary b document lo n'
  end.

(** Modelled from the spec: the text splitter of [chunking.py], which is
    not in the tree; section 4.3, "a recursive boundary-aware strategy
    (paragraph, sentence, character, in that preference order)".  The
    chunk that starts at [start], when the rest of the document does not
    fit in one chunk, ends at the last paragraph end that leaves it at
    most [size] characters and more than the overlap; failing that at the
    last such sentence end; failing that after [size] characters. *)
Definition cut (size overlap : nat) (document : list Ascii.ascii) (start : nat)
  : nat :=
  match last_boundary Paragraph document (start + overlap)%nat (size - overlap)%nat with
  | Some stop => stop
  | None =>
      match last_boundary Sentence document (start + overlap)%nat
                          (size - overlap)%nat with
      | Some stop => stop
      | None => (start + size)%nat
      end
  end.

(** The chunk of the characters from [start] up to [stop], embedded as it
    is cut. *)
Definition span (document : list Ascii.ascii) (start stop : nat) : RetrievalChunk :=
  {| text := take (stop - start)%nat (drop start document); offset := start;
     embedding := embed (take (stop - start)%nat (drop start document)) |}.

(** Modelled from the spec: the chunks of the document from [start] on
    (sections 3 and 4.3): the rest of the document when it fits in one
    chunk, and otherwise the chunk up to the cut and the chunks from
    [chunk_overlap] characters before the cut.  [None]: out of [fuel],
    which is how the splitting never coming to an end shows. *)
Fixpoint split_from (fuel size overlap : nat) (document : list Ascii.ascii)
    (start : nat) : option (list RetrievalChunk) :=
  match fuel with
  | O => None
  | S fuel' =>
      if (length document <=? start)%nat then Some []
      else if (length document <=? start + size)%nat
      then Some [span document start (length document)]
      else
        let stop := cut size overlap document start in
        match split_from fuel' size overlap document (stop - overlap)%nat with
        | Some chunks => Some (span document start stop :: chunks)
        | None => None
        end
  end.

(** Every chunk but the last one starts further in the document than the
    one before when [overlap < size]: as many steps as the document has
    characters, and one, are enough then. *)
Definition split_text (size overlap : nat) (document : list Ascii.ascii)
  : option (list RetrievalChunk) :=
  split_from (S (length document)) size overlap document 0.

(** Modelled from the spec: [ingest] of the RAG engine (section 4.3), not
    in the tree.  [held] is the number of documents the corpus already
    holds for the caller.  [None]: no answer, the splitting does not
    end (a [chunk_overlap] that is not below [chunk_size], on a document
    longer than a chunk). *)
Definition ingest (cfg : Config) (held : nat) (document : list Ascii.ascii)
  : option (IngestionError + list RetrievalChunk) :=
  if (file_max_size cfg <? N.of_nat (length document))%N then Some (inl FileTooLarge)
  else if (file_max_count cfg <=? held)%nat then Some (inl TooManyFiles)
  else match split_text (chunk_size cfg) (chunk_overlap cfg) document with
       | Some chunks => Some (inr chunks)
       | None => None
       end.







Definition similarity (query : Vector) (c : RetrievalChunk) : Q :=
  cosine query (embedding c).

(** Descending insertion by similarity to the query, stable. *)
Fixpoint insert_desc (query : Vector) (c : RetrievalChunk)
    (ranked : list RetrievalChunk) : list RetrievalChunk :=
  match ranked with
  | [] => [c]
  | r :: rest =>
      if Qle_bool (similarity query c) (similarity query r)
      then r :: insert_desc query c rest
      else c :: r :: rest
  end.

Definition rank (query : Vector) (chunks : list RetrievalChunk)
  : list RetrievalChunk :=
  fold_right (insert_desc query) [] chunks.

(** Modelled from the spec: [retrieve] of the RAG engine (section 4.3), not
    in the tree: embed the query, keep the stored chunks whose cosine
    similarity reaches the threshold, order them by descending similarity,
    return the first [top_k]. *)
Definition retrieve (stored : list RetrievalChunk) (query : list Ascii.ascii)
    (top_k : nat) (relevance_threshold : Q) : list RetrievalChunk :=
  let q := embed query in
  take top_k
    (rank q (List.filter (fun c => Qle_bool relevance_threshold (similarity q c))
                         stored)).

End Pipeline.

End Retrieval.

(** ** Streaming session manager (back end) *)

Module Sessions.

Inductive SessionState : Type :=
  | Pending | Streaming | Completed | Cancelled | Failed.

Inductive SessionError : Type := SessionConflict.

(** What can happen to a session. *)
Inductive Event : Type :=
  | AdapterInvoked
  | Token (token : string)
  | EndOfStream
  | AdapterStreamError
  | AdapterTimeout
  | CancelRequest.

Record StreamingSession : Type := mkSession {
  conversation : string;
  state : SessionState;
  output : string;
  cancellation : bool
}.

Definition terminal (st : SessionState) : bool :=
  match st with
  | Completed | Cancelled | Failed => true
  | Pending | Streaming => false
  end.

Definition active (s : StreamingSession) : bool := negb (terminal (state s)).

Definition moved (s : StreamingSession) (st : SessionState) : StreamingSession :=
  {| conversation := conversation s; state := st;
     output := output s; cancellation := cancellation s |}.

(** Modelled from the spec: the per-session state machine of section 4.4,
    [Pending -> Streaming -> {Completed, Cancelled, Failed}], whose source
    is not in the tree.  Terminal states are sinks; a token is appended to
    the accumulated output; end-of-stream completes; a stream error or a
    timeout fails, keeping the partial output; a cancellation request
    (section 5) moves [Pending] or [Streaming] to [Cancelled]. *)
Definition step (s : StreamingSession) (e : Event) : StreamingSession :=
  match state s, e with
  | Pending, AdapterInvoked => moved s Streaming
  | Streaming, Token token =>
      {| conversation := conversation s; state := Streaming;
         output := output s +:+ token; cancellation := cancellation s |}
  | Streaming, EndOfStream => moved s Completed
  | (Pending | Streaming), (AdapterStreamError | AdapterTimeout) => moved s Failed
  | (Pending | Streaming), CancelRequest =>
      {| conversation := conversation s; state := Cancelled;
         output := output s; cancellation := true |}
  | _, _ => s
  end.

Definition run (s : StreamingSession) (events : list Event) : StreamingSession :=
  fold_left step events s.

(** Modelled from the spec: the session table of section 9, keyed by
    session id, with the next free id. *)
Record Manager : Type := mkManager {
  table : gmap nat StreamingSession;
  next_id : nat
}.

Definition busy (conv : string) (m : Manager) : bool :=
  existsb (fun entry => String.eqb (conversation (snd entry)) conv && active (snd entry))
          (map_to_list (table m)).

(** Modelled from the spec: starting a generation (section 4.4): rejected
    with [SessionConflict] while the conversation has a [Pending] or
    [Streaming] session; otherwise a new [Pending] session is opened. *)
Definition startGeneration (conv : string) (m : Manager)
  : (nat + SessionError) * Manager :=
  if busy conv m then (inr SessionConflict, m)
  else (inl (next_id m),
        {| table := <[next_id m := {| conversation := conv; state := Pending;
                                      output := ""; cancellation := false |}]> (table m);
           next_id := S (next_id m) |}).

(** Modelled from the spec: the manager routing an event to the session
    [sid] of its table (sections 4.4 and 9); unknown ids are ignored. *)
Definition dispatch (sid : nat) (e : Event) (m : Manager) : Manager :=
  match table m !! sid with
  | Some s => {| table := <[sid := step s e]> (table m); next_id := next_id m |}
  | None => m
  end.

(** Modelled from the spec: the cancellation request of section 5. *)
Definition cancel (sid : nat) (m : Manager) : Manager :=
  dispatch sid CancelRequest m.

Definition dispatch_all (sid : nat) (events : list Event) (m : Manager) : Manager :=
  fold_left (fun m e => dispatch sid e m) events m.

End Sessions.

(** ** [conversations-store.ts], first store: the remaining methods *)

Module Conversations.
Import Js Types ConversationsStore.

(** [response.error?.message || fallback] *)
Definition error_or {T} (response : ApiResponse T) (fallback : string) : string :=
  match Types.error response with
  | Some e => or_else (Types.message e) fallback
  | None => fallback
  end.

(** [update(state => ({ ...state, isLoading: true, error: null }))] *)
Definition begin_loading (st : State) : State :=
  {| conversations := conversations st; isLoading := true;
     currentConversation := currentConversation st; error := None |}.

(** [update(state => ({ ...state, error: e, isLoading: false }))] *)
Definition fail_with (e : string) (st : State) : State :=
  {| conversations := conversations st; isLoading := false;
     currentConversation := currentConversation st; error := Some e |}.

Section Dates.

(** [new Date(s).getTime()]; [None] stands for [NaN] (an unparsable
    date). *)
Variable getTime : string -> option Z.

(** The comparator of [loadConversations]: [b]'s time minus [a]'s; a
    [NaN] difference is read by the sort as [+0]. *)
Definition newest_first (a b : Conversation.t) : Z :=
  match getTime (Conversation.updated_at b), getTime (Conversation.updated_at a) with
  | Some tb, Some ta => tb - ta
  | _, _ => 0
  end.

(** [conversations.sort(...)]: the engine's sort. *)
Variable array_sort : ArraySort.

(** [loadConversations: async (refresh = false)].  [api] is the settled
    [apiClient.getConversations()]; its data is
    [response.data.conversations], absent or not. *)
Definition loadConversations
    (api : Completion (ApiResponse (option (list Conversation.t))))
    (refresh : bool) (st : State) : State * bool :=
  let st := begin_loading st in
  match api with
  | Normal response =>
      if status response then
        ({| conversations :=
              array_sort Conversation.t newest_first (default [] (Types.data response));
            isLoading := false;
            currentConversation := currentConversation st;
            error := error st |}, true)
      else (fail_with (error_or response "Failed to load conversations") st, false)
  | Throw _ => (fail_with "Error loading conversations" st, false)
  end.

End Dates.

(** [loadConversation: async (conversationId)] *)
Definition loadConversation
    (api : string -> Completion (ApiResponse Conversation.t))
    (conversationId : string) (st : State) : State * bool :=
  let st := {| conversations := conversations st; isLoading := true;
               currentConversation := None; error := None |} in
  match api conversationId with
  | Normal response =>
      if status response then
        ({| conversations := conversations st; isLoading := false;
            currentConversation := Some (Types.data response);
            error := error st |}, true)
      else (fail_with (error_or response "Failed to load conversation") st, false)
  | Throw _ => (fail_with "Error loading conversation" st, false)
  end.

(** The argument object of [apiClient.createConversation]. *)
Record CreateRequest : Type := mkCreateRequest {
  title : string;
  model_id : string;
  system_prompt : option string;
  tags : option (list string)
}.

(** [createConversation: async (title, modelId, systemPrompt?, tags?)];
    resolves to the new conversation or to [null]. *)
Definition createConversation
    (api : CreateRequest -> Completion (ApiResponse Conversation.t))
    (title modelId : string) (systemPrompt : option string)
    (tags : option (list string)) (st : State) : State * option Conversation.t :=
  let st := begin_loading st in
  match api {| title := title; model_id := modelId;
               system_prompt := systemPrompt; tags := tags |} with
  | Normal response =>
      if status response then
        ({| conversations := Types.data response :: conversations st;
            isLoading := false;
            currentConversation := Some (Types.data response);
            error := error st |}, Some (Types.data response))
      else (fail_with (error_or response "Failed to create conversation") st, None)
  | Throw _ => (fail_with "Error creating conversation" st, None)
  end.

(** [Partial<Conversation>]: the own properties present in [data]. *)
Record Patch : Type := mkPatch {
  p_id : option string;
  p_title : option string;
  p_model_id : option string;
  p_created_at : option string;
  p_updated_at : option string;
  p_system_prompt : option string;
  p_is_pinned : option bool;
  p_is_archived : option bool;
  p_messages : option (list Message.t)
}.

(** [{ ...conv, ...data }] *)
Definition spread (conv : Conversation.t) (data : Patch) : Conversation.t :=
  {| Conversation.id := default (Conversation.id conv) (p_id data);
     Conversation.title := default (Conversation.title conv) (p_title data);
     Conversation.model_id := default (Conversation.model_id conv) (p_model_id data);
     Conversation.created_at := default (Conversation.created_at conv) (p_created_at data);
     Conversation.updated_at := default (Conversation.updated_at conv) (p_updated_at data);
     Conversation.system_prompt :=
       match p_system_prompt data with
       | Some s => Some s
       | None => Conversation.system_prompt conv
       end;
     Conversation.is_pinned := default (Conversation.is_pinned conv) (p_is_pinned data);
     Conversation.is_archived := default (Conversation.is_archived conv) (p_is_archived data);
     Conversation.messages :=
       match p_messages data with
       | Some ms => Some ms
       | None => Conversation.messages conv
       end |}.

(** [updateConversation: async (conversationId, data)] *)
Definition updateConversation
    (api : string -> Patch -> Completion (ApiResponse Conversation.t))
    (conversationId : string) (data : Patch) (st : State) : State * bool :=
  match api conversationId data with
  | Normal response =>
      if status response then
        ({| conversations :=
              map (fun conv =>
                     if String.eqb (Conversation.id conv) conversationId
                     then spread conv data else conv)
                  (conversations st);
            isLoading := isLoading st;
            currentConversation :=
              match currentConversation st with
              | Some c => if String.eqb (Conversation.id c) conversationId
                          then Some (spread c data) else Some c
              | None => None
              end;
            error := error st |}, true)
      else (st, false)
  | Throw _ => (st, false)
  end.

(** [setCurrentConversation(conversation)] *)
Definition setCurrentConversation (conversation : option Conversation.t)
    (st : State) : State :=
  {| conversations := conversations st; isLoading := isLoading st;
     currentConversation := conversation; error := error st |}.

(** [addMessage(message)] *)
Definition addMessage (message : Message.t) (st : State) : State :=
  match currentConversation st with
  | None => st
  | Some c =>
      {| conversations := conversations st; isLoading := isLoading st;
         currentConversation :=
           Some {| Conversation.id := Conversation.id c;
                   Conversation.title := Conversation.title c;
                   Conversation.model_id := Conversation.model_id c;
                   Conversation.created_at := Conversation.created_at c;
                   Conversation.updated_at := Conversation.updated_at c;
                   Conversation.system_prompt := Conversation.system_prompt c;
                   Conversation.is_pinned := Conversation.is_pinned c;
                   Conversation.is_archived := Conversation.is_archived c;
                   Conversation.messages :=
                     Some (default [] (Conversation.messages c) ++ [message])%list |};
         error := error st |}
  end.

(** [clearError()] *)
Definition clearError (st : State) : State :=
  {| conversations := conversations st; isLoading := isLoading st;
     currentConversation := currentConversation st; error := None |}.

(** [reset()] *)
Definition reset (st : State) : State := initialState.

End Conversations.

(** ** [conversations-store.ts], second store: the remaining methods *)

Module Models.
Import Js Types ModelsStore.

(** [update(state => ({ ...state, isLoading: true, error: null }))] *)
Definition begin_loading (st : State) : State :=
  {| models := models st; isLoading := true;
     selectedModel := selectedModel st; error := None |}.

Definition fail_with (e : string) (st : State) : State :=
  {| models := models st; isLoading := false;
     selectedModel := selectedModel st; error := Some e |}.

(** [loadModels: async ()].  [api] is the settled [apiClient.getModels()],
    its data [response.data.models]. *)
Definition loadModels (localeCompare : string -> string -> Z)
    (array_sort : ArraySort) (browser : bool)
    (api : Completion (ApiResponse (option (list Model.t))))
    (w : State * LocalStorage) : State * LocalStorage * bool :=
  let '(state, storage) := w in
  let state := begin_loading state in
  match api with
  | Normal response =>
      if status response
      then loadModels_ok localeCompare array_sort browser (Types.data response)
                         (state, storage)
      else (fail_with (Conversations.error_or response "Failed to load models") state,
            storage, false)
  | Throw _ => (fail_with "Error loading models" state, storage, false)
  end.

(** [refreshModels: async ()].  The arrow function has no [this] of its
    own: [this] is that of [createModelsStore], called as a plain function
    in a module, hence [undefined], and [this.loadModels] throws a
    [TypeError] inside the [try]. *)
Definition this_loadModels : Completion bool :=
  Throw (TypeError "Cannot read properties of undefined (reading 'loadModels')").

Definition refreshModels (api : Completion (ApiResponse JsValue))
    (w : State * LocalStorage) : State * LocalStorage * bool :=
  let '(state, storage) := w in
  let state := begin_loading state in
  match api with
  | Normal response =>
      if status response then
        match this_loadModels with
        | Normal result => (state, storage, result)
        | Throw _ => (fail_with "Error refreshing models" state, storage, false)
        end
      else (fail_with (Conversations.error_or response "Failed to refresh models") state,
            storage, false)
  | Throw _ => (fail_with "Error refreshing models" state, storage, false)
  end.

(** [getModel(modelId)]: the store is handed back as it is. *)
Definition getModel (modelId : string) (st : State) : State * option Model.t :=
  (st, find_by_id modelId (models st)).

End Models.

(** ** [chat-page.ts]: the remaining functions *)

Module Page.
Import Js Types ChatPage.

Definition set_loading (b : bool) (p : Page) : Page :=
  {| conversation := conversation p; messages := messages p; loading := b;
     error := error p; streaming := streaming p;
     streamedMessage := streamedMessage p; activeSocketId := activeSocketId p |}.

(** The three registrations at the end of [onMount]. *)
Definition page_listeners : list (string * Socket.Listener) :=
  [ ("chat:message", Socket.handleNewMessage);
    ("chat:update", Socket.handleConversationUpdate);
    ("chat:typing", Socket.handleTypingIndicator) ].

(** [onMount(async () => ...)].  [getConversation] is
    [apiClient.getConversation], [selectedModel] is
    [$modelsStore.selectedModel], [created] and [updated] are the two
    readings of [new Date().toISOString()]. *)
Definition onMount (conversationId : string)
    (getConversation : string -> Completion (ApiResponse Conversation.t))
    (selectedModel : option Model.t) (created updated : string)
    (w : World) : World :=
  let w :=
    if negb (isNewChat conversationId) then
      match getConversation conversationId with
      | Normal response =>
          if status response then
            with_page
              (fun p => set_messages
                          (default [] (Conversation.messages (Types.data response)))
                          (set_conversation (Some (Types.data response)) p)) w
          else with_page (set_error (error_message response
                                       "Failed to load conversation")) w
      | Throw _ => with_page (set_error "Error loading conversation") w
      end
    else
      with_page
        (set_conversation
           (Some {| Conversation.id := "new";
                    Conversation.title := "New Chat";
                    Conversation.model_id :=
                      match selectedModel with
                      | Some m => or_else (Model.id m) ""
                      | None => ""
                      end;
                    Conversation.created_at := created;
                    Conversation.updated_at := updated;
                    Conversation.system_prompt := Some "";
                    Conversation.is_pinned := false;
                    Conversation.is_archived := false;
                    Conversation.messages := None |})) w in
  let w := with_socket
             (fun s => Socket.on "chat:typing" Socket.handleTypingIndicator
                         (Socket.on "chat:update" Socket.handleConversationUpdate
                            (Socket.on "chat:message" Socket.handleNewMessage s))) w in
  with_page (set_loading false) w.

(** An incoming event that belongs to the stream [streamId]. *)
Definition of_stream (streamId : string) (ev : Incoming) : bool :=
  match ev with
  | stream_token i _ | stream_done i | stream_error i _ => String.eqb i streamId
  | chat_message _ _ | chat_typing => false
  end.

End Page.

(** ** [api-client.ts]: the axios instance and the auth endpoints *)

Module Axios.
Import Js ApiClient.

(** What the interceptors and the auth methods touch in the browser:
    [localStorage] and [window.location.href]. *)
Record Browser : Type := mkBrowser {
  storage : gmap string string;
  location : string
}.

(** A request as it leaves the request interceptor. *)
Record Sent : Type := mkSent {
  request : Request;
  authorization : option string
}.

(** The server behind the instance: a 2xx answer resolves, anything else
    rejects. *)
Definition Server : Type := Sent -> Settled.

(** [axiosInstance.interceptors.request.use(config => ...)] *)
Definition requestInterceptor (req : Request) (b : Browser) : Sent :=
  match storage b !! "auth_token" with
  | Some token =>
      if String.eqb token "" then {| request := req; authorization := None |}
      else {| request := req; authorization := Some ("Bearer " +:+ token) |}
  | None => {| request := req; authorization := None |}
  end.

(** [axiosInstance.interceptors.response.use(response => response,
    error => ...)] *)
Definition responseInterceptor (settled : Settled) (b : Browser) : Settled * Browser :=
  match settled with
  | Resolved r => (Resolved r, b)
  | Rejected error =>
      match response error with
      | Some r =>
          if http_status r =? 401
          then (Rejected error,
                {| storage := delete "auth_token" (storage b); location := "/login" |})
          else (Rejected error, b)
      | None => (Rejected error, b)
      end
  end.

(** One call through the instance. *)
Definition axiosInstance (server : Server) (req : Request) (b : Browser)
  : Settled * Browser :=
  responseInterceptor (server (requestInterceptor req b)) b.

(** [v.k] for a property name [k] that no primitive and no array defines
    (here ["data"] and ["token"]): a [TypeError] on [undefined] and
    [null], [undefined] when the property is missing. *)
Definition get (v : JsValue) (k : string) : Completion JsValue :=
  match v with
  | JsUndefined | JsNull =>
      Throw (TypeError ("Cannot read properties of undefined (reading '" +:+ k +:+ "')"))
  | JsObject fields => Normal (default JsUndefined (field k fields))
  | JsBool _ | JsNumber _ | JsString _ | JsArray _ => Normal JsUndefined
  end.

(** An integer in decimal. *)
Definition decimal (z : Z) : string := NilZero.string_of_int (Z.to_int z).

(** The Number value of a positive integer of a JSON text: the nearest
    double, ties to the even significand; [None] is [Infinity].  The
    doubles from [2 ^ 53] on are [m * 2 ^ e] with a significand [m] of 53
    bits. *)
Definition nearest_double (a : Z) : option Z :=
  if a <? 2 ^ 53 then Some a
  else
    let e := Z.log2 a - 52 in
    let q := a / 2 ^ e in
    let r := a mod 2 ^ e in
    let half := 2 ^ (e - 1) in
    let q := if (half <? r) || ((r =? half) && Z.odd q) then q + 1 else q in
    if 2 ^ 1024 <=? q * 2 ^ e then None else Some (q * 2 ^ e).

(** The integer [v] reads back as the double [x] (from [2 ^ 53] on): it
    lies between the midpoints to the two neighbours of [x], a midpoint
    itself reading as [x] when the significand of [x] is even.  Written
    on the doubled values, which are integers. *)
Definition reads_as (x v : Z) : bool :=
  let e := Z.log2 x - 52 in
  let m := x / 2 ^ e in
  let lo := 2 * x - (if m =? 2 ^ 52 then 2 ^ (e - 1) else 2 ^ e) in
  let hi := 2 * x + 2 ^ e in
  ((lo <? 2 * v) && (2 * v <? hi))
  || (((2 * v =? lo) || (2 * v =? hi)) && Z.even m).

(** Number::toString, step 5 with the choice all engines make: the
    integer of fewest significant digits that reads back as [x], the
    closest to [x] among those, the even one of two. *)
Fixpoint shortest_from (fuel : nat) (x n k : Z) : Z :=
  match fuel with
  | O => x
  | S fuel =>
      let p := 10 ^ (n - k) in
      let s := x / p in
      let v1 := s * p in
      let v2 := (s + 1) * p in
      match reads_as x v1, reads_as x v2 with
      | true, true =>
          if x - v1 <? v2 - x then v1
          else if v2 - x <? x - v1 then v2
          else if Z.even s then v1 else v2
      | true, false => v1
      | false, true => v2
      | false, false => shortest_from fuel x n (k + 1)
      end
  end.

Definition shortest (x : Z) : Z :=
  if x <? 2 ^ 53 then x
  else
    let n := Z.of_nat (String.length (decimal x)) in
    shortest_from (Z.to_nat n) x n 1.

Fixpoint strip_zeros (reversed : list Ascii.ascii) : list Ascii.ascii :=
  match reversed with
  | c :: rest =>
      if Ascii.eqb c (Ascii.ascii_of_nat 48) then strip_zeros rest else reversed
  | [] => []
  end.

Definition significant (digits : string) : string :=
  String.string_of_list_ascii
    (rev (strip_zeros (rev (String.list_ascii_of_string digits)))).

(** [d.ddde+n], the notation from 22 digits on. *)
Definition exponential (digits : string) : string :=
  let n := Z.of_nat (String.length digits) in
  match significant digits with
  | String d EmptyString => String d ("e+" +:+ decimal (n - 1))
  | String d rest => String d ("." +:+ rest +:+ "e+" +:+ decimal (n - 1))
  | EmptyString => digits
  end.

Definition positive_to_string (a : Z) : string :=
  match nearest_double a with
  | None => "Infinity"
  | Some x =>
      let digits := decimal (shortest x) in
      if (String.length digits <=? 21)%nat then digits else exponential digits
  end.

(** ToString of the Number an integer of a JSON text stands for. *)
Definition number_to_string (z : Z) : string :=
  if z <? 0 then "-" +:+ positive_to_string (- z) else positive_to_string z.

(** ToString, as [localStorage.setItem] applies it to its value.  An
    object is printed by the inherited [toString], unless it has a
    property [toString] of its own: a value of a JSON text is not
    callable, [valueOf] then answers the object itself, and the
    conversion throws. *)
Fixpoint to_string (v : JsValue) : Completion string :=
  match v with
  | JsUndefined => Normal "undefined"
  | JsNull => Normal "null"
  | JsBool b => Normal (bool_literal b)
  | JsNumber z => Normal (number_to_string z)
  | JsString s => Normal s
  | JsArray items =>
      (fix join (l : list JsValue) : Completion string :=
         match l with
         | [] => Normal ""
         | x :: rest =>
             bind (match x with
                   | JsUndefined | JsNull => Normal ""
                   | _ => to_string x
                   end) (fun shown =>
             match rest with
             | [] => Normal shown
             | _ :: _ => bind (join rest) (fun others =>
                         Normal (shown +:+ "," +:+ others))
             end)
         end) items
  | JsObject fields =>
      match field "toString" fields with
      | Some _ => Throw (TypeError "Cannot convert object to primitive value")
      | None => Normal "[object Object]"
      end
  end.

Definition credentials (email password : string) : JsValue :=
  JsObject [ ("email", JsString email); ("password", JsString password) ].

(** [async login(email, password)] *)
Definition login (server : Server) (email password : string) (b : Browser)
  : Completion JsValue * Browser :=
  let '(settled, b) :=
    axiosInstance server
      {| method := POST; url := "/auth/login"; body := credentials email password |} b in
  match settled with
  | Resolved response =>
      match bind (get (data response) "data") (fun d => get d "token") with
      | Normal token =>
          match to_string token with
          | Normal stored =>
              (Normal (data response),
               {| storage := <["auth_token" := stored]> (storage b);
                  location := location b |})
          | Throw error => (Normal (handleError error), b)
          end
      | Throw error => (Normal (handleError error), b)
      end
  | Rejected error => (Normal (handleError error), b)
  end.

(** [async getUserProfile()] *)
Definition getUserProfile (server : Server) (b : Browser)
  : Completion JsValue * Browser :=
  let '(settled, b) :=
    axiosInstance server {| method := GET; url := "/auth/me"; body := JsUndefined |} b in
  match settled with
  | Resolved response => (Normal (data response), b)
  | Rejected error => (Normal (handleError error), b)
  end.

(** [async logout()] *)
Definition logout (b : Browser) : Browser :=
  {| storage := delete "auth_token" (storage b); location := location b |}.

End Axios.

(** ** [auth-store.ts] *)

Module AuthStore.
Import Js Types.

Record User : Type := mkUser {
  id : string;
  name : string;
  email : string;
  role : string;
  created_at : string
}.

Record AuthResponse : Type := mkAuthResponse {
  token : string;
  user : User
}.

Record State : Type := mkState {
  isAuthenticated : bool;
  isLoading : bool;
  current : option User
}.

Definition initialState : State :=
  {| isAuthenticated := false; isLoading := true; current := None |}.

(** [{ ...initialState, isLoading: false }] *)
Definition signedOut : State :=
  {| isAuthenticated := false; isLoading := false; current := None |}.

Inductive SocketCall : Type := connectSocket | disconnectSocket.

(** The store value, local storage, and the calls made to
    [websocket-client.ts]. *)
Record World : Type := mkWorld {
  state : State;
  storage : gmap string string;
  calls : list SocketCall
}.

(** A method of [apiClient] as the store sees it: a typed answer, and
    whatever the client itself did to local storage on the way. *)
Definition Call (T : Type) : Type :=
  gmap string string -> Completion (ApiResponse T) * gmap string string.

(** [login: async (email, password)].  An exception of the client is not
    caught here: the second component is then [None] (the promise
    rejects). *)
Definition login (browser : bool) (api : string -> string -> Call AuthResponse)
    (email password : string) (w : World) : World * option bool :=
  let '(answer, storage) := api email password (storage w) in
  match answer with
  | Throw _ => ({| state := state w; storage := storage; calls := calls w |}, None)
  | Normal response =>
      if status response then
        ({| state := {| isAuthenticated := true; isLoading := false;
                        current := Some (user (Types.data response)) |};
            storage := if browser
                       then <["auth_token" := token (Types.data response)]> storage
                       else storage;
            calls := calls w ++ [connectSocket] |}, Some true)
      else ({| state := state w; storage := storage; calls := calls w |}, Some false)
  end.

(** [checkAuth: async ()] *)
Definition checkAuth (browser : bool) (api : Call User) (w : World) : World * bool :=
  if negb browser then
    ({| state := signedOut; storage := storage w; calls := calls w |}, false)
  else
    match storage w !! "auth_token" with
    | None => ({| state := signedOut; storage := storage w; calls := calls w |}, false)
    | Some stored =>
        if String.eqb stored "" then
          ({| state := signedOut; storage := storage w; calls := calls w |}, false)
        else
          let '(answer, storage) := api (storage w) in
          match answer with
          | Normal response =>
              if status response then
                ({| state := {| isAuthenticated := true; isLoading := false;
                                current := Some (Types.data response) |};
                    storage := storage;
                    calls := calls w ++ [connectSocket] |}, true)
              else
                ({| state := signedOut; storage := delete "auth_token" storage;
                    calls := calls w |}, false)
          | Throw _ =>
              ({| state := signedOut; storage := delete "auth_token" storage;
                  calls := calls w |}, false)
          end
    end.

(** [logout()] *)
Definition logout (browser : bool) (w : World) : World :=
  {| state := signedOut;
     storage := if browser then delete "auth_token" (storage w) else storage w;
     calls := calls w ++ [disconnectSocket] |}.

End AuthStore.

(** ** JavaScript objects as property lists *)

Module Objects.
Import Js.

(** [o[k]] on an object given by its own properties in insertion order
    ([None] is [undefined]). *)
Fixpoint get_field {A} (k : string) (fields : list (string * A)) : option A :=
  match fields with
  | [] => None
  | (k', v) :: rest => if String.eqb k k' then Some v else get_field k rest
  end.

(** [o[k] = v] for a key that sets an own data property (any key but
    [__proto__] on a plain object): an existing property keeps its place,
    a new one is added at the end (keys that are array indices, which
    JavaScript lists first, are not treated apart: only the order of the
    properties could differ). *)
Fixpoint set_field {A} (k : string) (v : A) (fields : list (string * A))
  : list (string * A) :=
  match fields with
  | [] => [(k, v)]
  | (k', v') :: rest =>
      if String.eqb k k' then (k, v) :: rest else (k', v') :: set_field k v rest
  end.

(** [{ ...target, ...source }] *)
Definition assign {A} (target source : list (string * A)) : list (string * A) :=
  fold_left (fun acc e => set_field (fst e) (snd e) acc) source target.

(** The index keys ["0"], ["1"], ... of an array or a string. *)
Fixpoint indexed {A} (i : nat) (items : list A) : list (string * A) :=
  match items with
  | [] => []
  | x :: rest => (NilZero.string_of_uint (Nat.to_uint i), x) :: indexed (S i) rest
  end.

Fixpoint characters (s : string) : list JsValue :=
  match s with
  | EmptyString => []
  | String c rest => JsString (String c EmptyString) :: characters rest
  end.

(** [Object.entries(v)]: a [TypeError] on [undefined] and [null], no entry
    for a boolean or a number, the indexed characters of a string and the
    indexed items of an array. *)
Definition entries (v : JsValue) : Completion (list (string * JsValue)) :=
  match v with
  | JsUndefined | JsNull =>
      Throw (TypeError "Cannot convert undefined or null to object")
  | JsBool _ | JsNumber _ => Normal []
  | JsString s => Normal (indexed 0 (characters s))
  | JsArray items => Normal (indexed 0 items)
  | JsObject fields => Normal fields
  end.

End Objects.

(** ** [settings-store.ts] *)

Module SettingsStore.
Import Js Types Objects.

Record AppSettings : Type := mkApp {
  theme : string;
  default_locale : option string;
  message_display : string
}.

Record Features : Type := mkFeatures {
  enable_web_search : bool;
  enable_code_interpreter : bool;
  enable_image_generation : bool
}.

Record UserSettings : Type := mkSettings {
  app : AppSettings;
  models : list (string * JsValue);
  features : Features
}.

Definition defaultSettings : UserSettings :=
  {| app := {| theme := "system"; default_locale := None;
               message_display := "comfortable" |};
     models := [];
     features := {| enable_web_search := true; enable_code_interpreter := true;
                    enable_image_generation := false |} |}.

Record State : Type := mkState {
  settings : UserSettings;
  isLoading : bool;
  hasLoaded : bool;
  error : option string
}.

Definition initialState : State :=
  {| settings := defaultSettings; isLoading := false; hasLoaded := false;
     error := None |}.

(** [document.documentElement.classList] *)
Definition ClassList : Type := gset string.

(** [applyTheme(theme)]; [prefersDark] is
    [window.matchMedia('(prefers-color-scheme: dark)').matches]. *)
Definition applyTheme (browser prefersDark : bool) (theme : string)
    (classes : gset string) : gset string :=
  if negb browser then classes
  else
    let classes := classes ∖ {["light"]} ∖ {["dark"]} in
    if String.eqb theme "system"
    then {[ if prefersDark then "dark" else "light" ]} ∪ classes
    else {[ theme ]} ∪ classes.

Definition fail_with (e : string) (st : State) : State :=
  {| settings := settings st; isLoading := false; hasLoaded := hasLoaded st;
     error := Some e |}.

(** [loadSettings: async ()].  [api] is [apiClient.getSettings], called
    only when the settings have not been loaded yet. *)
Definition loadSettings (browser prefersDark : bool)
    (api : unit -> Completion (ApiResponse (option UserSettings)))
    (w : State * gset string) : State * gset string * bool :=
  let '(st, classes) := w in
  let alreadyLoaded := hasLoaded st in
  let st := {| settings := settings st; isLoading := negb (hasLoaded st);
               hasLoaded := hasLoaded st; error := error st |} in
  if alreadyLoaded then (st, classes, true)
  else
    match api tt with
    | Normal response =>
        if status response then
          let st := {| settings := default defaultSettings (Types.data response);
                       isLoading := false; hasLoaded := true; error := error st |} in
          if browser then
            match Types.data response with
            | Some received =>
                (st, applyTheme browser prefersDark
                       (or_else (theme (app received)) "system") classes, true)
            | None => (fail_with "Error loading settings" st, classes, false)
            end
          else (st, classes, true)
        else (fail_with (Conversations.error_or response "Failed to load settings") st,
              classes, false)
    | Throw _ => (fail_with "Error loading settings" st, classes, false)
    end.

(** What [updateSettings] is given: a [Partial<UserSettings>] whose
    sections may themselves name only some of their properties (as
    [setTheme] and [toggleFeature] do). *)
Record AppPatch : Type := mkAppPatch {
  new_theme : option string;
  new_default_locale : option string;
  new_message_display : option string
}.

Record FeaturesPatch : Type := mkFeaturesPatch {
  new_enable_web_search : option bool;
  new_enable_code_interpreter : option bool;
  new_enable_image_generation : option bool
}.

Record Patch : Type := mkPatch {
  new_app : option AppPatch;
  new_models : option (list (string * JsValue));
  new_features : option FeaturesPatch
}.

(** [Object.entries(newSettings.app)] *)
Definition app_entries (a : AppPatch) : list (string * JsValue) :=
  (from_option (fun t => [("theme", JsString t)]) [] (new_theme a)
   ++ from_option (fun l => [("default_locale", JsString l)]) []
        (new_default_locale a)
   ++ from_option (fun d => [("message_display", JsString d)]) []
        (new_message_display a))%list.

(** [Object.entries(newSettings.features)] *)
Definition features_entries (f : FeaturesPatch) : list (string * JsValue) :=
  (from_option (fun b => [("enable_web_search", JsBool b)]) []
     (new_enable_web_search f)
   ++ from_option (fun b => [("enable_code_interpreter", JsBool b)]) []
        (new_enable_code_interpreter f)
   ++ from_option (fun b => [("enable_image_generation", JsBool b)]) []
        (new_enable_image_generation f))%list.

(** [es.forEach(([key, value]) => { flat[`${prefix}${key}`] = value; })] *)
Definition set_prefixed (prefix : string) (es flat : list (string * JsValue))
  : list (string * JsValue) :=
  fold_left (fun acc e => set_field (prefix +:+ fst e) (snd e) acc) es flat.

(** The body of the second [forEach] of the flattening: the entries of
    each model's settings, under [models.<modelId>.]. *)
Definition flatten_models (ms flat : list (string * JsValue))
  : Completion (list (string * JsValue)) :=
  fold_left
    (fun acc m =>
       bind acc (fun flat =>
       bind (entries (snd m)) (fun es =>
       Normal (set_prefixed ("models." +:+ fst m +:+ ".") es flat))))
    ms (Normal flat).

(** "Flatten settings for API" (lines 94-114). *)
Definition flatten (newSettings : Patch) : Completion (list (string * JsValue)) :=
  let flat := [] in
  let flat := match new_app newSettings with
              | Some a => set_prefixed "app." (app_entries a) flat
              | None => flat
              end in
  bind (match new_models newSettings with
        | Some ms => flatten_models ms flat
        | None => Normal flat
        end) (fun flat =>
  Normal (match new_features newSettings with
          | Some f => set_prefixed "features." (features_entries f) flat
          | None => flat
          end)).

(** [{ ...state.settings.app, ...(newSettings.app || {}) }] *)
Definition spread_app (a : AppSettings) (p : option AppPatch) : AppSettings :=
  match p with
  | None => a
  | Some p =>
      {| theme := default (theme a) (new_theme p);
         default_locale := match new_default_locale p with
                           | Some l => Some l
                           | None => default_locale a
                           end;
         message_display := default (message_display a) (new_message_display p) |}
  end.

(** [{ ...state.settings.features, ...(newSettings.features || {}) }] *)
Definition spread_features (f : Features) (p : option FeaturesPatch) : Features :=
  match p with
  | None => f
  | Some p =>
      {| enable_web_search :=
           default (enable_web_search f) (new_enable_web_search p);
         enable_code_interpreter :=
           default (enable_code_interpreter f) (new_enable_code_interpreter p);
         enable_image_generation :=
           default (enable_image_generation f) (new_enable_image_generation p) |}
  end.

(** [newSettings.app?.theme], when it is truthy. *)
Definition theme_to_apply (newSettings : Patch) : option string :=
  match new_app newSettings with
  | Some a => match new_theme a with
              | Some t => if String.eqb t "" then None else Some t
              | None => None
              end
  | None => None
  end.

(** [updateSettings: async (newSettings)].  [api] is
    [apiClient.updateSettings], given the flattened settings. *)
Definition updateSettings (browser prefersDark : bool)
    (api : list (string * JsValue) -> Completion (ApiResponse JsValue))
    (newSettings : Patch) (w : State * gset string) : State * gset string * bool :=
  let '(st, classes) := w in
  let st := {| settings := settings st; isLoading := true;
               hasLoaded := hasLoaded st; error := error st |} in
  match bind (flatten newSettings) api with
  | Normal response =>
      if status response then
        let updatedSettings :=
          {| app := spread_app (app (settings st)) (new_app newSettings);
             models := assign (models (settings st))
                              (default [] (new_models newSettings));
             features := spread_features (features (settings st))
                                         (new_features newSettings) |} in
        let classes :=
          match theme_to_apply newSettings with
          | Some t => if browser then applyTheme browser prefersDark t classes
                      else classes
          | None => classes
          end in
        ({| settings := updatedSettings; isLoading := false;
            hasLoaded := hasLoaded st; error := error st |}, classes, true)
      else (fail_with (Conversations.error_or response "Failed to update settings") st,
            classes, false)
  | Throw _ => (fail_with "Error updating settings" st, classes, false)
  end.

(** [this.updateSettings] inside the arrow functions of the store:
    [this] is [undefined] there, so reading the property throws. *)
Definition this_updateSettings : Completion bool :=
  Throw (TypeError "Cannot read properties of undefined (reading 'updateSettings')").

(** [setTheme: async (theme)] *)
Definition setTheme (browser prefersDark : bool) (theme : string)
    (w : State * gset string) : State * gset string * Completion bool :=
  let '(st, classes) := w in
  let classes := if browser then applyTheme browser prefersDark theme classes
                 else classes in
  (st, classes, this_updateSettings).

(** [toggleFeature: async (feature)] *)
Definition toggleFeature (feature : Features -> bool)
    (w : State * gset string) : State * gset string * Completion bool :=
  let '(st, classes) := w in
  let currentValue := feature (features (settings st)) in
  (st, classes, this_updateSettings).

(** [resetSettings: async ()] *)
Definition resetSettings (w : State * gset string)
  : State * gset string * Completion bool :=
  (fst w, snd w, this_updateSettings).

End SettingsStore.

(** ** The sidebar component: the list it shows *)

Module Sidebar.
Import Js Types.

(** [s.includes(sub)]: [sub] occurs in [s] as a run of code units. *)
Fixpoint includes (sub s : string) : bool :=
  String.prefix sub s
  || match s with
     | EmptyString => false
     | String _ rest => includes sub rest
     end.

Section Component.

(** [String.prototype.trim] and [String.prototype.toLowerCase], the
    host's (white space and case mapping are Unicode's). *)
Variable trim : string -> string.
Variable toLowerCase : string -> string.

(** [$: filteredConversations = searchQuery.trim() ? ....filter(...) :
    $conversationsStore.conversations] *)
Definition filteredConversations (searchQuery : string)
    (conversations : list Conversation.t) : list Conversation.t :=
  if negb (String.eqb (trim searchQuery) "")
  then List.filter
         (fun conv => includes (toLowerCase searchQuery)
                               (toLowerCase (Conversation.title conv)))
         conversations
  else conversations.

End Component.

End Sidebar.

(** ** [conversations-store.ts], second store: [updateModelParameters] *)

Module ModelParameters.
Import Js Types Objects.

(** A [Model] with its [parameters], the property the functions above
    never read: an object of [ModelParameter] objects. *)
Record Detailed : Type := mkDetailed {
  model : Model.t;
  parameters : list (string * list (string * JsValue))
}.

Definition id (m : Detailed) : string := Model.id (model m).

Record State : Type := mkState {
  models : list Detailed;
  isLoading : bool;
  selectedModel : option Detailed;
  error : option string
}.

(** The properties every object inherits from [Object.prototype]: the
    methods, which are functions, and the accessor [__proto__]. *)
Definition inherited_methods : list string :=
  [ "constructor"; "hasOwnProperty"; "isPrototypeOf"; "propertyIsEnumerable";
    "toLocaleString"; "toString"; "valueOf";
    "__defineGetter__"; "__defineSetter__"; "__lookupGetter__"; "__lookupSetter__" ].

(** [model.parameters[key]] as far as the reducer uses it: a truthy
    value, of which [{ ...value }] keeps the own enumerable properties.
    An own property is a [ModelParameter] object, hence truthy; an
    inherited method is a function, truthy, with no enumerable property
    of its own; any other key reads [undefined]. *)
Definition parameter_at (key : string)
    (existing : list (string * list (string * JsValue)))
  : option (list (string * JsValue)) :=
  match get_field key existing with
  | Some p => Some p
  | None => if bool_decide (key ∈ inherited_methods) then Some [] else None
  end.

(** [Object.entries(parameters).reduce((acc, [key, value]) => { if
    (model.parameters[key]) { acc[key] = { ...model.parameters[key],
    default: value }; } return acc; }, {})].  For the key ["__proto__"]
    the assignment [acc[key] = ...] runs the inherited setter: it gives
    [acc] another prototype and no property. *)
Definition new_defaults (existing : list (string * list (string * JsValue)))
    (es : list (string * JsValue)) : list (string * list (string * JsValue)) :=
  fold_left
    (fun acc e =>
       if String.eqb (fst e) "__proto__" then acc
       else
         match parameter_at (fst e) existing with
         | Some p => set_field (fst e) (set_field "default" (snd e) p) acc
         | None => acc
         end)
    es [].

(** The callback of [state.models.map]. *)
Definition update_model (modelId : string) (given : JsValue) (m : Detailed)
  : Completion Detailed :=
  if String.eqb (id m) modelId then
    bind (entries given) (fun es =>
    Normal {| model := model m;
              parameters := assign (parameters m)
                                   (new_defaults (parameters m) es) |})
  else Normal m.

(** [Array.prototype.map] with a callback that may throw. *)
Fixpoint map_completion {A B} (f : A -> Completion B) (l : list A)
  : Completion (list B) :=
  match l with
  | [] => Normal []
  | x :: rest =>
      bind (f x) (fun y =>
      bind (map_completion f rest) (fun ys => Normal (y :: ys)))
  end.

(** [updateModelParameters: async (modelId, parameters)].  An exception
    thrown inside the [update] callback leaves the store as it was and is
    caught by the method. *)
Definition updateModelParameters
    (api : string -> JsValue -> Completion (ApiResponse JsValue))
    (modelId : string) (given : JsValue) (st : State) : State * bool :=
  match api modelId given with
  | Normal response =>
      if status response then
        match map_completion (update_model modelId given) (models st) with
        | Normal updatedModels =>
            let updatedSelectedModel :=
              match selectedModel st with
              | Some s =>
                  if String.eqb (id s) modelId
                  then Some (default s
                               (List.find (fun m => String.eqb (id m) modelId)
                                          updatedModels))
                  else Some s
              | None => None
              end in
            ({| models := updatedModels; isLoading := isLoading st;
                selectedModel := updatedSelectedModel; error := error st |}, true)
        | Throw _ => (st, false)
        end
      else (st, false)
  | Throw _ => (st, false)
  end.

End ModelParameters.

(** ** Concrete inputs used by the examples below *)

Module Examples.
Import Js Types.

(** nginx answering for a dead back end: its [50x.html] page. *)
Definition bad_gateway : ApiClient.Network :=
  fun _ =>
    ApiClient.Rejected
      {| Js.response := Some {| Js.data := JsString "<html>502 Bad Gateway</html>";
                                Js.http_status := 502 |};
         Js.message := "Request failed with status code 502" |}.

(** An engine: a stable insertion sort.  Each element in turn is the
    pivot, placed before the first element of the sorted prefix that
    [comparefn(pivot, element)] reports greater. *)
Fixpoint insert_pivot {A} (comparefn : A -> A -> Z) (pivot : A) (sorted : list A)
  : list A :=
  match sorted with
  | [] => [pivot]
  | element :: rest =>
      if comparefn pivot element <? 0
      then pivot :: element :: rest
      else element :: insert_pivot comparefn pivot rest
  end.

Definition insertion_sort : ArraySort :=
  fun A comparefn arr =>
    fold_left (fun sorted pivot => insert_pivot comparefn pivot sorted) arr [].

Definition llama : Model.t :=
  {| Model.id := "ollama/llama3"; Model.provider := "ollama";
     Model.name := "llama3"; Model.display_name := "Llama 3";
     Model.context_length := 8192; Model.available := true |}.

Definition gpt : Model.t :=
  {| Model.id := "openai/gpt-4"; Model.provider := "openai";
     Model.name := "gpt-4"; Model.display_name := "GPT-4";
     Model.context_length := 8192; Model.available := true |}.

Definition claude : Model.t :=
  {| Model.id := "anthropic/claude-3"; Model.provider := "anthropic";
     Model.name := "claude-3"; Model.display_name := "Claude 3";
     Model.context_length := 200000; Model.available := true |}.

Definition one_model : ModelsStore.State :=
  {| ModelsStore.models := [llama]; ModelsStore.isLoading := false;
     ModelsStore.selectedModel := None; ModelsStore.error := None |}.

Definition chat (id title : string) : Conversation.t :=
  {| Conversation.id := id; Conversation.title := title;
     Conversation.model_id := "ollama/llama3";
     Conversation.created_at := "2024-01-01T00:00:00.000Z";
     Conversation.updated_at := "2024-01-01T00:00:00.000Z";
     Conversation.system_prompt := None;
     Conversation.is_pinned := false; Conversation.is_archived := false;
     Conversation.messages := None |}.

Definition two_chats : ConversationsStore.State :=
  {| ConversationsStore.conversations := [chat "a" "first"; chat "b" "second"];
     ConversationsStore.isLoading := false;
     ConversationsStore.currentConversation := Some (chat "a" "first");
     ConversationsStore.error := None |}.

Definition no_create :
  ChatPage.ConversationCreateRequest -> Completion (ApiResponse Conversation.t) :=
  fun _ => Throw (TypeError "Network Error").

Definition no_send :
  string -> string -> JsValue -> Completion (ApiResponse ChatPage.ChatReply) :=
  fun _ _ _ => Throw (TypeError "Network Error").

(** The chat page of conversation ["c1"] once [onMount] has run. *)
Definition mounted : ChatPage.World :=
  {| ChatPage.page :=
       {| ChatPage.conversation := Some (chat "c1" "sky");
          ChatPage.messages := [];
          ChatPage.loading := false;
          ChatPage.error := None;
          ChatPage.streaming := false;
          ChatPage.streamedMessage := "";
          ChatPage.activeSocketId := None |};
     ChatPage.socket :=
       {| Socket.listeners := [ ("chat:message", Socket.handleNewMessage);
                                ("chat:update", Socket.handleConversationUpdate);
                                ("chat:typing", Socket.handleTypingIndicator) ];
          Socket.emitted := [] |};
     ChatPage.store := ConversationsStore.initialState;
     ChatPage.visited := [] |}.

Definition ask : ChatPage.Detail :=
  {| ChatPage.message := "Why is the sky blue?";
     ChatPage.stream := true;
     ChatPage.parameters := JsUndefined |}.

Definition t0 : ChatPage.Tick :=
  {| ChatPage.now := "1700000000000"; ChatPage.iso := "2023-11-14T22:13:20.000Z" |}.
Definition t1 : ChatPage.Tick :=
  {| ChatPage.now := "1700000001000"; ChatPage.iso := "2023-11-14T22:13:21.000Z" |}.
Definition t2 : ChatPage.Tick :=
  {| ChatPage.now := "1700000002000"; ChatPage.iso := "2023-11-14T22:13:22.000Z" |}.

Definition sky_tokens : list (ChatPage.Tick * string) :=
  [ (t1, "The"); (t1, " sky"); (t1, " is"); (t1, " blue") ].

Definition streaming_session : Sessions.StreamingSession :=
  {| Sessions.conversation := "c1"; Sessions.state := Sessions.Streaming;
     Sessions.output := "The sky"; Sessions.cancellation := false |}.

Definition one_session : Sessions.Manager :=
  {| Sessions.table := {[ 7%nat := streaming_session ]}; Sessions.next_id := 8 |}.

Definition registry : list Registry.Adapter :=
  [ {| Registry.provider := "ollama";
       Registry.catalog := ["llama3"; "mistral"]; Registry.healthy := true |};
    {| Registry.provider := "openai";
       Registry.catalog := ["gpt-4"]; Registry.healthy := false |} ].



(** A reading of where paragraphs and sentences end: a paragraph after a
    blank line (two line feeds), a sentence after a full stop and a
    space. *)
Definition plain_text (b : Retrieval.Boundary) (document : list Ascii.ascii)
    (p : nat) : bool :=
  let two := match b with
             | Retrieval.Paragraph => (10, 10)
             | Retrieval.Sentence => (46, 32)
             end%nat in
  match p with
  | S (S q) =>
      match document !! q, document !! S q with
      | Some c1, Some c2 =>
          (Ascii.nat_of_ascii c1 =? fst two)%nat
          && (Ascii.nat_of_ascii c2 =? snd two)%nat
      | _, _ => false
      end
  | _ => false
  end.


(** The shipped defaults ([config.yaml]). *)
Definition defaults : Retrieval.Config :=
  {| Retrieval.chunk_size := 1000; Retrieval.chunk_overlap := 100;
     Retrieval.file_max_count := 5; Retrieval.file_max_size := 10485760;
     Retrieval.top_k := 3; Retrieval.relevance_threshold := 0%Q |}.

Definition mistral : Model.t :=
  {| Model.id := "ollama/mistral"; Model.provider := "ollama";
     Model.name := "mistral"; Model.display_name := "Mistral";
     Model.context_length := 8192; Model.available := false |}.

(** A collation to run the comparator with: code-unit order. *)
Definition codeUnitCompare (s t : string) : Z :=
  match String.compare s t with
  | Lt => -1
  | Eq => 0
  | Gt => 1
  end.

End Examples.

(** ** More concrete inputs *)

Module Samples.
Import Js Types.

(** A clock for three timestamps; anything else does not parse. *)
Definition epoch (s : string) : option Z :=
  if String.eqb s "2024-01-01T00:00:00.000Z" then Some 1704067200000
  else if String.eqb s "2024-02-01T00:00:00.000Z" then Some 1706745600000
  else if String.eqb s "2024-03-01T00:00:00.000Z" then Some 1709251200000
  else None.

Definition dated (id updated : string) : Conversation.t :=
  {| Conversation.id := id; Conversation.title := id;
     Conversation.model_id := "ollama/llama3";
     Conversation.created_at := "2024-01-01T00:00:00.000Z";
     Conversation.updated_at := updated;
     Conversation.system_prompt := None;
     Conversation.is_pinned := false; Conversation.is_archived := false;
     Conversation.messages := None |}.

Definition three_dated : list Conversation.t :=
  [ dated "jan" "2024-01-01T00:00:00.000Z";
    dated "mar" "2024-03-01T00:00:00.000Z";
    dated "feb" "2024-02-01T00:00:00.000Z" ].

Definition ok {T} (data : T) : Completion (ApiResponse T) :=
  Normal (mkApiResponse true data None).

Definition two_models : ModelsStore.State :=
  {| ModelsStore.models := [Examples.gpt; Examples.llama];
     ModelsStore.isLoading := false;
     ModelsStore.selectedModel := None; ModelsStore.error := None |}.

(** The chat page of conversation ["c1"] before [onMount]. *)
Definition unmounted : ChatPage.World :=
  {| ChatPage.page := ChatPage.page Examples.mounted;
     ChatPage.socket := {| Socket.listeners := []; Socket.emitted := [] |};
     ChatPage.store := ConversationsStore.initialState;
     ChatPage.visited := [] |}.

Definition hello : Message.t :=
  {| Message.id := "m1"; Message.role := assistant;
     Message.content := "hello";
     Message.created_at := "2024-01-01T00:00:00.000Z" |}.

(** A server that answers every login with a body whose [data] has no
    [token]. *)
Definition tokenless : Axios.Server :=
  fun _ => ApiClient.Resolved
             {| Js.data := JsObject [ ("status", JsBool false);
                                      ("data", JsObject []) ];
                Js.http_status := 200 |}.

(** A server that answers everything with 401. *)
Definition unauthorized : Axios.Server :=
  fun _ => ApiClient.Rejected
             {| Js.response := Some {| Js.data := JsObject [ ("status", JsBool false) ];
                                       Js.http_status := 401 |};
                Js.message := "Request failed with status code 401" |}.

Definition signed_in : Axios.Browser :=
  {| Axios.storage := {[ "auth_token" := "abc"; "selected_model_id" := "m" ]};
     Axios.location := "/chat/c1" |}.

Definition ada : AuthStore.User :=
  {| AuthStore.id := "u1"; AuthStore.name := "Ada"; AuthStore.email := "ada@example.org";
     AuthStore.role := "user"; AuthStore.created_at := "2024-01-01T00:00:00.000Z" |}.

Definition fresh_auth : AuthStore.World :=
  {| AuthStore.state := AuthStore.initialState;
     AuthStore.storage := {[ "auth_token" := "abc" ]};
     AuthStore.calls := [] |}.

Definition dark_settings : SettingsStore.UserSettings :=
  {| SettingsStore.app := {| SettingsStore.theme := "dark";
                             SettingsStore.default_locale := None;
                             SettingsStore.message_display := "compact" |};
     SettingsStore.models := [];
     SettingsStore.features := SettingsStore.features SettingsStore.defaultSettings |}.

(** A settings patch: the dark theme, and new settings for one model. *)
Definition darker : SettingsStore.Patch :=
  {| SettingsStore.new_app :=
       Some {| SettingsStore.new_theme := Some "dark";
               SettingsStore.new_default_locale := None;
               SettingsStore.new_message_display := None |};
     SettingsStore.new_models :=
       Some [ ("ollama/llama3", JsObject [ ("max_tokens", JsNumber 512) ]) ];
     SettingsStore.new_features := None |}.

(** A model with two parameters. *)
Definition tunable : ModelParameters.Detailed :=
  {| ModelParameters.model := Examples.llama;
     ModelParameters.parameters :=
       [ ("temperature", [ ("type", JsString "number"); ("default", JsNumber 1);
                           ("max", JsNumber 2) ]);
         ("max_tokens", [ ("type", JsString "integer"); ("default", JsNumber 256) ]) ] |}.

End Samples.

(** * Properties *)

(** ** The API client always answers, but only tags what it builds itself *)

Section ApiClientFacts.
Import Js ApiClient.

Lemma unknown_error_result_tagged error :
  isTaggedResult (unknown_error_result error) = true
  /\ errorCode (unknown_error_result error) = Some (JsString "unknown_error").
Proof. split; reflexivity. Qed.

Lemma handleError_cases error :
  if no_error_payload error
  then handleError error = unknown_error_result error
  else exists r, response error = Some r /\ handleError error = data r.
Proof.
  unfold no_error_payload, handleError.
  destruct (response error) as [r|]; [|reflexivity].
  destruct (truthy (data r)); simpl; eauto.
Qed.

(** C8, as stated, fails: a failure whose response body is not an
    [ApiResponse] (here the HTML page nginx serves for a 502) is handed to
    the caller as it is, neither tagged nor given the code
    ["unknown_error"]. *)
Lemma sendChatMessage_untagged_body :
  sendChatMessage Examples.bad_gateway "c1" "hello" JsUndefined
    = Normal (JsString "<html>502 Bad Gateway</html>")
  /\ isTaggedResult (JsString "<html>502 Bad Gateway</html>") = false
  /\ errorCode (JsString "<html>502 Bad Gateway</html>") = None.
Proof. repeat split. Qed.

(** C8, amended: [sendChatMessage] never throws.  On success it returns the
    response body; on a failure that carries a truthy response body it
    returns that body unchanged; on a failure without one (no response, or
    a falsy body) it returns the failure-tagged result with code
    ["unknown_error"]. *)
Theorem sendChatMessage_result net conversationId message parameters :
  exists v,
    sendChatMessage net conversationId message parameters = Normal v
    /\ match net (chat_request conversationId message parameters) with
       | Resolved r => v = data r
       | Rejected error =>
           if no_error_payload error
           then v = unknown_error_result error
                /\ isTaggedResult v = true
                /\ errorCode v = Some (JsString "unknown_error")
           else exists r, response error = Some r /\ v = data r
       end.
Proof.
  unfold sendChatMessage.
  destruct (net (chat_request conversationId message parameters)) as [r|error];
    simpl.
  - eauto.
  - exists (handleError error). split; [reflexivity|].
    pose proof (handleError_cases error) as H.
    destruct (no_error_payload error); [|exact H].
    rewrite H. split; [reflexivity|apply unknown_error_result_tagged].
Qed.

End ApiClientFacts.

(** ** Deleting a conversation touches that conversation only *)

Section ConversationsStoreFacts.
Import Js Types ConversationsStore.

Lemma filter_sublist {A} (f : A -> bool) (l : list A) :
  sublist (List.filter f l) l.
Proof.
  induction l as [|x l IH]; simpl; [constructor|].
  destruct (f x); [apply sublist_skip | apply sublist_cons]; exact IH.
Qed.

Lemma remove_from_store_conversations conversationId st c :
  c ∈ conversations (remove_from_store conversationId st)
  <-> c ∈ conversations st /\ Conversation.id c <> conversationId.
Proof.
  unfold remove_from_store; simpl.
  rewrite !list_elem_of_In, filter_In, negb_true_iff, String.eqb_neq.
  reflexivity.
Qed.

(** C9: when [apiClient.deleteConversation] answers with a true [status],
    the store loses exactly the conversations with that id, the others
    keep their relative order, [currentConversation] becomes [null] when
    it had that id and is otherwise kept, and the method resolves to
    [true]; when the answer has a false [status] or the call throws, the
    store is unchanged and the method resolves to [false]. *)
Theorem deleteConversation_frame api conversationId permanent st :
  let st' := fst (deleteConversation api conversationId permanent st) in
  let ok := snd (deleteConversation api conversationId permanent st) in
  match api conversationId permanent with
  | Normal response =>
      if status response then
        ok = true
        /\ (forall c, c ∈ conversations st'
                      <-> c ∈ conversations st /\ Conversation.id c <> conversationId)
        /\ sublist (conversations st') (conversations st)
        /\ conversations st'
           = List.filter (fun c => negb (String.eqb (Conversation.id c) conversationId))
                         (conversations st)
        /\ (forall c, currentConversation st = Some c ->
                      Conversation.id c = conversationId ->
                      currentConversation st' = None)
        /\ ((forall c, currentConversation st = Some c ->
                       Conversation.id c <> conversationId) ->
            currentConversation st' = currentConversation st)
        /\ isLoading st' = isLoading st
        /\ error st' = error st
      else st' = st /\ ok = false
  | Throw _ => st' = st /\ ok = false
  end.
Proof.
  unfold deleteConversation.
  destruct (api conversationId permanent) as [response|e]; [|split; reflexivity].
  destruct (status response); [|split; reflexivity].
  simpl. split; [reflexivity|].
  split; [intros c; apply remove_from_store_conversations|].
  split; [apply filter_sublist|].
  split; [reflexivity|].
  split; [|split; [|split; reflexivity]].
  - intros c Hc Hid. unfold current_is. rewrite Hc.
    apply String.eqb_eq in Hid. rewrite Hid. reflexivity.
  - intros Hother. unfold current_is.
    destruct (currentConversation st) as [c|]; [|reflexivity].
    specialize (Hother c eq_refl). apply String.eqb_neq in Hother.
    rewrite Hother. reflexivity.
Qed.

Lemma deleteConversation_example :
  conversations
    (fst (deleteConversation
            (fun _ _ => Normal (mkApiResponse true (JsObject []) None))
            "a" false Examples.two_chats))
    = [Examples.chat "b" "second"]
  /\ currentConversation
       (fst (deleteConversation
               (fun _ _ => Normal (mkApiResponse true (JsObject []) None))
               "a" false Examples.two_chats))
     = None.
Proof.
  destruct (deleteConversation_frame
              (fun _ _ => Normal (mkApiResponse true (JsObject []) None))
              "a" false Examples.two_chats)
    as (_ & _ & _ & Hkept & Hcleared & _).
  split; [exact Hkept|]. exact (Hcleared (Examples.chat "a" "first") eq_refl eq_refl).
Defined.

Example deleteConversation_current :
  deleteConversation
    (fun _ _ => Normal (mkApiResponse true (JsObject []) None))
    "a" false Examples.two_chats
  = ({| conversations := [Examples.chat "b" "second"]; isLoading := false;
        currentConversation := None; error := None |}, true).
Proof. reflexivity. Qed.

Example deleteConversation_refused :
  deleteConversation
    (fun _ _ =>
       Normal (mkApiResponse false (JsObject [])
                 (Some (mkApiError "not_found" "Conversation not found"))))
    "a" false Examples.two_chats
  = (Examples.two_chats, false).
Proof. reflexivity. Qed.

End ConversationsStoreFacts.

(** ** Selecting a model *)

Section ModelsStoreFacts.
Import Js Types ModelsStore.

Lemma find_by_id_Some modelId ms m :
  find_by_id modelId ms = Some m -> m ∈ ms /\ Model.id m = modelId.
Proof.
  unfold find_by_id. intros H. apply find_some in H as [Hin Heq].
  split; [apply list_elem_of_In; exact Hin | apply String.eqb_eq; exact Heq].
Qed.

Lemma find_by_id_None modelId ms :
  find_by_id modelId ms = None <-> (forall m, m ∈ ms -> Model.id m <> modelId).
Proof.
  unfold find_by_id. split.
  - intros H m Hin. apply String.eqb_neq.
    apply (find_none _ _ H). apply list_elem_of_In. exact Hin.
  - intros H. destruct (List.find _ ms) as [m|] eqn:E; [|reflexivity].
    apply find_some in E as [Hin Heq]. apply String.eqb_eq in Heq.
    exfalso. apply (H m); [apply list_elem_of_In; exact Hin | exact Heq].
Qed.

(** C10, as stated, fails: outside the browser ([browser = false], the
    guard of line 407) a model that is found is selected but nothing is
    written to local storage. *)
Lemma selectModel_not_persisted_outside_browser :
  selectedModel (fst (selectModel false "ollama/llama3" (Examples.one_model, ∅)))
    = Some Examples.llama
  /\ snd (selectModel false "ollama/llama3" (Examples.one_model, ∅))
       !! "selected_model_id" = None.
Proof. split; reflexivity. Qed.

(** [find] answers the first model of the id: no model before it has the
    id. *)
Lemma find_by_id_first modelId ms m :
  find_by_id modelId ms = Some m ->
  exists before after,
    ms = (before ++ m :: after)%list
    /\ (forall x, x ∈ before -> Model.id x <> modelId)
    /\ Model.id m = modelId.
Proof.
  unfold find_by_id. induction ms as [|x ms IH]; simpl; [discriminate|].
  destruct (String.eqb_spec (Model.id x) modelId) as [Hx|Hx].
  - intros [= ->]. exists [], ms. split; [reflexivity|]. split; [|exact Hx].
    intros y Hy. inversion Hy.
  - intros H. destruct (IH H) as (before & after & -> & Hbefore & Hid).
    exists (x :: before), after. split; [reflexivity|]. split; [|exact Hid].
    intros y Hy. apply elem_of_cons in Hy as [->|Hy]; [exact Hx|auto].
Qed.

(** C10, amended: [selectModel] leaves the list of models unchanged.  If
    some model has the id, [selectedModel] becomes the first such model
    (no model before it in the list has the id) and, in the browser, the
    id is stored under ["selected_model_id"] (outside the browser local
    storage is not touched).  If no model has the id, [selectedModel]
    becomes [null] and local storage is not written. *)
Theorem selectModel_spec browser modelId state storage :
  let state' := fst (selectModel browser modelId (state, storage)) in
  let storage' := snd (selectModel browser modelId (state, storage)) in
  models state' = models state
  /\ ((exists m, m ∈ models state /\ Model.id m = modelId) ->
      exists before m after,
        models state = (before ++ m :: after)%list
        /\ (forall x, x ∈ before -> Model.id x <> modelId)
        /\ Model.id m = modelId
        /\ selectedModel state' = Some m
        /\ storage' = if browser
                      then <["selected_model_id" := modelId]> storage
                      else storage)
  /\ ((forall m, m ∈ models state -> Model.id m <> modelId) ->
      selectedModel state' = None /\ storage' = storage).
Proof.
  unfold selectModel; simpl.
  destruct (find_by_id modelId (models state)) as [m|] eqn:E; simpl.
  - pose proof (find_by_id_Some _ _ _ E) as [Hin Hid].
    apply find_by_id_first in E as (before & after & Hms & Hbefore & _).
    split; [reflexivity|]. split.
    + intros _. exists before, m, after. rewrite Hid. auto.
    + intros Hnone. exfalso. exact (Hnone m Hin Hid).
  - split; [reflexivity|]. split.
    + intros [m [Hin Hid]]. exfalso.
      rewrite find_by_id_None in E. exact (E m Hin Hid).
    + intros _. split; reflexivity.
Qed.

Lemma selectModel_example :
  selectedModel (fst (selectModel true "ollama/llama3" (Examples.one_model, ∅)))
    = Some Examples.llama
  /\ snd (selectModel true "ollama/llama3" (Examples.one_model, ∅))
       !! "selected_model_id" = Some "ollama/llama3"
  /\ selectedModel (fst (selectModel true "gpt-ghost" (Examples.one_model, ∅))) = None.
Proof.
  destruct (selectModel_spec true "ollama/llama3" Examples.one_model ∅)
    as (_ & Hfound & _).
  destruct (selectModel_spec true "gpt-ghost" Examples.one_model ∅)
    as (_ & _ & Hmissing).
  destruct Hfound as (before & m & after & _ & _ & _ & _ & Hstored).
  { exists Examples.llama. split; [apply list_elem_of_In; left|]; reflexivity. }
  split; [reflexivity|]. split.
  - rewrite Hstored. reflexivity.
  - apply Hmissing. intros m' Hm'. apply list_elem_of_In in Hm'. simpl in Hm'.
    destruct Hm' as [<- | []]. discriminate.
Defined.

End ModelsStoreFacts.

(** ** Streaming: tokens reach the transcript in the order received *)

Section ChatPageFacts.
Import Js Types ChatPage.

Variable conversationId : string.
Variable createConversation :
  ConversationCreateRequest -> Completion (ApiResponse Conversation.t).
Variable sendChatMessage :
  string -> string -> JsValue -> Completion (ApiResponse ChatReply).

Local Abbreviation handleSendMessage :=
  (ChatPage.handleSendMessage conversationId createConversation sendChatMessage).
Local Abbreviation create_if_new :=
  (ChatPage.create_if_new conversationId createConversation).
Local Abbreviation deliver := (ChatPage.deliver conversationId).
Local Abbreviation deliver_all := (ChatPage.deliver_all conversationId).

Lemma append_inj_l (p a b : string) : p +:+ a = p +:+ b -> a = b.
Proof. apply (inj (String.app p)). Qed.

Lemma done_is_not_token streamId :
  String.eqb (Socket.done_event streamId) (Socket.token_event streamId) = false.
Proof.
  apply String.eqb_neq. unfold Socket.done_event, Socket.token_event. intros H.
  do 2 apply append_inj_l in H. discriminate H.
Qed.

Lemma error_is_not_token streamId :
  String.eqb (Socket.error_event streamId) (Socket.token_event streamId) = false.
Proof.
  apply String.eqb_neq. unfold Socket.error_event, Socket.token_event. intros H.
  do 2 apply append_inj_l in H. discriminate H.
Qed.

Lemma error_is_not_done streamId :
  String.eqb (Socket.error_event streamId) (Socket.done_event streamId) = false.
Proof.
  apply String.eqb_neq. unfold Socket.error_event, Socket.done_event. intros H.
  do 2 apply append_inj_l in H. discriminate H.
Qed.

Lemma append_empty_r (s : string) : s +:+ "" = s.
Proof.
  induction s as [|ch s IH]; [reflexivity|].
  change (String ch s +:+ "") with (String ch (s +:+ "")). rewrite IH. reflexivity.
Qed.

Lemma append_assoc (a b c : string) : (a +:+ b) +:+ c = a +:+ (b +:+ c).
Proof.
  induction a as [|ch a IH]; [reflexivity|].
  change (String ch ((a +:+ b) +:+ c) = String ch (a +:+ (b +:+ c))).
  rewrite IH. reflexivity.
Qed.

Lemma concat_cons (x : string) (xs : list string) :
  String.concat "" (x :: xs) = x +:+ String.concat "" xs.
Proof.
  destruct xs as [|y ys]; [|reflexivity].
  symmetry. apply append_empty_r.
Qed.

(** Past the creation step nothing but [conversation], the store and the
    router has changed. *)
Lemma create_if_new_proceeds d w w0 :
  create_if_new d w = (w0, true) ->
  messages (page w0) = messages (page w)
  /\ loading (page w0) = loading (page w)
  /\ error (page w0) = error (page w)
  /\ socket w0 = socket w.
Proof.
  unfold ChatPage.create_if_new.
  destruct (isNewChat conversationId).
  - destruct (conversation (page w)) as [c|]; [|discriminate].
    destruct (createConversation _) as [response|e]; [|discriminate].
    destruct (status response); [|discriminate].
    intros H. injection H as <-. simpl. auto.
  - intros H. injection H as <-. auto.
Qed.

Lemma handleSendMessage_streams rand t d w w0 c :
  is_blank (message d) = false ->
  stream d = true ->
  create_if_new d w = (w0, true) ->
  conversation (page w0) = Some c ->
  handleSendMessage rand t d w
  = {| page := {| conversation := Some c;
                  messages := messages (page w)
                              ++ [ {| Message.id := "temp-" +:+ now t;
                                      Message.role := user;
                                      Message.content := message d;
                                      Message.created_at := iso t |} ];
                  loading := loading (page w);
                  error := error (page w);
                  streaming := true;
                  streamedMessage := "";
                  activeSocketId := Some (ApiClient.new_stream_id (now t) rand) |};
       socket := {| Socket.listeners :=
                      Socket.listeners (socket w)
                      ++ stream_listeners (ApiClient.new_stream_id (now t) rand);
                    Socket.emitted :=
                      Socket.emitted (socket w)
                      ++ [Socket.chat_stream (Conversation.id c) (message d)
                            (parameters d)
                            (ApiClient.new_stream_id (now t) rand)] |};
       store := store w0;
       visited := visited w0 |}.
Proof.
  intros not_blank streamed proceeds loaded.
  unfold ChatPage.handleSendMessage. rewrite not_blank, proceeds.
  destruct (create_if_new_proceeds _ _ _ proceeds) as (Hm & Hl & He & Hs).
  unfold request_reply; simpl. rewrite loaded, streamed.
  unfold ApiClient.streamChatResponse, with_page, with_socket, Socket.emit, Socket.on,
    stream_listeners; simpl.
  unfold set_activeSocketId, set_streamedMessage, set_streaming, set_messages; simpl.
  rewrite loaded, Hm, Hl, He, Hs, <- !app_assoc. reflexivity.
Qed.

Lemma token_listeners streamId :
  List.filter (fun e => String.eqb (fst e) (Socket.token_event streamId))
              (stream_listeners streamId)
  = [ (Socket.token_event streamId,
       Socket.tokenListener (Some Socket.appendToStreamedMessage)) ].
Proof.
  unfold stream_listeners. cbn [List.filter fst].
  rewrite String.eqb_refl, done_is_not_token, error_is_not_token. reflexivity.
Qed.

Lemma done_listeners streamId :
  List.filter (fun e => String.eqb (fst e) (Socket.done_event streamId))
              (stream_listeners streamId)
  = [ (Socket.done_event streamId,
       Socket.doneListener streamId (Some Socket.finishAssistantMessage)) ].
Proof.
  unfold stream_listeners. cbn [List.filter fst].
  rewrite (String.eqb_sym (Socket.token_event streamId)), done_is_not_token.
  rewrite String.eqb_refl, error_is_not_done. reflexivity.
Qed.

Lemma deliver_token streamId tk token w :
  listening streamId w ->
  deliver tk (stream_token streamId token) w = onToken token w.
Proof.
  intros (old & Hl & Htok & _).
  unfold ChatPage.deliver, Socket.listeners_of, event_name.
  rewrite Hl, List.filter_app, Htok, token_listeners. reflexivity.
Qed.

Lemma deliver_done streamId t w :
  listening streamId w ->
  deliver t (stream_done streamId) w
  = onComplete t (remove_stream_listeners streamId w).
Proof.
  intros (old & Hl & _ & Hdone).
  unfold ChatPage.deliver, Socket.listeners_of, event_name.
  rewrite Hl, List.filter_app, Hdone, done_listeners. reflexivity.
Qed.

Lemma onToken_listening streamId token w :
  listening streamId w -> listening streamId (onToken token w).
Proof. intros H. exact H. Qed.

Lemma deliver_tokens streamId (tokens : list (Tick * string)) w :
  listening streamId w ->
  deliver_all (map (fun e => (fst e, stream_token streamId (snd e))) tokens) w
  = with_page
      (fun p => set_streamedMessage
                  (streamedMessage p +:+ String.concat "" (map snd tokens)) p) w.
Proof.
  revert w. induction tokens as [|[tk token] tokens IH]; intros w Hw.
  - destruct w as [[] ? ? ?]. unfold with_page, set_streamedMessage; simpl.
    rewrite append_empty_r. reflexivity.
  - unfold ChatPage.deliver_all in *. cbn [map fold_left fst snd].
    rewrite deliver_token by exact Hw.
    rewrite IH by (apply onToken_listening; exact Hw).
    rewrite concat_cons.
    destruct w as [[] ? ? ?]. unfold onToken, with_page, set_streamedMessage.
    cbn [page socket store visited streamedMessage].
    rewrite append_assoc. reflexivity.
Qed.

(** C1: once [handleSendMessage] has started a stream (a non-blank message
    sent with [stream] set, past the creation of a new conversation, under
    a stream id no listener is registered for yet), delivering the token
    events and then the done event of that stream leaves the page, first,
    streaming with [streamedMessage] equal to the concatenation of the
    tokens in the order delivered and, after the done event, no longer
    streaming, with the user's message and one assistant message whose
    content is that concatenation appended to the transcript. *)
Theorem streamed_tokens_concatenate rand t d w w0 c
    (tokens : list (Tick * string)) (t_done : Tick) :
  is_blank (message d) = false ->
  stream d = true ->
  create_if_new d w = (w0, true) ->
  conversation (page w0) = Some c ->
  Socket.listeners_of (Socket.token_event (ApiClient.new_stream_id (now t) rand))
                      (socket w) = [] ->
  Socket.listeners_of (Socket.done_event (ApiClient.new_stream_id (now t) rand))
                      (socket w) = [] ->
  let streamId := ApiClient.new_stream_id (now t) rand in
  let w1 := handleSendMessage rand t d w in
  let w2 := deliver_all
              (map (fun e => (fst e, stream_token streamId (snd e))) tokens) w1 in
  let w3 := deliver t_done (stream_done streamId) w2 in
  (streaming (page w2) = true
   /\ streamedMessage (page w2) = String.concat "" (map snd tokens)
   /\ activeSocketId (page w2) = Some streamId)
  /\ messages (page w3)
     = (messages (page w)
        ++ [ {| Message.id := "temp-" +:+ now t; Message.role := user;
                Message.content := message d; Message.created_at := iso t |};
             {| Message.id := "stream-" +:+ now t_done; Message.role := assistant;
                Message.content := String.concat "" (map snd tokens);
                Message.created_at := iso t_done |} ])%list
  /\ streaming (page w3) = false
  /\ streamedMessage (page w3) = ""
  /\ activeSocketId (page w3) = None.
Proof.
  intros not_blank streamed proceeds loaded fresh_token fresh_done.
  cbv zeta.
  rewrite (handleSendMessage_streams rand t d w w0 c) by assumption.
  set (streamId := ApiClient.new_stream_id (now t) rand) in *.
  assert (Hmap : forall (name : string) (s : Socket.State),
             Socket.listeners_of name s = [] ->
             List.filter (fun e => String.eqb (fst e) name) (Socket.listeners s) = []).
  { intros name s H. unfold Socket.listeners_of in H.
    destruct (List.filter _ (Socket.listeners s)); [reflexivity|discriminate]. }
  match goal with
  | |- context [deliver_all _ ?W] =>
      assert (Hlisten : listening streamId W)
  end.
  { exists (Socket.listeners (socket w)). simpl. auto. }
  rewrite deliver_tokens by exact Hlisten.
  rewrite deliver_done by exact Hlisten.
  simpl. repeat split; rewrite <- ?app_assoc; reflexivity.
Qed.

(** Leaving the page while a stream is active asks the server to cancel it,
    and touches nothing on the page itself. *)
Lemma onDestroy_requests_cancel w socketId :
  activeSocketId (page w) = Some socketId ->
  socketId <> "" ->
  page (onDestroy conversationId w) = page w
  /\ Socket.emitted (socket (onDestroy conversationId w))
     = (Socket.emitted (socket w)
        ++ [Socket.chat_cancel conversationId socketId])%list.
Proof.
  intros Hactive Hne. unfold onDestroy. cbn [with_socket page].
  rewrite Hactive. apply String.eqb_neq in Hne. rewrite Hne.
  split; reflexivity.
Qed.

End ChatPageFacts.

Section ChatPageExamples.
Import Js Types ChatPage.

(** The example of C1: tokens ["The"], [" sky"], [" is"], [" blue"], then
    end of stream. *)
Lemma sky_is_blue :
  let streamId := ApiClient.new_stream_id "1700000000000" "k3x9q2a" in
  let w1 := ChatPage.handleSendMessage "c1" Examples.no_create Examples.no_send
              "k3x9q2a" Examples.t0 Examples.ask Examples.mounted in
  let w2 := ChatPage.deliver_all "c1"
              (map (fun e => (fst e, stream_token streamId (snd e)))
                   Examples.sky_tokens) w1 in
  let w3 := ChatPage.deliver "c1" Examples.t2 (stream_done streamId) w2 in
  map Message.content (messages (page w3))
    = ["Why is the sky blue?"; "The sky is blue"]
  /\ streaming (page w3) = false.
Proof.
  destruct (streamed_tokens_concatenate "c1" Examples.no_create Examples.no_send
              "k3x9q2a" Examples.t0 Examples.ask Examples.mounted Examples.mounted
              (Examples.chat "c1" "sky") Examples.sky_tokens Examples.t2
              eq_refl eq_refl eq_refl eq_refl eq_refl eq_refl)
    as (_ & Hmessages & Hstreaming & _).
  split; [exact (f_equal (map Message.content) Hmessages) | exact Hstreaming].
Defined.

End ChatPageExamples.

(** ** Sessions: cancellation is final, a busy conversation is not restarted *)

Section SessionsFacts.
Import Sessions.

Lemma step_terminal s e : terminal (state s) = true -> step s e = s.
Proof. unfold step. destruct (state s), e; simpl; congruence. Qed.

Lemma run_terminal s events : terminal (state s) = true -> run s events = s.
Proof.
  intros H. unfold run. induction events as [|e events IH]; simpl; [reflexivity|].
  rewrite step_terminal by exact H. exact IH.
Qed.

Lemma step_cancel s :
  state s <> Completed ->
  (state (step s CancelRequest) = Cancelled \/ state (step s CancelRequest) = Failed)
  /\ terminal (state (step s CancelRequest)) = true.
Proof. unfold step. destruct (state s) eqn:E; simpl; rewrite ?E; intuition. Qed.

Lemma dispatch_lookup sid e m s :
  table m !! sid = Some s -> table (dispatch sid e m) !! sid = Some (step s e).
Proof. intros H. unfold dispatch. rewrite H. simpl. apply lookup_insert_eq. Qed.

Lemma dispatch_all_lookup sid events m s :
  table m !! sid = Some s ->
  table (dispatch_all sid events m) !! sid = Some (run s events).
Proof.
  unfold dispatch_all, run. revert m s.
  induction events as [|e events IH]; intros m s H; simpl; [exact H|].
  apply IH, dispatch_lookup, H.
Qed.

Lemma dispatch_terminal sid e m s :
  table m !! sid = Some s -> terminal (state s) = true -> dispatch sid e m = m.
Proof.
  intros H Ht. unfold dispatch. rewrite H, step_terminal by exact Ht.
  destruct m as [tbl n]; simpl in *. f_equal. apply insert_id, H.
Qed.

(** C4: cancelling a session that is not [Completed] leaves it [Cancelled]
    or [Failed]; whatever reaches the session afterwards, its state stays
    what the cancellation left, so it is never [Completed]; a second
    cancellation changes nothing; and cancelling a session that is already
    in a terminal state changes nothing. *)
Theorem cancel_is_final sid m s :
  table m !! sid = Some s ->
  (state s <> Completed ->
   exists s',
     table (cancel sid m) !! sid = Some s'
     /\ (state s' = Cancelled \/ state s' = Failed)
     /\ (forall events,
          exists s'', table (dispatch_all sid events (cancel sid m)) !! sid = Some s''
                      /\ state s'' = state s' /\ state s'' <> Completed)
     /\ cancel sid (cancel sid m) = cancel sid m)
  /\ (terminal (state s) = true -> cancel sid m = m).
Proof.
  intros Hs. split.
  - intros Hnot. destruct (step_cancel s Hnot) as [Hstate Hterm].
    pose proof (dispatch_lookup sid CancelRequest m s Hs) as Hc.
    exists (step s CancelRequest). split; [exact Hc|]. split; [exact Hstate|]. split.
    + intros events. exists (run (step s CancelRequest) events).
      split; [apply dispatch_all_lookup; exact Hc|].
      rewrite run_terminal by exact Hterm.
      split; [reflexivity|]. destruct Hstate as [-> | ->]; discriminate.
    + apply (dispatch_terminal sid CancelRequest _ _ Hc Hterm).
  - intros Hterm. apply (dispatch_terminal sid CancelRequest _ _ Hs Hterm).
Qed.

Lemma cancel_is_final_example :
  Sessions.state <$> (table (cancel 7 (cancel 7 Examples.one_session)) !! 7%nat)
    = Some Cancelled
  /\ cancel 7 (cancel 7 Examples.one_session) = cancel 7 Examples.one_session.
Proof.
  destruct (cancel_is_final 7 Examples.one_session Examples.streaming_session eq_refl)
    as [H _].
  destruct (H ltac:(discriminate)) as (s' & Hs' & _ & _ & Htwice).
  split; [rewrite Htwice; reflexivity | exact Htwice].
Defined.

Lemma busy_spec conv m :
  busy conv m = true
  <-> exists sid s, table m !! sid = Some s
                    /\ conversation s = conv /\ active s = true.
Proof.
  unfold busy. rewrite existsb_exists. split.
  - intros [[sid s] [Hin Hb]]. apply andb_true_iff in Hb as [Hc Ha].
    exists sid, s. simpl in *.
    apply list_elem_of_In, elem_of_map_to_list in Hin.
    apply String.eqb_eq in Hc. auto.
  - intros (sid & s & Hs & Hc & Ha). exists (sid, s). split.
    + apply list_elem_of_In, elem_of_map_to_list, Hs.
    + simpl. rewrite Ha, andb_true_r. apply String.eqb_eq, Hc.
Qed.

(** C7: while a conversation has a session that is [Pending] or
    [Streaming], starting another generation for it answers
    [SessionConflict] and leaves the manager, and so that session's state
    and accumulated output, as they were.  On the page, the input that
    sends messages is disabled for as long as [streaming] is set. *)
Theorem second_generation_rejected conv m sid s :
  table m !! sid = Some s ->
  conversation s = conv ->
  state s = Pending \/ state s = Streaming ->
  startGeneration conv m = (inr SessionConflict, m)
  /\ table (snd (startGeneration conv m)) !! sid = Some s
  /\ (forall conversationId selectedModel w,
       ChatPage.streaming (ChatPage.page w) = true ->
       ChatPage.disabled conversationId selectedModel w = true).
Proof.
  intros Hs Hc Hact.
  assert (Hbusy : busy conv m = true).
  { apply busy_spec. exists sid, s. repeat split; try assumption.
    unfold active. destruct Hact as [-> | ->]; reflexivity. }
  unfold startGeneration. rewrite Hbusy. simpl.
  repeat split; [exact Hs|].
  intros conversationId selectedModel w Hw. unfold ChatPage.disabled.
  rewrite Hw. reflexivity.
Qed.

Lemma second_generation_rejected_example :
  startGeneration "c1" Examples.one_session = (inr SessionConflict, Examples.one_session).
Proof.
  apply (second_generation_rejected "c1" Examples.one_session 7
           Examples.streaming_session eq_refl eq_refl (or_intror eq_refl)).
Defined.

End SessionsFacts.

(** ** Registry: selection is by exact id, or fails *)

Section RegistryFacts.
Import Registry.

Lemma declares_spec modelId a : declares modelId a = true <-> modelId ∈ catalog a.
Proof.
  unfold declares. rewrite existsb_exists, list_elem_of_In. split.
  - intros [x [Hin Heq]]. apply String.eqb_eq in Heq. subst. exact Hin.
  - intros Hin. exists modelId. split; [exact Hin | apply String.eqb_refl].
Qed.

(** C5: [selectAdapter] returns an adapter only if that adapter is in the
    registry, declares exactly the requested id and is healthy; it fails
    with [ModelNotFound] when no adapter declares the id, and with
    [ModelUnavailable] when the id is declared but every adapter declaring
    it is unhealthy; in particular an id absent from every catalog, such
    as ["gpt-ghost"], yields [ModelNotFound]. *)
Theorem selectAdapter_spec registry modelId :
  (forall a, selectAdapter registry modelId = inl a ->
             a ∈ registry /\ modelId ∈ catalog a /\ healthy a = true)
  /\ ((forall a, a ∈ registry -> modelId ∉ catalog a) ->
      selectAdapter registry modelId = inr ModelNotFound)
  /\ ((exists a, a ∈ registry /\ modelId ∈ catalog a) ->
      (forall a, a ∈ registry -> modelId ∈ catalog a -> healthy a = false) ->
      selectAdapter registry modelId = inr ModelUnavailable)
  /\ ((forall a, a ∈ registry -> "gpt-ghost" ∉ catalog a) ->
      selectAdapter registry "gpt-ghost" = inr ModelNotFound).
Proof.
  assert (Hnone : forall id, (forall a, a ∈ registry -> id ∉ catalog a) ->
                             selectAdapter registry id = inr ModelNotFound).
  { intros id Habsent. unfold selectAdapter.
    destruct (List.find _ registry) as [a|] eqn:E.
    - apply find_some in E as [Hin Hb]. apply andb_true_iff in Hb as [Hd _].
      exfalso. apply (Habsent a); [apply list_elem_of_In, Hin | apply declares_spec, Hd].
    - destruct (existsb (declares id) registry) eqn:Ex; [|reflexivity].
      apply existsb_exists in Ex as [a [Hin Hd]].
      exfalso. apply (Habsent a); [apply list_elem_of_In, Hin | apply declares_spec, Hd]. }
  split; [|split; [apply Hnone|split; [|apply Hnone]]].
  - intros a. unfold selectAdapter.
    destruct (List.find _ registry) as [a'|] eqn:E.
    + intros H. injection H as <-. apply find_some in E as [Hin Hb].
      apply andb_true_iff in Hb as [Hd Hh].
      split; [apply list_elem_of_In, Hin|]. split; [apply declares_spec, Hd | exact Hh].
    + destruct (existsb _ registry); discriminate.
  - intros [a [Hin Hd]] Hunhealthy. unfold selectAdapter.
    destruct (List.find _ registry) as [a'|] eqn:E.
    + apply find_some in E as [Hin' Hb]. apply andb_true_iff in Hb as [Hd' Hh].
      rewrite (Hunhealthy a') in Hh;
        [discriminate | apply list_elem_of_In, Hin' | apply declares_spec, Hd'].
    + assert (Hex : existsb (declares modelId) registry = true).
      { apply existsb_exists. exists a.
        split; [apply list_elem_of_In, Hin | apply declares_spec, Hd]. }
      rewrite Hex. reflexivity.
Qed.

Lemma selectAdapter_example :
  selectAdapter Examples.registry "gpt-ghost" = inr ModelNotFound
  /\ selectAdapter Examples.registry "gpt-4" = inr ModelUnavailable.
Proof.
  split.
  - apply (selectAdapter_spec Examples.registry "gpt-ghost").
    intros a Ha Hd. apply list_elem_of_In in Ha. simpl in Ha.
    destruct Ha as [<- | [<- | []]]; apply list_elem_of_In in Hd; simpl in Hd;
      intuition discriminate.
  - apply (selectAdapter_spec Examples.registry "gpt-4").
    + exists {| provider := "openai"; catalog := ["gpt-4"]; healthy := false |}.
      split; apply list_elem_of_In; simpl; auto.
    + intros a Ha Hd. apply list_elem_of_In in Ha. simpl in Ha.
      destruct Ha as [<- | [<- | []]]; [|reflexivity].
      apply list_elem_of_In in Hd; simpl in Hd. intuition discriminate.
Defined.

End RegistryFacts.

(** ** Retrieval: the answer is short, ranked and above the threshold *)

Section RetrieveFacts.
Import Retrieval.

Variable Vector : Type.
Variable embed : list Ascii.ascii -> Vector.
Variable cosine : Vector -> Vector -> Q.

Local Abbreviation Chunk := (RetrievalChunk Vector).
Local Abbreviation sim := (similarity Vector cosine).
Local Abbreviation descending q := (fun a b : Chunk => (sim q b <= sim q a)%Q).

Lemma insert_desc_perm q (c : Chunk) ranked :
  insert_desc Vector cosine q c ranked ≡ₚ c :: ranked.
Proof.
  induction ranked as [|r rest IH]; simpl; [reflexivity|].
  destruct (Qle_bool _ _); [|reflexivity].
  rewrite IH. apply Permutation_swap.
Qed.

Lemma rank_perm q (chunks : list Chunk) : rank Vector cosine q chunks ≡ₚ chunks.
Proof.
  induction chunks as [|c chunks IH]; simpl; [reflexivity|].
  rewrite insert_desc_perm, IH. reflexivity.
Qed.

Lemma insert_desc_sorted q (c : Chunk) ranked :
  StronglySorted (descending q) ranked ->
  StronglySorted (descending q) (insert_desc Vector cosine q c ranked).
Proof.
  induction ranked as [|r rest IH]; intros Hs; simpl.
  - repeat constructor.
  - apply StronglySorted_cons in Hs as [Hr Hrest].
    destruct (Qle_bool (sim q c) (sim q r)) eqn:E.
    + apply Qle_bool_iff in E.
      apply StronglySorted_cons. split; [|apply IH, Hrest].
      rewrite insert_desc_perm. constructor; assumption.
    + assert (Hlt : (sim q r < sim q c)%Q).
      { apply Qnot_le_lt. intros H. apply Qle_bool_iff in H. congruence. }
      apply StronglySorted_cons. split.
      * constructor; [apply Qlt_le_weak, Hlt|].
        eapply Forall_impl; [exact Hr|]. intros x Hx. simpl in *.
        eapply Qle_trans; [exact Hx | apply Qlt_le_weak, Hlt].
      * apply StronglySorted_cons. split; assumption.
Qed.

Lemma rank_sorted q (chunks : list Chunk) :
  StronglySorted (descending q) (rank Vector cosine q chunks).
Proof.
  induction chunks as [|c chunks IH]; simpl; [constructor|].
  apply insert_desc_sorted, IH.
Qed.

Lemma take_sorted {A} (R : relation A) k (l : list A) :
  StronglySorted R l -> StronglySorted R (take k l).
Proof.
  intros H. rewrite <- (take_drop k l) in H.
  apply StronglySorted_app_1_l in H. exact H.
Qed.

Lemma filter_none {A} (f : A -> bool) (l : list A) :
  (forall x, x ∈ l -> f x = false) -> List.filter f l = [].
Proof.
  induction l as [|x l IH]; intros H; simpl; [reflexivity|].
  rewrite (H x) by left. apply IH. intros y Hy. apply H. right. exact Hy.
Qed.

(** C3: [retrieve] returns at most [top_k] chunks, ordered by
    non-increasing cosine similarity to the query, all of them stored
    chunks whose similarity reaches [relevance_threshold]; when no stored
    chunk reaches it, the answer is the empty sequence. *)
Theorem retrieve_spec stored query top_k relevance_threshold :
  let result := retrieve Vector embed cosine stored query top_k relevance_threshold in
  (length result <= top_k)%nat
  /\ StronglySorted (descending (embed query)) result
  /\ Forall (fun c => (relevance_threshold <= sim (embed query) c)%Q) result
  /\ (forall c, c ∈ result -> c ∈ stored)
  /\ ((forall c, c ∈ stored -> (sim (embed query) c < relevance_threshold)%Q) ->
      result = []).
Proof.
  cbv zeta. unfold retrieve.
  set (q := embed query).
  set (kept := List.filter (fun c => Qle_bool relevance_threshold (sim q c)) stored).
  assert (Hkept : forall c, c ∈ rank Vector cosine q kept ->
                            c ∈ stored /\ (relevance_threshold <= sim q c)%Q).
  { intros c Hc. rewrite rank_perm in Hc. unfold kept in Hc.
    apply list_elem_of_In, filter_In in Hc as [Hin Hle].
    split; [apply list_elem_of_In, Hin | apply Qle_bool_iff, Hle]. }
  split; [rewrite length_take; apply Nat.le_min_l|].
  split; [apply take_sorted, rank_sorted|].
  split; [|split].
  - apply Forall_forall. intros c Hc. apply Hkept.
    eapply subseteq_take, Hc.
  - intros c Hc. apply Hkept. eapply subseteq_take, Hc.
  - intros Hbelow. assert (Hnil : kept = []).
    { apply filter_none. intros c Hc.
      destruct (Qle_bool relevance_threshold (sim q c)) eqn:E; [|reflexivity].
      apply Qle_bool_iff in E. exfalso.
      exact (Qlt_not_le _ _ (Hbelow c Hc) E). }
    rewrite Hnil. simpl. apply take_nil.
Qed.

End RetrieveFacts.

Section RetrieveExamples.
Import Retrieval.

(** One-dimensional "vectors": a chunk's embedding is its score. *)
Example retrieve_example :
  map (offset Q)
      (retrieve Q (fun _ => 1%Q) (fun _ v => v)
         [ {| text := []; offset := 0; embedding := (9 # 10)%Q |};
           {| text := []; offset := 1; embedding := (2 # 10)%Q |};
           {| text := []; offset := 2; embedding := (5 # 10)%Q |};
           {| text := []; offset := 3; embedding := (7 # 10)%Q |} ]
         [] 2 (4 # 10)%Q)
  = [0; 3]%nat.
Proof. reflexivity. Qed.

Lemma retrieve_nothing :
  retrieve Q (fun _ => 1%Q) (fun _ v => v)
    [ {| text := []; offset := 0; embedding := (9 # 10)%Q |};
      {| text := []; offset := 1; embedding := (2 # 10)%Q |} ]
    [] 2 (95 # 100)%Q
  = [].
Proof.
  apply (retrieve_spec Q (fun _ => 1%Q) (fun _ v => v)).
  intros c Hc. apply list_elem_of_In in Hc. simpl in Hc.
  destruct Hc as [<- | [<- | []]]; reflexivity.
Defined.

End RetrieveExamples.

(** ** Chunking: bounded, overlapping, lossless *)

Section IngestFacts.
Import Retrieval.

Variable Vector : Type.
Variable embed : list Ascii.ascii -> Vector.
Variable ends : Boundary -> list Ascii.ascii -> nat -> bool.

Local Abbreviation Chunk := (RetrievalChunk Vector).
Local Abbreviation split_from := (Retrieval.split_from Vector embed ends).
Local Abbreviation split_text := (Retrieval.split_text Vector embed ends).
Local Abbreviation span := (Retrieval.span Vector embed).
Local Abbreviation cut := (Retrieval.cut ends).
Local Abbreviation bounded size :=
  (fun c : Chunk => (length (text Vector c) <= size)%nat).

Lemma last_boundary_range b document lo n p :
  last_boundary ends b document lo n = Some p -> (lo < p <= lo + n)%nat.
Proof.
  induction n as [|n IH]; simpl; [discriminate|].
  destruct (ends b document (lo + S n)).
  - intros [= <-]. lia.
  - intros H. apply IH in H. lia.
Qed.


(** A cut leaves the chunk at most [size] characters, and more than the
    overlap. *)
Lemma cut_range size overlap document start :
  (overlap < size)%nat ->
  (start + overlap < cut size overlap document start <= start + size)%nat.
Proof.
  intros Hlt. unfold Retrieval.cut.
  destruct (last_boundary ends Paragraph document _ _) as [p|] eqn:Ep.
  { apply last_boundary_range in Ep. lia. }
  destruct (last_boundary ends Sentence document _ _) as [p|] eqn:Es.
  { apply last_boundary_range in Es. lia. }
  lia.
Qed.




(** With a smaller overlap it ends, within as many steps as there are
    characters left, and one. *)
Lemma split_from_answers fuel size overlap document start :
  (overlap < size)%nat -> (length document - start < fuel)%nat ->
  exists chunks, split_from fuel size overlap document start = Some chunks.
Proof.
  intros Hlt. revert start. induction fuel as [|fuel IH]; intros start Hfuel.
  - exfalso. lia.
  - cbn [Retrieval.split_from].
    destruct (Nat.leb_spec (length document) start); [eauto|].
    destruct (Nat.leb_spec (length document) (start + size)); [eauto|].
    pose proof (cut_range size overlap document start Hlt) as Hcut.
    destruct (IH (cut size overlap document start - overlap)%nat) as [chunks ->];
      [lia|eauto].
Qed.








(** With [chunk_overlap] below [chunk_size], ingestion always answers. *)
Lemma ingest_answers cfg held document :
  (chunk_overlap cfg < chunk_size cfg)%nat ->
  exists answer, ingest Vector embed ends cfg held document = Some answer.
Proof.
  intros Hlt. unfold ingest.
  destruct (file_max_size cfg <? N.of_nat (length document))%N; [eauto|].
  destruct (file_max_count cfg <=? held)%nat; [eauto|].
  destruct (split_from_answers (S (length document)) (chunk_size cfg)
              (chunk_overlap cfg) document 0 Hlt) as [chunks H]; [lia|].
  unfold Retrieval.split_text. rewrite H. eauto.
Qed.

End IngestFacts.

Section IngestExamples.
Import Retrieval.



(** A text without paragraphs or sentences is cut by characters. *)
Example ingest_defaults_example :
  match ingest unit (fun _ => tt) Examples.plain_text Examples.defaults 0
               (repeat (Ascii.ascii_of_nat 97) 2500) with
  | Some (inr chunks) =>
      map (fun c => (offset unit c, length (text unit c))) chunks
      = [(0, 1000); (900, 1000); (1800, 700)]%nat
  | _ => False
  end.
Proof. vm_compute. reflexivity. Qed.

End IngestExamples.

(** ** Presenting models: the order of [loadModels] *)

Section SortFacts.
Import Js Types ModelsStore.

Section Insertion.

Context {A : Type} (comparefn : A -> A -> Z) (P : A -> Prop).

Local Abbreviation ordered := (fun a b : A => comparefn a b <= 0).

Hypothesis total : forall a b, P a -> P b -> ~ comparefn a b < 0 -> comparefn b a <= 0.
Hypothesis trans : forall a b c, P a -> P b -> P c ->
  comparefn a b <= 0 -> comparefn b c <= 0 -> comparefn a c <= 0.

Lemma insert_pivot_perm pivot sorted :
  Examples.insert_pivot comparefn pivot sorted ≡ₚ pivot :: sorted.
Proof.
  induction sorted as [|e rest IH]; simpl; [reflexivity|].
  destruct (comparefn pivot e <? 0); [reflexivity|].
  rewrite IH. apply Permutation_swap.
Qed.

Lemma insert_pivot_sorted pivot sorted :
  P pivot -> Forall P sorted ->
  StronglySorted ordered sorted ->
  StronglySorted ordered (Examples.insert_pivot comparefn pivot sorted).
Proof.
  intros Hp. induction sorted as [|e rest IH]; intros HP Hs; simpl.
  - repeat constructor.
  - apply Forall_cons in HP as [He HP].
    apply StronglySorted_cons in Hs as [Hrest Hs].
    destruct (comparefn pivot e <? 0) eqn:E.
    + apply Z.ltb_lt in E. apply StronglySorted_cons. split.
      * constructor; [lia|].
        apply Forall_forall. intros x Hx.
        apply (trans pivot e x Hp He); [eapply Forall_forall in HP; eauto | lia |].
        eapply Forall_forall in Hrest; eauto.
      * apply StronglySorted_cons. split; assumption.
    + apply Z.ltb_ge in E. apply StronglySorted_cons. split; [|apply IH; assumption].
      rewrite insert_pivot_perm. constructor; [|exact Hrest].
      apply (total pivot e Hp He). lia.
Qed.

Lemma array_sort_from sorted arr :
  Forall P sorted -> Forall P arr ->
  StronglySorted ordered sorted ->
  let result := fold_left (fun s p => Examples.insert_pivot comparefn p s) arr sorted in
  StronglySorted ordered result /\ result ≡ₚ sorted ++ arr.
Proof.
  revert sorted. induction arr as [|p arr IH]; intros sorted Hs Ha Hsorted; simpl.
  - rewrite app_nil_r. split; [exact Hsorted | reflexivity].
  - apply Forall_cons in Ha as [Hp Ha].
    destruct (IH (Examples.insert_pivot comparefn p sorted)) as [H1 H2].
    + rewrite insert_pivot_perm. constructor; assumption.
    + exact Ha.
    + apply insert_pivot_sorted; assumption.
    + split; [exact H1|]. rewrite H2, insert_pivot_perm.
      rewrite <- Permutation_middle. reflexivity.
Qed.

Lemma array_sort_sorted arr :
  Forall P arr ->
  StronglySorted ordered (Examples.insertion_sort A comparefn arr)
  /\ Examples.insertion_sort A comparefn arr ≡ₚ arr.
Proof.
  intros Ha. unfold Examples.insertion_sort.
  apply (array_sort_from [] arr); [constructor | exact Ha | constructor].
Qed.

End Insertion.

Lemma array_sort_perm {A} (comparefn : A -> A -> Z) (arr : list A) :
  Examples.insertion_sort A comparefn arr ≡ₚ arr.
Proof.
  unfold Examples.insertion_sort.
  assert (H : forall sorted,
             fold_left (fun s p => Examples.insert_pivot comparefn p s) arr sorted
             ≡ₚ sorted ++ arr).
  { induction arr as [|p arr IH]; intros sorted; simpl.
    - rewrite app_nil_r. reflexivity.
    - rewrite IH, insert_pivot_perm, <- Permutation_middle. reflexivity. }
  apply (H []).
Qed.

(** The insertion sort is a sort as ECMAScript asks for one. *)
Lemma insertion_sort_conforming : conforming Examples.insertion_sort.
Proof.
  split.
  - intros A comparefn arr. apply array_sort_perm.
  - intros A comparefn arr [Hanti Htrans].
    apply (array_sort_sorted comparefn (fun a => a ∈ arr)).
    + intros a b Ha Hb Hnlt.
      destruct (Z.lt_trichotomy (comparefn b a) 0) as [?|[?|Hgt]]; [lia|lia|].
      apply (Hanti a b Ha Hb) in Hgt. contradiction.
    + exact Htrans.
    + apply Forall_forall. auto.
Qed.

Variable localeCompare : string -> string -> Z.
Hypothesis collation : consistent localeCompare.

Variable array_sort : ArraySort.
Hypothesis engine : conforming array_sort.

Local Abbreviation cmp := (compareModels localeCompare).

Lemma compareModels_antisym a b : cmp a b < 0 -> 0 < cmp b a.
Proof.
  destruct collation as [Hanti _]. unfold compareModels.
  rewrite (String.eqb_sym (Model.provider b) (Model.provider a)).
  destruct (Model.available a), (Model.available b); simpl; try lia;
    (destruct (String.eqb_spec (Model.provider a) (Model.provider b)) as [Hp|Hp]; simpl;
     [apply Hanti|]);
    (destruct (String.eqb_spec (Model.provider a) "ollama") as [Ha|Ha];
     destruct (String.eqb_spec (Model.provider b) "ollama") as [Hb|Hb];
     try lia; congruence).
Qed.

Lemma compareModels_total ms a b :
  one_other_provider ms -> a ∈ ms -> b ∈ ms -> ~ cmp a b < 0 -> cmp b a <= 0.
Proof.
  destruct collation as [Hanti _]. intros Hone Ha Hb. unfold compareModels.
  rewrite (String.eqb_sym (Model.provider b) (Model.provider a)).
  destruct (Model.available a), (Model.available b); simpl; try lia;
    (destruct (String.eqb_spec (Model.provider a) (Model.provider b)) as [Hp|Hp]; simpl;
     [intros H;
      destruct (Z.lt_trichotomy
                  (localeCompare (Model.display_name b) (Model.display_name a)) 0)
        as [?|[?|Hgt]]; [lia | lia | apply Hanti in Hgt; lia]|]);
    (destruct (Hone a b Ha Hb Hp) as [Ho|Ho];
     destruct (String.eqb_spec (Model.provider a) "ollama");
     destruct (String.eqb_spec (Model.provider b) "ollama");
     try lia; congruence).
Qed.

Lemma compareModels_before a b : cmp a b <= 0 -> presented_before localeCompare a b.
Proof.
  unfold compareModels, presented_before.
  destruct (Model.available a), (Model.available b); simpl; try lia;
    try (intros _; split; [auto | discriminate]);
    (destruct (String.eqb_spec (Model.provider a) (Model.provider b)) as [Hp|Hp]; simpl;
     [intros H; split; [auto | intros _; split; [congruence | auto]]|]);
    (destruct (String.eqb_spec (Model.provider a) "ollama"); [|lia];
     intros _; split; [auto | intros _; split; [auto | congruence]]).
Qed.

Lemma compareModels_trans a b c : cmp a b <= 0 -> cmp b c <= 0 -> cmp a c <= 0.
Proof.
  destruct collation as [_ Htrans]. unfold compareModels.
  destruct (Model.available a), (Model.available b), (Model.available c);
    simpl; try lia;
    (destruct (String.eqb_spec (Model.provider a) (Model.provider b)) as [Hab|Hab],
              (String.eqb_spec (Model.provider b) (Model.provider c)) as [Hbc|Hbc],
              (String.eqb_spec (Model.provider a) (Model.provider c)) as [Hac|Hac];
     simpl; try congruence; try apply Htrans;
     destruct (String.eqb_spec (Model.provider a) "ollama"),
              (String.eqb_spec (Model.provider b) "ollama");
     intros; try lia; congruence).
Qed.

(** With one provider besides [ollama], the comparator of [loadModels] is
    a consistent comparison function. *)
Lemma compareModels_consistent ms arr :
  one_other_provider ms -> (forall a, a ∈ arr -> a ∈ ms) ->
  consistent_comparator cmp arr.
Proof.
  intros Hone Hsub. split.
  - intros a b Ha Hb. split; [apply compareModels_antisym|].
    intros Hgt.
    destruct (Z.lt_trichotomy (cmp a b) 0) as [Hlt|Hge]; [exact Hlt|].
    assert (H : cmp b a <= 0); [|lia].
    apply (compareModels_total ms); auto. lia.
  - intros a b c _ _ _. apply compareModels_trans.
Qed.

Lemma strongly_sorted_impl {A} (R1 R2 : relation A) (l : list A) :
  (forall a b, R1 a b -> R2 a b) -> StronglySorted R1 l -> StronglySorted R2 l.
Proof.
  intros Himpl. induction 1 as [|x l Hs IH Hx]; constructor; [exact IH|].
  eapply Forall_impl; [exact Hx | auto].
Qed.

Lemma sortModels_sorted ms arr :
  one_other_provider ms -> (forall a, a ∈ arr -> a ∈ ms) ->
  StronglySorted (fun a b => cmp a b <= 0) (sortModels localeCompare array_sort arr)
  /\ sortModels localeCompare array_sort arr ≡ₚ arr.
Proof.
  intros Hone Hsub. unfold sortModels. destruct engine as [Hperm Hsorted].
  split; [|apply Hperm].
  apply Hsorted, (compareModels_consistent ms); assumption.
Qed.

(** Where the comparator is consistent, the order is the claimed one:
    when the list mixes [ollama] with at most one other provider,
    [loadModels] presents a permutation of the models it received, the
    available ones first, then the [ollama] ones, then by display name;
    and if no two distinct models compare equal, every permutation of
    the list is presented in the same order. *)
Lemma sortModels_with_one_other_provider ms :
  one_other_provider ms ->
  sortModels localeCompare array_sort ms ≡ₚ ms
  /\ StronglySorted (presented_before localeCompare)
                    (sortModels localeCompare array_sort ms)
  /\ (forall ms', ms' ≡ₚ ms -> no_ties localeCompare ms ->
                  sortModels localeCompare array_sort ms'
                  = sortModels localeCompare array_sort ms).
Proof.
  intros Hone.
  destruct (sortModels_sorted ms ms Hone (fun a H => H)) as [Hsorted Hperm].
  split; [exact Hperm|]. split.
  - eapply strongly_sorted_impl; [|exact Hsorted]. apply compareModels_before.
  - intros ms' Hms' Hties.
    destruct (sortModels_sorted ms ms' Hone) as [Hsorted' Hperm'].
    { intros a Ha. rewrite <- Hms'. exact Ha. }
    apply (StronglySorted_unique_strong (fun a b => cmp a b <= 0));
      [|assumption|assumption|rewrite Hperm', Hperm; exact Hms'].
    intros x1 x2 Hx1 Hx2 H12 H21.
    rewrite Hperm', Hms' in Hx1. rewrite Hperm in Hx2.
    apply Hties; [assumption..|].
    destruct (Z.lt_trichotomy (cmp x1 x2) 0) as [Hlt|[Heq|Hgt]]; [|exact Heq|lia].
    apply compareModels_antisym in Hlt. lia.
Qed.

End SortFacts.

Section SortExamples.
Import Js Types ModelsStore.

(** C6: the code misses the claim.  For two available models of two
    providers other than [ollama] the comparator of [loadModels] answers
    [1] whichever of them comes first ("ollama first" is all it knows of
    providers), so it is not a consistent comparison function, no
    arrangement of the two models is in its order, and the presented
    order is whatever the engine's sort makes of it; under the insertion
    sort each arrival order is presented as it came, so the same set of
    models is presented in two orders. *)
Theorem sortModels_two_other_providers localeCompare :
  compareModels localeCompare Examples.gpt Examples.claude = 1
  /\ compareModels localeCompare Examples.claude Examples.gpt = 1
  /\ ~ consistent_comparator (compareModels localeCompare)
         [Examples.gpt; Examples.claude]
  /\ (forall presented, presented ≡ₚ [Examples.gpt; Examples.claude] ->
        ~ StronglySorted (fun a b => compareModels localeCompare a b <= 0) presented)
  /\ sortModels localeCompare Examples.insertion_sort [Examples.gpt; Examples.claude]
     = [Examples.gpt; Examples.claude]
  /\ sortModels localeCompare Examples.insertion_sort [Examples.claude; Examples.gpt]
     = [Examples.claude; Examples.gpt].
Proof.
  split; [reflexivity|]. split; [reflexivity|]. split.
  { intros [Hanti _].
    assert (H : compareModels localeCompare Examples.gpt Examples.claude < 0).
    { apply Hanti; [left | right; left |]. change (0 < 1). lia. }
    change (1 < 0) in H. lia. }
  split; [|split; reflexivity].
  intros presented Hperm Hsorted.
  assert (Hlen : length presented = 2%nat).
  { rewrite Hperm. reflexivity. }
  destruct presented as [|x [|y [|z rest]]]; try discriminate.
  apply StronglySorted_cons in Hsorted as [Hx _].
  apply Forall_cons in Hx as [Hxy _].
  assert (Hx : x ∈ [Examples.gpt; Examples.claude]) by (rewrite <- Hperm; left).
  assert (Hy : y ∈ [Examples.gpt; Examples.claude]) by (rewrite <- Hperm; right; left).
  assert (Hnd : NoDup [x; y]).
  { rewrite Hperm. apply NoDup_cons. split; [|apply NoDup_singleton].
    intros H. apply list_elem_of_singleton in H. discriminate. }
  apply NoDup_cons in Hnd as [Hne _].
  apply list_elem_of_In in Hx; apply list_elem_of_In in Hy. simpl in Hx, Hy.
  destruct Hx as [<-|[<-|[]]]; destruct Hy as [<-|[<-|[]]];
    try (exfalso; apply Hne; left; fail);
    cbn in Hxy; lia.
Qed.

(** What [loadModels] leaves in the store is the sorted list. *)
Lemma loadModels_presents localeCompare array_sort browser received w :
  models (fst (fst (loadModels_ok localeCompare array_sort browser received w)))
  = sortModels localeCompare array_sort (default [] received).
Proof. destruct w as [state storage]. reflexivity. Qed.

Lemma codeUnitCompare_sign s t :
  (Examples.codeUnitCompare s t < 0 <-> String.compare s t = Lt)
  /\ (0 < Examples.codeUnitCompare s t <-> String.compare s t = Gt)
  /\ (Examples.codeUnitCompare s t <= 0 <-> String.le s t).
Proof.
  unfold Examples.codeUnitCompare, String.le, String.leb.
  destruct (String.compare s t); simpl; repeat split; intros; try lia;
    try discriminate; try exact I; try contradiction.
Qed.

Lemma codeUnitCompare_consistent : consistent Examples.codeUnitCompare.
Proof.
  split.
  - intros s t. rewrite (proj1 (codeUnitCompare_sign s t)).
    rewrite (proj1 (proj2 (codeUnitCompare_sign t s))).
    rewrite (String.compare_antisym t s).
    destruct (String.compare s t); simpl; split; congruence.
  - intros s t u. rewrite !(proj2 (proj2 (codeUnitCompare_sign _ _))).
    intros H1 H2. etransitivity; eassumption.
Qed.

(** With the insertion sort and code-unit collation: the [ollama] model
    first, then the two [openai] models by name, whatever the arrival
    order. *)
Lemma sortModels_example :
  sortModels Examples.codeUnitCompare Examples.insertion_sort
             [Examples.gpt; Examples.mistral; Examples.llama]
    = [Examples.llama; Examples.gpt; Examples.mistral]
  /\ sortModels Examples.codeUnitCompare Examples.insertion_sort
                [Examples.llama; Examples.mistral; Examples.gpt]
      = sortModels Examples.codeUnitCompare Examples.insertion_sort
                   [Examples.gpt; Examples.mistral; Examples.llama].
Proof.
  assert (Hone : one_other_provider [Examples.gpt; Examples.mistral; Examples.llama]).
  { intros a b Ha Hb Hne.
    apply list_elem_of_In in Ha; apply list_elem_of_In in Hb; simpl in Ha, Hb.
    destruct Ha as [<- | [<- | [<- | []]]]; destruct Hb as [<- | [<- | [<- | []]]];
      simpl in *; auto; congruence. }
  destruct (sortModels_with_one_other_provider
              Examples.codeUnitCompare codeUnitCompare_consistent
              Examples.insertion_sort insertion_sort_conforming
              [Examples.gpt; Examples.mistral; Examples.llama] Hone)
    as (_ & _ & Hsame).
  split; [reflexivity|]. apply Hsame.
  - symmetry.
    apply (Permutation_rev [Examples.gpt; Examples.mistral; Examples.llama]).
  - intros a b Ha Hb.
    apply list_elem_of_In in Ha; apply list_elem_of_In in Hb; simpl in Ha, Hb.
    destruct Ha as [<- | [<- | [<- | []]]]; destruct Hb as [<- | [<- | [<- | []]]];
      vm_compute; congruence.
Qed.

End SortExamples.

(** * Further properties of the stores *)

Section ConversationsMore.
Import Js Types ConversationsStore Conversations.

Lemma or_else_nonempty s fallback : fallback <> "" -> or_else s fallback <> "".
Proof.
  intros Hf. unfold or_else. destruct (String.eqb_spec s ""); assumption.
Qed.

Lemma error_or_nonempty {T} (response : ApiResponse T) fallback :
  fallback <> "" -> error_or response fallback <> "".
Proof.
  intros Hf. unfold error_or. destruct (Types.error response); [|exact Hf].
  apply or_else_nonempty, Hf.
Qed.

Lemma filter_all {A} (f : A -> bool) (l : list A) :
  (forall x, x ∈ l -> f x = true) -> List.filter f l = l.
Proof.
  induction l as [|x l IH]; intros H; simpl; [reflexivity|].
  rewrite (H x) by left. f_equal. apply IH. intros y Hy. apply H. right. exact Hy.
Qed.

(** X1: a successful [loadConversations] stores a permutation of the
    conversations it received, ordered newest first by [updated_at],
    provided every [updated_at] parses as a date (the comparator is then
    consistent, and every engine's sort puts them in its order); it ends
    not loading, without error, and leaves [currentConversation] alone. *)
Theorem loadConversations_newest_first getTime array_sort response refresh st :
  conforming array_sort ->
  status response = true ->
  (forall c, c ∈ default [] (Types.data response) ->
             is_Some (getTime (Conversation.updated_at c))) ->
  let st' := fst (loadConversations getTime array_sort (Normal response) refresh st) in
  snd (loadConversations getTime array_sort (Normal response) refresh st) = true
  /\ conversations st' ≡ₚ default [] (Types.data response)
  /\ StronglySorted
       (fun a b => forall ta tb,
            getTime (Conversation.updated_at a) = Some ta ->
            getTime (Conversation.updated_at b) = Some tb -> tb <= ta)
       (conversations st')
  /\ isLoading st' = false
  /\ error st' = None
  /\ currentConversation st' = currentConversation st.
Proof.
  intros [Hperm Hsorted] Hstatus Hdates. unfold loadConversations.
  rewrite Hstatus. simpl.
  split; [reflexivity|]. split; [apply Hperm|]. split; [|auto].
  eapply strongly_sorted_impl; [|apply Hsorted].
  - intros a b Hab ta tb Ha Hb. unfold newest_first in Hab.
    rewrite Ha, Hb in Hab. lia.
  - split.
    + intros a b Ha Hb. destruct (Hdates a Ha) as [ta Hta].
      destruct (Hdates b Hb) as [tb Htb]. unfold newest_first.
      rewrite Hta, Htb. lia.
    + intros a b c Ha Hb Hc. destruct (Hdates a Ha) as [ta Hta].
      destruct (Hdates b Hb) as [tb Htb]. destruct (Hdates c Hc) as [tc Htc].
      unfold newest_first. rewrite Hta, Htb, Htc. lia.
Qed.

Lemma loadConversations_example :
  map Conversation.id
      (conversations
         (fst (loadConversations Samples.epoch Examples.insertion_sort
                 (Samples.ok (Some Samples.three_dated)) false initialState)))
  = ["mar"; "feb"; "jan"].
Proof.
  destruct (loadConversations_newest_first Samples.epoch Examples.insertion_sort
              (mkApiResponse true (Some Samples.three_dated) None) false initialState
              insertion_sort_conforming eq_refl) as (_ & _ & _ & _).
  - intros c Hc. apply list_elem_of_In in Hc. simpl in Hc.
    destruct Hc as [<- | [<- | [<- | []]]]; eexists; reflexivity.
  - reflexivity.
Defined.

(** X2: whatever [apiClient.getConversation] answers, [loadConversation]
    leaves the list of conversations as it was and ends not loading.
    Either it resolves to [true], with the answer's data as
    [currentConversation] and no error; or it resolves to [false], and
    then [currentConversation] is [null] (even if one was open before) and
    a non-empty error message is set. *)
Theorem loadConversation_outcomes api conversationId st :
  let st' := fst (loadConversation api conversationId st) in
  let ok := snd (loadConversation api conversationId st) in
  conversations st' = conversations st
  /\ isLoading st' = false
  /\ ((ok = true
       /\ (exists response, api conversationId = Normal response
                            /\ status response = true
                            /\ currentConversation st' = Some (Types.data response))
       /\ error st' = None)
      \/ (ok = false
          /\ currentConversation st' = None
          /\ exists e, error st' = Some e /\ e <> "")).
Proof.
  unfold loadConversation.
  destruct (api conversationId) as [response|e]; simpl.
  - destruct (status response) eqn:E; simpl.
    + split; [reflexivity|]. split; [reflexivity|]. left.
      split; [reflexivity|]. split; [|reflexivity]. exists response. auto.
    + split; [reflexivity|]. split; [reflexivity|]. right.
      split; [reflexivity|]. split; [reflexivity|]. eexists. split; [reflexivity|].
      apply error_or_nonempty. discriminate.
  - split; [reflexivity|]. split; [reflexivity|]. right.
    split; [reflexivity|]. split; [reflexivity|]. eexists. split; [reflexivity|].
    discriminate.
Qed.

(** X3: creating a conversation and then deleting it gives back the list
    of conversations there was, provided its id was not in use; the
    deleted conversation, which the creation had made current, is no
    longer current. *)
Theorem create_then_delete create delete title modelId systemPrompt tags
    permanent st st1 c response :
  createConversation create title modelId systemPrompt tags st = (st1, Some c) ->
  (forall c', c' ∈ conversations st -> Conversation.id c' <> Conversation.id c) ->
  delete (Conversation.id c) permanent = Normal response ->
  status response = true ->
  let st2 := fst (deleteConversation delete (Conversation.id c) permanent st1) in
  conversations st1 = c :: conversations st
  /\ currentConversation st1 = Some c
  /\ conversations st2 = conversations st
  /\ currentConversation st2 = None.
Proof.
  intros Hcreate Hfresh Hdelete Hstatus. unfold createConversation in Hcreate.
  destruct (create _) as [r|e]; [|discriminate].
  destruct (status r); [|discriminate].
  injection Hcreate as <- <-. cbn [conversations currentConversation begin_loading].
  split; [reflexivity|]. split; [reflexivity|].
  unfold deleteConversation. rewrite Hdelete, Hstatus.
  cbn [fst remove_from_store conversations currentConversation current_is List.filter].
  rewrite String.eqb_refl. cbn [negb]. split; [|reflexivity].
  apply filter_all. intros c' Hc'. apply negb_true_iff, String.eqb_neq.
  apply Hfresh, Hc'.
Qed.

Lemma create_then_delete_example :
  conversations
    (fst (deleteConversation (fun _ _ => Samples.ok (JsObject [])) "c" false
            (fst (createConversation (fun _ => Samples.ok (Examples.chat "c" "third"))
                    "third" "ollama/llama3" None None Examples.two_chats))))
  = conversations Examples.two_chats.
Proof.
  destruct (create_then_delete (fun _ => Samples.ok (Examples.chat "c" "third"))
              (fun _ _ => Samples.ok (JsObject [])) "third" "ollama/llama3" None None
              false Examples.two_chats
              (fst (createConversation (fun _ => Samples.ok (Examples.chat "c" "third"))
                      "third" "ollama/llama3" None None Examples.two_chats))
              (Examples.chat "c" "third") (mkApiResponse true (JsObject []) None)
              eq_refl) as (_ & _ & H & _).
  - intros c' Hc'. apply list_elem_of_In in Hc'. simpl in Hc'.
    destruct Hc' as [<- | [<- | []]]; discriminate.
  - reflexivity.
  - reflexivity.
  - exact H.
Defined.

(** X4: a successful [updateConversation] keeps the number and the order
    of the conversations: at every position, a conversation with another
    id is left as it is and one with the given id is merged with the
    patch; [isLoading] and [error] are never touched, and on a refusal or
    an exception the whole store is unchanged (no error is recorded). *)
Theorem updateConversation_frame api conversationId data st :
  let st' := fst (updateConversation api conversationId data st) in
  let ok := snd (updateConversation api conversationId data st) in
  isLoading st' = isLoading st
  /\ error st' = error st
  /\ length (conversations st') = length (conversations st)
  /\ (forall i c, conversations st !! i = Some c ->
        conversations st' !! i
        = Some (if ok && String.eqb (Conversation.id c) conversationId
                then spread c data else c))
  /\ (ok = false -> st' = st).
Proof.
  unfold updateConversation.
  destruct (api conversationId data) as [response|e]; simpl;
    [destruct (status response); simpl|]; auto.
  split; [reflexivity|]. split; [reflexivity|]. split; [apply length_map|].
  split; [|discriminate].
  intros i c Hc. rewrite list_lookup_fmap, Hc. reflexivity.
Qed.

(** X5: adding messages one after the other appends them, in that order,
    to the messages of the current conversation and changes nothing else;
    the list of conversations keeps its own copy unchanged.  Without a
    current conversation nothing happens. *)
Theorem addMessage_appends (ms : list Message.t) st :
  let st' := fold_left (fun s m => addMessage m s) ms st in
  conversations st' = conversations st
  /\ isLoading st' = isLoading st
  /\ error st' = error st
  /\ match currentConversation st with
     | None => st' = st
     | Some c =>
         ms <> [] ->
         currentConversation st'
         = Some (spread c
                   {| p_id := None; p_title := None; p_model_id := None;
                      p_created_at := None; p_updated_at := None;
                      p_system_prompt := None; p_is_pinned := None;
                      p_is_archived := None;
                      p_messages :=
                        Some (default [] (Conversation.messages c) ++ ms)%list |})
     end.
Proof.
  cbv zeta. revert st. induction ms as [|m ms IH]; intros st.
  - simpl. repeat split. destruct (currentConversation st); congruence.
  - cbn [fold_left]. specialize (IH (addMessage m st)).
    destruct IH as (Hc & Hl & He & Hcur).
    unfold addMessage in *. destruct (currentConversation st) as [c|] eqn:E.
    + cbn [conversations isLoading error currentConversation] in *.
      repeat split; try assumption. intros _.
      destruct ms as [|m' ms'].
      * simpl. unfold spread. simpl. reflexivity.
      * rewrite Hcur by discriminate. unfold spread. simpl.
        rewrite <- app_assoc. reflexivity.
    + rewrite E in *. repeat split; assumption.
Qed.

End ConversationsMore.

Section ModelsMore.
Import Js Types ModelsStore Models.

Lemma find_by_id_exists modelId ms :
  (exists m, m ∈ ms /\ Model.id m = modelId) ->
  exists m, find_by_id modelId ms = Some m /\ m ∈ ms /\ Model.id m = modelId.
Proof.
  intros [m [Hin Hid]].
  destruct (find_by_id modelId ms) as [m'|] eqn:E.
  - exists m'. split; [reflexivity|]. apply find_by_id_Some, E.
  - rewrite find_by_id_None in E. exfalso. exact (E m Hin Hid).
Qed.

(** X6: after a successful [loadModels] the store holds the received
    models in the order the engine's sort gave them, not loading and
    without error; [selectedModel] is [null] exactly when there is no
    model, and otherwise is one of the models of the list, whose id, in
    the browser, is what local storage then holds under
    ["selected_model_id"]; when nothing was saved and some received model
    is available, the selected model is an available one. *)
Theorem loadModels_selects localeCompare array_sort browser response state storage :
  conforming array_sort ->
  status response = true ->
  let r := loadModels localeCompare array_sort browser (Normal response)
                      (state, storage) in
  let state' := fst (fst r) in
  let storage' := snd (fst r) in
  snd r = true
  /\ models state' ≡ₚ default [] (Types.data response)
  /\ isLoading state' = false
  /\ error state' = None
  /\ (selectedModel state' = None <-> default [] (Types.data response) = [])
  /\ (forall m, selectedModel state' = Some m ->
        m ∈ models state'
        /\ (browser = true -> storage' !! "selected_model_id" = Some (Model.id m)))
  /\ (selectedModel state' = None -> storage' = storage)
  /\ (storage !! "selected_model_id" = None ->
      (exists a, a ∈ default [] (Types.data response) /\ Model.available a = true) ->
      forall m, selectedModel state' = Some m -> Model.available m = true).
Proof.
  intros [Hperm _] Hstatus. cbv zeta. unfold loadModels. rewrite Hstatus.
  unfold loadModels_ok. cbn [begin_loading].
  set (received := default [] (Types.data response)).
  assert (Hms : sortModels localeCompare array_sort received ≡ₚ received)
    by apply Hperm.
  set (ms := sortModels localeCompare array_sort received) in *.
  assert (Hempty : ms = [] <-> received = []).
  { split; intros H.
    - rewrite H in Hms. apply Permutation_nil in Hms. exact Hms.
    - rewrite H in Hms. symmetry in Hms. apply Permutation_nil in Hms. exact Hms. }
  assert (Havail : (exists a, a ∈ received /\ Model.available a = true) ->
                   List.find Model.available ms <> None).
  { intros (a & Ha & Hav) Hnone. rewrite <- Hms in Ha.
    apply list_elem_of_In in Ha.
    pose proof (find_none _ _ Hnone a Ha) as H. congruence. }
  match goal with
  | |- context [match ?s with Some m => Some m | None => _ end] => set (saved := s)
  end.
  assert (Hsaved : forall m, saved = Some m -> m ∈ ms).
  { intros m. unfold saved. destruct browser; [|discriminate].
    destruct (storage !! "selected_model_id") as [i|]; [|discriminate].
    destruct (String.eqb i ""); [discriminate|].
    intros H. apply find_by_id_Some in H. apply H. }
  assert (Hnothing : storage !! "selected_model_id" = None -> saved = None).
  { intros H. unfold saved. rewrite H. destruct browser; reflexivity. }
  destruct saved as [m|].
  - specialize (Hsaved m eq_refl). cbn.
    split; [reflexivity|]. split; [exact Hms|]. split; [reflexivity|].
    split; [reflexivity|]. split; [|split; [|split]].
    + split; [discriminate|]. intros H. apply Hempty in H. rewrite H in Hsaved.
      inversion Hsaved.
    + intros m' H. injection H as <-. split; [exact Hsaved|].
      intros ->. apply lookup_insert_eq.
    + discriminate.
    + intros H. specialize (Hnothing H). discriminate.
  - destruct (List.find Model.available ms) as [m|] eqn:Ef.
    + apply find_some in Ef as [Hin Hav]. apply list_elem_of_In in Hin. cbn.
      split; [reflexivity|]. split; [exact Hms|]. split; [reflexivity|].
      split; [reflexivity|]. split; [|split; [|split]].
      * split; [discriminate|]. intros H. apply Hempty in H. rewrite H in Hin.
        inversion Hin.
      * intros m' H. injection H as <-. split; [exact Hin|].
        intros ->. apply lookup_insert_eq.
      * discriminate.
      * intros _ _ m' H. injection H as <-. exact Hav.
    + destruct ms as [|m ms'] eqn:Ems; cbn.
      * split; [reflexivity|]. split; [exact Hms|]. split; [reflexivity|].
        split; [reflexivity|]. split; [|split; [|split]].
        -- split; [intros _; apply Hempty; reflexivity | reflexivity].
        -- discriminate.
        -- reflexivity.
        -- discriminate.
      * split; [reflexivity|]. split; [exact Hms|]. split; [reflexivity|].
        split; [reflexivity|]. split; [|split; [|split]].
        -- split; [discriminate|]. intros H. apply Hempty in H. discriminate.
        -- intros m' H. injection H as <-. split; [left|].
           intros ->. apply lookup_insert_eq.
        -- discriminate.
        -- intros _ Hex. exfalso. apply (Havail Hex). reflexivity.
Qed.

Lemma loadModels_example :
  Model.id <$> selectedModel
     (fst (fst (loadModels Examples.codeUnitCompare Examples.insertion_sort true
                  (Samples.ok (Some [Examples.gpt; Examples.mistral; Examples.llama]))
                  (initialState, ∅))))
  = Some "ollama/llama3".
Proof.
  destruct (loadModels_selects Examples.codeUnitCompare Examples.insertion_sort true
              (mkApiResponse true (Some [Examples.gpt; Examples.mistral; Examples.llama])
                             None)
              initialState ∅ insertion_sort_conforming eq_refl) as (_ & _).
  reflexivity.
Defined.

(** X7: in the browser, a model chosen with [selectModel] is still the
    selected one after the models are loaded again, as long as the
    reloaded list has a model of that id (and the id is not the empty
    string, which the reload takes for "nothing saved"). *)
Theorem selection_survives_reload localeCompare array_sort modelId response
    state storage :
  conforming array_sort ->
  modelId <> "" ->
  (exists m, m ∈ models state /\ Model.id m = modelId) ->
  status response = true ->
  (exists m, m ∈ default [] (Types.data response) /\ Model.id m = modelId) ->
  let chosen := selectModel true modelId (state, storage) in
  let r := loadModels localeCompare array_sort true (Normal response) chosen in
  exists m, selectedModel (fst (fst r)) = Some m
            /\ Model.id m = modelId
            /\ m ∈ default [] (Types.data response)
            /\ snd (fst r) !! "selected_model_id" = Some modelId.
Proof.
  intros [Hperm _] Hne Hknown Hstatus Hstill. cbv zeta.
  destruct (find_by_id_exists modelId (models state) Hknown)
    as (m0 & Hfind0 & _ & Hid0).
  unfold selectModel. rewrite Hfind0, Hid0.
  unfold loadModels. rewrite Hstatus. unfold loadModels_ok. cbn [begin_loading].
  unfold LocalStorage in *. rewrite lookup_insert_eq.
  apply String.eqb_neq in Hne. rewrite Hne.
  destruct (find_by_id_exists modelId
              (sortModels localeCompare array_sort
                          (default [] (Types.data response))))
    as (m & Hfind & Hin & Hid).
  { destruct Hstill as [m [Hin Hid]]. exists m. split; [|exact Hid].
    unfold sortModels. rewrite Hperm. exact Hin. }
  rewrite Hfind. cbn. exists m. split; [reflexivity|]. split; [exact Hid|].
  split.
  - unfold sortModels in Hin. rewrite Hperm in Hin. exact Hin.
  - rewrite Hid. apply lookup_insert_eq.
Qed.

Lemma selection_survives_reload_example :
  Model.id <$> selectedModel
     (fst (fst (loadModels Examples.codeUnitCompare Examples.insertion_sort true
                  (Samples.ok (Some [Examples.llama; Examples.gpt]))
                  (selectModel true "openai/gpt-4" (Samples.two_models, ∅)))))
  = Some "openai/gpt-4".
Proof.
  destruct (selection_survives_reload Examples.codeUnitCompare
              Examples.insertion_sort "openai/gpt-4"
              (mkApiResponse true (Some [Examples.llama; Examples.gpt]) None)
              Samples.two_models ∅) as (m & Hsel & Hid & _).
  - exact insertion_sort_conforming.
  - discriminate.
  - exists Examples.gpt. split; [apply list_elem_of_In; left|]; reflexivity.
  - reflexivity.
  - exists Examples.gpt. split; [apply list_elem_of_In; right; left|]; reflexivity.
  - exact (eq_trans (f_equal (fmap Model.id) Hsel) (f_equal Some Hid)).
Defined.

(** X8: [refreshModels] never succeeds and never reloads the list.
    Whatever the refresh request answers, the method resolves to [false]
    with a non-empty error message, not loading, and with the models, the
    selected model and local storage as they were: on a true [status] the
    call [this.loadModels()] throws, [this] being [undefined]. *)
Theorem refreshModels_never_reloads api state storage :
  let r := refreshModels api (state, storage) in
  snd r = false
  /\ models (fst (fst r)) = models state
  /\ selectedModel (fst (fst r)) = selectedModel state
  /\ snd (fst r) = storage
  /\ isLoading (fst (fst r)) = false
  /\ exists e, error (fst (fst r)) = Some e /\ e <> "".
Proof.
  cbv zeta. unfold refreshModels, this_loadModels.
  destruct api as [response|e]; [destruct (status response)|]; cbn;
    repeat (split; [reflexivity|]); eexists; (split; [reflexivity|]);
    try discriminate.
  apply error_or_nonempty. discriminate.
Qed.

End ModelsMore.

(** * Further properties of the chat page *)

Section ChatPageMore.
Import Js Types ChatPage Page.

Variable conversationId : string.
Variable createConversation :
  ConversationCreateRequest -> Completion (ApiResponse Conversation.t).
Variable sendChatMessage :
  string -> string -> JsValue -> Completion (ApiResponse ChatReply).

Local Abbreviation handleSendMessage :=
  (ChatPage.handleSendMessage conversationId createConversation sendChatMessage).
Local Abbreviation create_if_new :=
  (ChatPage.create_if_new conversationId createConversation).
Local Abbreviation deliver := (ChatPage.deliver conversationId).
Local Abbreviation deliver_all := (ChatPage.deliver_all conversationId).

Lemma error_listeners streamId :
  List.filter (fun e => String.eqb (fst e) (Socket.error_event streamId))
              (stream_listeners streamId)
  = [ (Socket.error_event streamId,
       Socket.errorListener streamId (Some Socket.finishAssistantMessage)) ].
Proof.
  unfold stream_listeners. cbn [List.filter fst].
  rewrite (String.eqb_sym (Socket.token_event streamId)), error_is_not_token.
  rewrite (String.eqb_sym (Socket.done_event streamId)), error_is_not_done.
  rewrite String.eqb_refl. reflexivity.
Qed.

Lemma deliver_error streamId t err w old :
  Socket.listeners (socket w) = (old ++ stream_listeners streamId)%list ->
  List.filter (fun e => String.eqb (fst e) (Socket.error_event streamId)) old = [] ->
  deliver t (stream_error streamId err) w
  = onComplete t (remove_stream_listeners streamId w).
Proof.
  intros Hl Herr. unfold ChatPage.deliver, Socket.listeners_of, event_name.
  rewrite Hl, List.filter_app, Herr, error_listeners. reflexivity.
Qed.

Lemma no_listeners name s :
  Socket.listeners_of name s = [] ->
  List.filter (fun e => String.eqb (fst e) name) (Socket.listeners s) = [].
Proof.
  unfold Socket.listeners_of.
  destruct (List.filter _ (Socket.listeners s)); [reflexivity|discriminate].
Qed.

(** X9: a stream that ends with an error event is closed like one that
    ends normally: the tokens received so far become the content of one
    assistant message appended to the transcript, the page stops
    streaming, and the page's [error] is left as it was (the failure is
    only logged). *)
Theorem stream_error_keeps_partial_output rand t d w w0 c
    (tokens : list (Tick * string)) (t_err : Tick) (err : JsValue) :
  is_blank (message d) = false ->
  stream d = true ->
  create_if_new d w = (w0, true) ->
  conversation (page w0) = Some c ->
  Socket.listeners_of (Socket.token_event (ApiClient.new_stream_id (now t) rand))
                      (socket w) = [] ->
  Socket.listeners_of (Socket.done_event (ApiClient.new_stream_id (now t) rand))
                      (socket w) = [] ->
  Socket.listeners_of (Socket.error_event (ApiClient.new_stream_id (now t) rand))
                      (socket w) = [] ->
  let streamId := ApiClient.new_stream_id (now t) rand in
  let w1 := handleSendMessage rand t d w in
  let w2 := deliver_all
              (map (fun e => (fst e, stream_token streamId (snd e))) tokens) w1 in
  let w3 := deliver t_err (stream_error streamId err) w2 in
  messages (page w3)
  = (messages (page w)
     ++ [ {| Message.id := "temp-" +:+ now t; Message.role := user;
             Message.content := message d; Message.created_at := iso t |};
          {| Message.id := "stream-" +:+ now t_err; Message.role := assistant;
             Message.content := String.concat "" (map snd tokens);
             Message.created_at := iso t_err |} ])%list
  /\ streaming (page w3) = false
  /\ streamedMessage (page w3) = ""
  /\ activeSocketId (page w3) = None
  /\ error (page w3) = error (page w).
Proof.
  intros not_blank streamed proceeds loaded fresh_token fresh_done fresh_error.
  cbv zeta.
  rewrite (handleSendMessage_streams conversationId createConversation sendChatMessage
             rand t d w w0 c) by assumption.
  set (streamId := ApiClient.new_stream_id (now t) rand) in *.
  match goal with
  | |- context [deliver_all _ ?W] =>
      assert (Hlisten : listening streamId W)
  end.
  { exists (Socket.listeners (socket w)). simpl. auto using no_listeners. }
  rewrite deliver_tokens by exact Hlisten.
  erewrite deliver_error; [|reflexivity|apply no_listeners, fresh_error].
  simpl. repeat split; rewrite <- ?app_assoc; reflexivity.
Qed.

Lemma listeners_of_off name n s :
  Socket.listeners_of name (Socket.off n s)
  = if String.eqb name n then [] else Socket.listeners_of name s.
Proof.
  unfold Socket.listeners_of, Socket.off. cbn [Socket.listeners].
  induction (Socket.listeners s) as [|[k l] rest IH]; cbn [List.filter fst].
  - destruct (String.eqb name n); reflexivity.
  - destruct (String.eqb_spec k n) as [->|Hkn]; cbn [negb].
    + rewrite IH. rewrite (String.eqb_sym n name).
      destruct (String.eqb name n); reflexivity.
    + cbn [List.filter fst]. destruct (String.eqb_spec k name) as [->|Hk].
      * cbn [map snd]. rewrite IH.
        destruct (String.eqb_spec name n); [contradiction|reflexivity].
      * rewrite IH. reflexivity.
Qed.

Lemma closed_stream_silent streamId name w :
  name = Socket.token_event streamId \/ name = Socket.done_event streamId
  \/ name = Socket.error_event streamId ->
  Socket.listeners_of name (socket (remove_stream_listeners streamId w)) = [].
Proof.
  intros H. unfold remove_stream_listeners. cbn [with_socket socket].
  rewrite !listeners_of_off.
  destruct H as [-> | [-> | ->]].
  - rewrite (String.eqb_sym (Socket.token_event streamId)), error_is_not_token.
    rewrite (String.eqb_sym (Socket.token_event streamId)), done_is_not_token.
    rewrite String.eqb_refl. reflexivity.
  - rewrite (String.eqb_sym (Socket.done_event streamId)), error_is_not_done.
    rewrite String.eqb_refl. reflexivity.
  - rewrite String.eqb_refl. reflexivity.
Qed.

Lemma deliver_unheard t ev w :
  Socket.listeners_of (event_name ev) (socket w) = [] -> deliver t ev w = w.
Proof. intros H. unfold ChatPage.deliver. rewrite H. reflexivity. Qed.

Lemma of_stream_name streamId ev :
  of_stream streamId ev = true ->
  event_name ev = Socket.token_event streamId
  \/ event_name ev = Socket.done_event streamId
  \/ event_name ev = Socket.error_event streamId.
Proof.
  destruct ev as [i tok|i|i e| |]; simpl; try discriminate;
    intros H; apply String.eqb_eq in H; subst; auto.
Qed.

(** X10: a stream is finalized once.  After the done event has been
    handled, any further events of that stream (late tokens, a second
    done, an error) leave the page, the socket and the store exactly as
    they were: no token is added and no second assistant message
    appears. *)
Theorem finalized_stream_is_closed rand t d w w0 c
    (tokens : list (Tick * string)) (t_done : Tick)
    (late : list (Tick * Incoming)) :
  is_blank (message d) = false ->
  stream d = true ->
  create_if_new d w = (w0, true) ->
  conversation (page w0) = Some c ->
  Socket.listeners_of (Socket.token_event (ApiClient.new_stream_id (now t) rand))
                      (socket w) = [] ->
  Socket.listeners_of (Socket.done_event (ApiClient.new_stream_id (now t) rand))
                      (socket w) = [] ->
  let streamId := ApiClient.new_stream_id (now t) rand in
  Forall (fun e => of_stream streamId (snd e) = true) late ->
  let w1 := handleSendMessage rand t d w in
  let w2 := deliver_all
              (map (fun e => (fst e, stream_token streamId (snd e))) tokens) w1 in
  let w3 := deliver t_done (stream_done streamId) w2 in
  deliver_all late w3 = w3.
Proof.
  intros not_blank streamed proceeds loaded fresh_token fresh_done.
  cbv zeta. intros Hlate.
  rewrite (handleSendMessage_streams conversationId createConversation sendChatMessage
             rand t d w w0 c) by assumption.
  set (streamId := ApiClient.new_stream_id (now t) rand) in *.
  match goal with
  | |- context [deliver_all (map _ tokens) ?W] =>
      assert (Hlisten : listening streamId W)
  end.
  { exists (Socket.listeners (socket w)). simpl. auto using no_listeners. }
  rewrite deliver_tokens by exact Hlisten.
  rewrite deliver_done by exact Hlisten.
  match goal with
  | |- deliver_all late (onComplete ?T (remove_stream_listeners ?I ?W)) = _ =>
      generalize W; intros W0
  end.
  unfold ChatPage.deliver_all.
  induction Hlate as [|[tk ev] late Hev _ IH]; [reflexivity|].
  cbn [fold_left fst snd]. rewrite deliver_unheard; [exact IH|].
  apply (closed_stream_silent streamId _ W0), of_stream_name, Hev.
Qed.

End ChatPageMore.

Section ChatPageMoreExamples.
Import Js Types ChatPage Page.

Lemma stream_error_example :
  let streamId := ApiClient.new_stream_id "1700000000000" "k3x9q2a" in
  let w1 := ChatPage.handleSendMessage "c1" Examples.no_create Examples.no_send
              "k3x9q2a" Examples.t0 Examples.ask Examples.mounted in
  let w2 := ChatPage.deliver_all "c1"
              [(Examples.t1, stream_token streamId "The");
               (Examples.t1, stream_token streamId " sky")] w1 in
  let w3 := ChatPage.deliver "c1" Examples.t2
              (stream_error streamId (JsString "upstream closed")) w2 in
  map Message.content (messages (page w3)) = ["Why is the sky blue?"; "The sky"]
  /\ error (page w3) = None.
Proof.
  destruct (stream_error_keeps_partial_output "c1" Examples.no_create Examples.no_send
              "k3x9q2a" Examples.t0 Examples.ask Examples.mounted Examples.mounted
              (Examples.chat "c1" "sky")
              [(Examples.t1, "The"); (Examples.t1, " sky")] Examples.t2
              (JsString "upstream closed")
              eq_refl eq_refl eq_refl eq_refl eq_refl eq_refl eq_refl)
    as (Hmessages & _ & _ & _ & Herror).
  split; [exact (f_equal (map Message.content) Hmessages) | exact Herror].
Defined.

Lemma finalized_stream_example :
  let streamId := ApiClient.new_stream_id "1700000000000" "k3x9q2a" in
  let w3 := ChatPage.deliver "c1" Examples.t2 (stream_done streamId)
              (ChatPage.deliver_all "c1"
                 (map (fun e => (fst e, stream_token streamId (snd e)))
                      Examples.sky_tokens)
                 (ChatPage.handleSendMessage "c1" Examples.no_create Examples.no_send
                    "k3x9q2a" Examples.t0 Examples.ask Examples.mounted)) in
  ChatPage.deliver_all "c1"
    [(Examples.t2, stream_token streamId "!"); (Examples.t2, stream_done streamId)] w3
  = w3.
Proof.
  apply (finalized_stream_is_closed "c1" Examples.no_create Examples.no_send
           "k3x9q2a" Examples.t0 Examples.ask Examples.mounted Examples.mounted
           (Examples.chat "c1" "sky") Examples.sky_tokens Examples.t2 _
           eq_refl eq_refl eq_refl eq_refl eq_refl eq_refl).
  repeat constructor.
Defined.

End ChatPageMoreExamples.

Section ChatPageSend.
Import Js Types ChatPage Page.

Variable conversationId : string.
Variable createConversation :
  ConversationCreateRequest -> Completion (ApiResponse Conversation.t).
Variable sendChatMessage :
  string -> string -> JsValue -> Completion (ApiResponse ChatReply).

Local Abbreviation handleSendMessage :=
  (ChatPage.handleSendMessage conversationId createConversation sendChatMessage).
Local Abbreviation create_if_new :=
  (ChatPage.create_if_new conversationId createConversation).

Lemma filter_app_self (ms : list Message.t) (m : Message.t) :
  List.filter (fun x => negb (String.eqb (Message.id x) (Message.id m))) (ms ++ [m])
  = List.filter (fun x => negb (String.eqb (Message.id x) (Message.id m))) ms.
Proof.
  rewrite List.filter_app. cbn [List.filter]. rewrite String.eqb_refl.
  apply app_nil_r.
Qed.

(** X11: a message sent without streaming never leaves the page
    streaming and never touches the socket.  If the reply has a true
    [status], the optimistic user message (and anything else carrying its
    temporary id) is replaced by the server's user and assistant
    messages; if the reply has a false [status] or the call throws, the
    optimistic user message stays in the transcript and [error] is set. *)
Theorem send_without_streaming rand t d w w0 c :
  is_blank (message d) = false ->
  stream d = false ->
  create_if_new d w = (w0, true) ->
  conversation (page w0) = Some c ->
  let w' := handleSendMessage rand t d w in
  let userMessage :=
    {| Message.id := "temp-" +:+ now t; Message.role := user;
       Message.content := message d; Message.created_at := iso t |} in
  streaming (page w') = false
  /\ streamedMessage (page w') = ""
  /\ socket w' = socket w
  /\ match sendChatMessage (Conversation.id c) (message d) (parameters d) with
     | Normal response =>
         if status response then
           messages (page w')
           = (List.filter
                (fun m => negb (String.eqb (Message.id m) (Message.id userMessage)))
                (messages (page w))
              ++ [user_message (Types.data response);
                  assistant_message (Types.data response)])%list
           /\ error (page w') = error (page w)
         else
           messages (page w') = (messages (page w) ++ [userMessage])%list
           /\ error (page w')
              = Some (error_message response "Failed to send message")
     | Throw _ =>
         messages (page w') = (messages (page w) ++ [userMessage])%list
         /\ error (page w') = Some "Error sending message"
     end.
Proof.
  intros not_blank unstreamed proceeds loaded. cbv zeta.
  unfold ChatPage.handleSendMessage. rewrite not_blank, proceeds.
  destruct (create_if_new_proceeds conversationId createConversation _ _ _ proceeds)
    as (Hm & Hl & He & Hs).
  unfold request_reply. cbn [with_page page]. cbn [conversation set_streamedMessage
    set_streaming set_messages]. rewrite loaded, unstreamed.
  destruct (sendChatMessage _ _ _) as [response|e];
    [destruct (status response)|];
    cbn; rewrite ?Hm, ?He, ?Hs; repeat split; try reflexivity.
  f_equal.
  exact (filter_app_self (messages (page w))
           {| Message.id := "temp-" +:+ now t; Message.role := user;
              Message.content := message d; Message.created_at := iso t |}).
Qed.

(** A message is blank when it has nothing but the white-space code units
    that [trim] strips. *)
Lemma is_blank_spec (s : string) :
  is_blank s = true
  <-> Forall (fun c => code_unit c ∈ [9; 10; 11; 12; 13; 32; 160]%nat)
             (String.list_ascii_of_string s).
Proof.
  unfold is_blank. induction s as [|c s IH]; cbn [all_space String.list_ascii_of_string].
  - split; [constructor|reflexivity].
  - rewrite andb_true_iff, IH, Forall_cons. apply and_iff_compat_r.
    unfold is_space. rewrite !orb_true_iff, andb_true_iff, Nat.leb_le, Nat.leb_le,
      !Nat.eqb_eq, !elem_of_cons, elem_of_nil. lia.
Qed.

(** X12: nothing is sent for a blank message (nothing but the code units
    that [trim] strips: U+0009 to U+000D, U+0020, U+00A0) or when the new
    conversation cannot be created: the transcript, the streaming flag,
    the socket (listeners and emitted requests) and the store are as
    before; a blank message changes nothing at all, a failed creation
    only sets a non-empty [error]. *)
Theorem nothing_sent rand t d w :
  is_blank (message d) = true \/ snd (create_if_new d w) = false ->
  let w' := handleSendMessage rand t d w in
  messages (page w') = messages (page w)
  /\ streaming (page w') = streaming (page w)
  /\ streamedMessage (page w') = streamedMessage (page w)
  /\ activeSocketId (page w') = activeSocketId (page w)
  /\ socket w' = socket w
  /\ store w' = store w
  /\ visited w' = visited w
  /\ (is_blank (message d) = true -> w' = w)
  /\ (is_blank (message d) = false ->
      exists e, error (page w') = Some e /\ e <> "").
Proof.
  intros H. cbv zeta. unfold ChatPage.handleSendMessage.
  destruct (is_blank (message d)) eqn:Eb.
  { repeat split; try reflexivity. discriminate. }
  destruct H as [H|H]; [discriminate|].
  unfold ChatPage.create_if_new in *.
  destruct (isNewChat conversationId); [|discriminate].
  destruct (conversation (page w)) as [c0|].
  - destruct (createConversation _) as [response|e].
    + destruct (status response); [discriminate|]. cbn.
      repeat split; try reflexivity; try discriminate.
      intros _. eexists. split; [reflexivity|].
      unfold error_message. destruct (Types.error response); [|discriminate].
      apply or_else_nonempty. discriminate.
    + cbn. repeat split; try reflexivity; try discriminate.
      intros _. eexists. split; [reflexivity|discriminate].
  - cbn. repeat split; try reflexivity; try discriminate.
    intros _. eexists. split; [reflexivity|discriminate].
Qed.

(** X13: the first message of a new chat goes to the conversation that
    was just created.  On the page of the route ["new"], when the creation
    request (titled after the message, for the model of the draft
    conversation) succeeds, the created conversation is put at the head of
    the conversations store, the router is sent to its URL, and the one
    [chat:stream] request emitted carries the id of the created
    conversation. *)
Theorem first_message_of_new_chat rand t d w c0 response :
  conversationId = "new" ->
  is_blank (message d) = false ->
  stream d = true ->
  conversation (page w) = Some c0 ->
  createConversation
    {| req_title := title_of (message d);
       req_model_id := Conversation.model_id c0;
       req_system_prompt := Conversation.system_prompt c0 |} = Normal response ->
  status response = true ->
  let created := Types.data response in
  let w' := handleSendMessage rand t d w in
  conversation (page w') = Some created
  /\ ConversationsStore.conversations (store w')
     = created :: ConversationsStore.conversations (store w)
  /\ visited w' = (visited w ++ ["/chat/" +:+ Conversation.id created])%list
  /\ Socket.emitted (socket w')
     = (Socket.emitted (socket w)
        ++ [Socket.chat_stream (Conversation.id created) (message d) (parameters d)
              (ApiClient.new_stream_id (now t) rand)])%list
  /\ streaming (page w') = true.
Proof.
  intros Hnew not_blank streamed Hdraft Hcreate Hstatus. cbv zeta.
  assert (proceeds :
    create_if_new d w
    = ({| page := set_conversation (Some (Types.data response)) (page w);
          socket := socket w;
          store := ConversationsStore.addConversation (Types.data response) (store w);
          visited := visited w ++ ["/chat/" +:+ Conversation.id (Types.data response)] |},
       true)).
  { unfold ChatPage.create_if_new, isNewChat.
    rewrite Hnew, String.eqb_refl, Hdraft, Hcreate, Hstatus. reflexivity. }
  rewrite (handleSendMessage_streams conversationId createConversation sendChatMessage
             rand t d w _ (Types.data response) not_blank streamed proceeds eq_refl).
  cbn. repeat split; reflexivity.
Qed.

Lemma length_append (a b : string) :
  String.length (a +:+ b) = (String.length a + String.length b)%nat.
Proof.
  induction a as [|ch a IH]; [reflexivity|].
  change (String ch a +:+ b) with (String ch (a +:+ b)). simpl. rewrite IH.
  reflexivity.
Qed.

Lemma length_substring n (s : string) :
  (n <= String.length s)%nat -> String.length (String.substring 0 n s) = n.
Proof.
  revert s. induction n as [|n IH]; intros s H.
  - destruct s; reflexivity.
  - destruct s as [|ch s]; [simpl in H; lia|]. simpl in *. rewrite IH by lia.
    reflexivity.
Qed.

(** X14: the title given to a new conversation is the message itself when
    it has at most 30 characters, and otherwise its first 30 characters
    followed by three dots; it never has more than 33 characters. *)
Theorem title_of_bounded (message : string) :
  (String.length (title_of message) <= 33)%nat
  /\ ((String.length message <= 30)%nat -> title_of message = message)
  /\ ((30 < String.length message)%nat ->
      String.length (title_of message) = 33%nat
      /\ String.prefix (String.substring 0 30 message) message = true
      /\ title_of message = String.substring 0 30 message +:+ "...").
Proof.
  unfold title_of. destruct (Nat.ltb_spec 30 (String.length message)) as [H|H].
  - rewrite length_append, length_substring by lia. simpl.
    split; [lia|]. split; [lia|]. intros _. split; [reflexivity|].
    split; [|reflexivity].
    clear H. generalize 30%nat. intros n. revert message.
    induction n as [|n IH]; intros [|ch s]; simpl; try reflexivity.
    rewrite IH. destruct (Ascii.ascii_dec ch ch); [reflexivity|congruence].
  - split; [lia|]. split; [reflexivity|]. lia.
Qed.

End ChatPageSend.

Section ChatPageSendExamples.
Import Js Types ChatPage Page.

Lemma send_without_streaming_example :
  map Message.content
      (messages
         (page (ChatPage.handleSendMessage "c1" Examples.no_create Examples.no_send
                  "k3x9q2a" Examples.t0
                  {| message := "Hello"; stream := false; parameters := JsUndefined |}
                  Examples.mounted)))
  = ["Hello"]
  /\ error (page (ChatPage.handleSendMessage "c1" Examples.no_create Examples.no_send
                    "k3x9q2a" Examples.t0
                    {| message := "Hello"; stream := false; parameters := JsUndefined |}
                    Examples.mounted))
     = Some "Error sending message".
Proof.
  destruct (send_without_streaming "c1" Examples.no_create Examples.no_send "k3x9q2a"
              Examples.t0
              {| message := "Hello"; stream := false; parameters := JsUndefined |}
              Examples.mounted Examples.mounted (Examples.chat "c1" "sky")
              eq_refl eq_refl eq_refl eq_refl) as (_ & _ & _ & Hm & He).
  split; [exact (f_equal (map Message.content) Hm) | exact He].
Defined.

(** A no-break space, a tab and a space: nothing is sent. *)
Lemma nothing_sent_example :
  ChatPage.handleSendMessage "c1" Examples.no_create Examples.no_send "k3x9q2a"
    Examples.t0
    {| message := String (Ascii.ascii_of_nat 160) (String (Ascii.ascii_of_nat 9) " ");
       stream := true; parameters := JsUndefined |}
    Examples.mounted
  = Examples.mounted.
Proof.
  apply (nothing_sent "c1" Examples.no_create Examples.no_send "k3x9q2a" Examples.t0
           {| message := String (Ascii.ascii_of_nat 160)
                                (String (Ascii.ascii_of_nat 9) " ");
              stream := true; parameters := JsUndefined |}
           Examples.mounted (or_introl eq_refl)).
  reflexivity.
Defined.

Lemma first_message_example :
  let w' := ChatPage.handleSendMessage "new"
              (fun _ => Samples.ok (Examples.chat "c9" "Why is the sky blue?"))
              Examples.no_send "k3x9q2a" Examples.t0 Examples.ask Examples.mounted in
  Socket.emitted (socket w')
  = [Socket.chat_stream "c9" "Why is the sky blue?" JsUndefined
       "stream-1700000000000-k3x9q2a"]
  /\ visited w' = ["/chat/c9"].
Proof.
  destruct (first_message_of_new_chat "new"
              (fun _ => Samples.ok (Examples.chat "c9" "Why is the sky blue?"))
              Examples.no_send "k3x9q2a" Examples.t0 Examples.ask Examples.mounted
              (Examples.chat "c1" "sky")
              (mkApiResponse true (Examples.chat "c9" "Why is the sky blue?") None)
              eq_refl eq_refl eq_refl eq_refl eq_refl eq_refl)
    as (_ & _ & Hvisited & Hemitted & _).
  split; [exact Hemitted | exact Hvisited].
Defined.

End ChatPageSendExamples.

Section ChatPageMount.
Import Js Types ChatPage Page.

Variable conversationId : string.
Variable getConversation : string -> Completion (ApiResponse Conversation.t).
Variable selectedModel : option Model.t.
Variables created updated : string.

Local Abbreviation onMount :=
  (Page.onMount conversationId getConversation selectedModel created updated).
Local Abbreviation onDestroy := (ChatPage.onDestroy conversationId).
Local Abbreviation deliver := (ChatPage.deliver conversationId).

Lemma onMount_socket w :
  socket (onMount w)
  = {| Socket.listeners := Socket.listeners (socket w) ++ page_listeners;
       Socket.emitted := Socket.emitted (socket w) |}.
Proof.
  unfold Page.onMount, page_listeners, with_socket, with_page, Socket.on.
  cbn [socket Socket.listeners Socket.emitted].
  destruct (negb (isNewChat conversationId));
    [destruct (getConversation conversationId) as [r|e]; [destruct (status r)|]|];
    cbn [socket]; rewrite <- !app_assoc; reflexivity.
Qed.

Lemma onMount_activeSocketId w :
  activeSocketId (page (onMount w)) = activeSocketId (page w).
Proof.
  unfold Page.onMount.
  destruct (negb (isNewChat conversationId));
    [destruct (getConversation conversationId) as [r|e]; [destruct (status r)|]|];
    reflexivity.
Qed.

Lemma off_listener_other name l (ls : list (string * Socket.Listener)) :
  (name, l) ∉ ls ->
  List.filter
    (fun e => negb (String.eqb (fst e) name
                    && @bool_decide (snd e = l) (Socket.Listener_eq_dec _ _))) ls
  = ls.
Proof.
  intros Hnot. apply filter_all. intros [k h] Hin. apply negb_true_iff.
  apply andb_false_iff.
  cbn [fst snd].
  destruct (String.eqb_spec k name) as [->|Hk]; [right|left; reflexivity].
  apply bool_decide_eq_false. intros ->. exact (Hnot Hin).
Qed.

(** X15: [onDestroy] undoes the registrations of [onMount].  If none of
    the three page listeners was registered before the page was mounted
    and no stream is active, the socket after mounting and destroying the
    page has exactly the listeners it had before and has emitted
    nothing. *)
Theorem mount_then_destroy w :
  (forall e, e ∈ page_listeners -> e ∉ Socket.listeners (socket w)) ->
  activeSocketId (page w) = None ->
  socket (onDestroy (onMount w)) = socket w
  /\ page (onDestroy (onMount w)) = page (onMount w).
Proof.
  intros Hfresh Hidle. unfold ChatPage.onDestroy, with_socket.
  cbn [page socket]. rewrite onMount_activeSocketId, Hidle.
  split; [|reflexivity]. rewrite onMount_socket.
  unfold Socket.off_listener. cbn [Socket.listeners Socket.emitted].
  rewrite !List.filter_app.
  rewrite (off_listener_other "chat:message")
    by (apply Hfresh; unfold page_listeners; set_solver).
  rewrite (off_listener_other "chat:update")
    by (apply Hfresh; unfold page_listeners; set_solver).
  rewrite (off_listener_other "chat:typing")
    by (apply Hfresh; unfold page_listeners; set_solver).
  cbn. rewrite app_nil_r. destruct (socket w); reflexivity.
Qed.

(** X16: once the page is mounted (on a socket where nothing listened to
    ["chat:message"] before), a pushed chat message is appended to the
    transcript when it is addressed to the page's conversation and is
    dropped otherwise, and nothing else changes; once the page is
    destroyed, pushed messages no longer reach it. *)
Theorem pushed_messages_are_filtered t cid m w :
  Socket.listeners_of "chat:message" (socket w) = [] ->
  let w1 := onMount w in
  messages (page (deliver t (chat_message cid m) w1))
  = (messages (page w1) ++ (if String.eqb cid conversationId then [m] else []))%list
  /\ socket (deliver t (chat_message cid m) w1) = socket w1
  /\ streamedMessage (page (deliver t (chat_message cid m) w1))
     = streamedMessage (page w1)
  /\ streaming (page (deliver t (chat_message cid m) w1)) = streaming (page w1)
  /\ deliver t (chat_message cid m) (onDestroy w1) = onDestroy w1.
Proof.
  intros Hnone. cbv zeta.
  assert (Hheard : Socket.listeners_of "chat:message" (socket (onMount w))
                   = [Socket.handleNewMessage]).
  { rewrite onMount_socket. unfold Socket.listeners_of. cbn [Socket.listeners].
    rewrite List.filter_app, (no_listeners _ _ Hnone). reflexivity. }
  split; [|split; [|split; [|split]]].
  1-4: unfold ChatPage.deliver; cbn [event_name]; rewrite Hheard;
       cbn [fold_left run_listener]; unfold handleNewMessage;
       destruct (String.eqb cid conversationId); cbn;
       rewrite ?app_nil_r; reflexivity.
  apply deliver_unheard. cbn [event_name]. unfold ChatPage.onDestroy.
  assert (Hgone : forall s : Socket.State,
    Socket.listeners_of "chat:message" s = [] ->
    Socket.listeners_of "chat:message"
      (Socket.off_listener "chat:typing" Socket.handleTypingIndicator
         (Socket.off_listener "chat:update" Socket.handleConversationUpdate
            (Socket.off_listener "chat:message" Socket.handleNewMessage
               {| Socket.listeners := Socket.listeners s ++ page_listeners;
                  Socket.emitted := Socket.emitted s |}))) = []).
  { intros s Hs. apply no_listeners in Hs.
    unfold Socket.listeners_of, Socket.off_listener. cbn [Socket.listeners].
    induction (Socket.listeners s) as [|[k h] rest IH].
    - reflexivity.
    - cbn [List.filter fst] in Hs.
      destruct (String.eqb_spec k "chat:message") as [->|Hk]; [discriminate|].
      specialize (IH Hs). cbn [app List.filter fst snd].
      apply String.eqb_neq in Hk. rewrite Hk. cbn [andb negb List.filter fst snd].
      destruct (negb _); cbn [List.filter fst snd];
        [destruct (negb _); cbn [List.filter fst]; rewrite ?Hk|]; exact IH. }
  unfold with_socket. cbn [page socket]. rewrite onMount_socket.
  destruct (activeSocketId _) as [i|]; [destruct (String.eqb i "")|];
    cbn [socket]; unfold Socket.emit; apply Hgone, Hnone.
Qed.

(** X17: [onMount] always ends with [loading] false and the three page
    listeners registered after those already there, whether or not the
    conversation could be loaded.  For an existing conversation a
    successful load installs it with its messages (none if the answer has
    no [messages]); a refused or failed load leaves conversation and
    transcript as they were and sets a non-empty [error]. *)
Theorem onMount_outcomes w :
  let w' := onMount w in
  loading (page w') = false
  /\ Socket.listeners (socket w') = (Socket.listeners (socket w) ++ page_listeners)%list
  /\ Socket.emitted (socket w') = Socket.emitted (socket w)
  /\ (isNewChat conversationId = false ->
      match getConversation conversationId with
      | Normal response =>
          if status response then
            conversation (page w') = Some (Types.data response)
            /\ messages (page w')
               = default [] (Conversation.messages (Types.data response))
            /\ error (page w') = error (page w)
          else
            conversation (page w') = conversation (page w)
            /\ messages (page w') = messages (page w)
            /\ exists e, error (page w') = Some e /\ e <> ""
      | Throw _ =>
          conversation (page w') = conversation (page w)
          /\ messages (page w') = messages (page w)
          /\ exists e, error (page w') = Some e /\ e <> ""
      end)
  /\ (isNewChat conversationId = true ->
      messages (page w') = messages (page w)
      /\ error (page w') = error (page w)
      /\ exists draft, conversation (page w') = Some draft
           /\ Conversation.id draft = "new"
           /\ Conversation.model_id draft
              = match selectedModel with Some m => Model.id m | None => "" end).
Proof.
  cbv zeta. split; [|split; [|split; [|split]]].
  - unfold Page.onMount. reflexivity.
  - rewrite onMount_socket. reflexivity.
  - rewrite onMount_socket. reflexivity.
  - intros Hold. unfold Page.onMount. rewrite Hold. cbn [negb].
    destruct (getConversation conversationId) as [response|e];
      [destruct (status response)|]; cbn.
    + repeat split; reflexivity.
    + repeat split; try reflexivity. eexists. split; [reflexivity|].
      unfold error_message. destruct (Types.error response); [|discriminate].
      apply or_else_nonempty. discriminate.
    + repeat split; try reflexivity. eexists. split; [reflexivity|discriminate].
  - intros Hnew. unfold Page.onMount. rewrite Hnew. cbn.
    repeat split; try reflexivity. eexists. split; [reflexivity|].
    split; [reflexivity|]. simpl. destruct selectedModel as [m|]; [|reflexivity].
    unfold or_else. destruct (String.eqb_spec (Model.id m) ""); congruence.
Qed.

End ChatPageMount.

Section ChatPageMountExamples.
Import Js Types ChatPage Page.

Lemma mount_then_destroy_example :
  socket (ChatPage.onDestroy "c1"
            (Page.onMount "c1" (fun _ => Samples.ok (Examples.chat "c1" "sky")) None
               "2024-01-01T00:00:00.000Z" "2024-01-01T00:00:00.000Z"
               Samples.unmounted))
  = {| Socket.listeners := []; Socket.emitted := [] |}.
Proof.
  apply (mount_then_destroy "c1" (fun _ => Samples.ok (Examples.chat "c1" "sky")) None
           "2024-01-01T00:00:00.000Z" "2024-01-01T00:00:00.000Z" Samples.unmounted).
  - intros e _ H. inversion H.
  - reflexivity.
Defined.

Lemma pushed_messages_example :
  let w1 := Page.onMount "c1" (fun _ => Samples.ok (Examples.chat "c1" "sky")) None
              "2024-01-01T00:00:00.000Z" "2024-01-01T00:00:00.000Z"
              Samples.unmounted in
  messages (page (ChatPage.deliver "c1" Examples.t1
                    (chat_message "c1" Samples.hello) w1))
    = [Samples.hello]
  /\ messages (page (ChatPage.deliver "c1" Examples.t1
                       (chat_message "c2" Samples.hello) w1))
     = [].
Proof.
  cbv zeta. split.
  - exact (proj1 (pushed_messages_are_filtered "c1"
                    (fun _ => Samples.ok (Examples.chat "c1" "sky")) None
                    "2024-01-01T00:00:00.000Z" "2024-01-01T00:00:00.000Z"
                    Examples.t1 "c1" Samples.hello Samples.unmounted eq_refl)).
  - exact (proj1 (pushed_messages_are_filtered "c1"
                    (fun _ => Samples.ok (Examples.chat "c1" "sky")) None
                    "2024-01-01T00:00:00.000Z" "2024-01-01T00:00:00.000Z"
                    Examples.t1 "c2" Samples.hello Samples.unmounted eq_refl)).
Defined.

End ChatPageMountExamples.

(** * Properties of the axios instance and of the auth methods *)

Section AxiosFacts.
Import Js ApiClient Axios.

Lemma requestInterceptor_request req b : request (requestInterceptor req b) = req.
Proof.
  unfold requestInterceptor. destruct (storage b !! "auth_token") as [tok|];
    [destruct (String.eqb tok "")|]; reflexivity.
Qed.

Lemma authorization_of_token req b tok :
  storage b !! "auth_token" = Some tok -> tok <> "" ->
  authorization (requestInterceptor req b) = Some ("Bearer " +:+ tok).
Proof.
  intros H Hne. unfold requestInterceptor. rewrite H.
  apply String.eqb_neq in Hne. rewrite Hne. reflexivity.
Qed.

Lemma authorization_without_token req b :
  storage b !! "auth_token" = None ->
  authorization (requestInterceptor req b) = None.
Proof. intros H. unfold requestInterceptor. rewrite H. reflexivity. Qed.

(** ToString at work: integers up to [2 ^ 53] in full, the nearest
    double beyond, exponent notation from [1e21] on; arrays joined, holes
    for [null]; an object with a [toString] of its own cannot be
    converted. *)
Lemma to_string_examples :
  number_to_string 42 = "42"
  /\ number_to_string (-7) = "-7"
  /\ number_to_string (2 ^ 53 + 1) = "9007199254740992"
  /\ number_to_string (2 ^ 64) = "18446744073709552000"
  /\ number_to_string (10 ^ 21) = "1e+21"
  /\ number_to_string (2 ^ 70) = "1.1805916207174113e+21"
  /\ to_string (JsArray [JsNumber 1; JsNull; JsString "a"]) = Normal "1,,a"
  /\ to_string (JsObject [("token", JsString "abc")]) = Normal "[object Object]"
  /\ (exists e, to_string (JsObject [("toString", JsNull)]) = Throw e).
Proof. vm_compute. repeat split. eexists. reflexivity. Qed.

(** X18: after a login that the server answers with a 2xx body in which
    [data.token] can be read and turned into a non-empty string, the
    client returns that body, keeps the location, and every later request
    carries [Authorization: Bearer <token>], where [<token>] is that
    string (the token itself when it is a string, ["undefined"] when the
    body has none); after [logout] requests carry no [Authorization]. *)
Theorem login_authorizes_requests server email password b r tok stored req :
  server (requestInterceptor
            {| method := POST; url := "/auth/login";
               body := credentials email password |} b) = Resolved r ->
  bind (get (data r) "data") (fun d => get d "token") = Normal tok ->
  to_string tok = Normal stored ->
  stored <> "" ->
  let b1 := snd (login server email password b) in
  fst (login server email password b) = Normal (data r)
  /\ location b1 = location b
  /\ authorization (requestInterceptor req b1) = Some ("Bearer " +:+ stored)
  /\ authorization (requestInterceptor req (logout b1)) = None
  /\ (forall s, tok = JsString s -> stored = s)
  /\ (tok = JsUndefined -> stored = "undefined").
Proof.
  intros Hserver Htoken Hstored Hne. cbv zeta. unfold login, axiosInstance.
  rewrite Hserver. cbn [responseInterceptor]. rewrite Htoken, Hstored.
  cbn [fst snd location].
  split; [reflexivity|]. split; [reflexivity|]. split; [|split; [|split]].
  - apply authorization_of_token; [|exact Hne]. apply lookup_insert_eq.
  - apply authorization_without_token. apply lookup_delete_eq.
  - intros s ->. cbn in Hstored. congruence.
  - intros ->. cbn in Hstored. congruence.
Qed.

Lemma login_tokenless_example :
  authorization
    (requestInterceptor {| method := GET; url := "/models"; body := JsUndefined |}
       (snd (login Samples.tokenless "ada@example.org" "secret" Samples.signed_in)))
  = Some "Bearer undefined".
Proof.
  refine (proj1 (proj2 (proj2
    (login_authorizes_requests Samples.tokenless "ada@example.org" "secret"
       Samples.signed_in _ JsUndefined "undefined" _ eq_refl eq_refl eq_refl _)))).
  discriminate.
Defined.

(** X19: a request answered with status 401 signs the browser out: the
    caller still gets the rejection, [auth_token] is removed from local
    storage (every other key is kept), the location becomes ["/login"],
    and later requests carry no [Authorization]. *)
Theorem unauthorized_answer_signs_out server req b error r :
  server (requestInterceptor req b) = Rejected error ->
  response error = Some r ->
  http_status r = 401 ->
  let b' := snd (axiosInstance server req b) in
  fst (axiosInstance server req b) = Rejected error
  /\ storage b' !! "auth_token" = None
  /\ (forall k, k <> "auth_token" -> storage b' !! k = storage b !! k)
  /\ location b' = "/login"
  /\ (forall req', authorization (requestInterceptor req' b') = None).
Proof.
  intros Hserver Hresponse Hstatus. cbv zeta. unfold axiosInstance.
  rewrite Hserver. cbn [responseInterceptor]. rewrite Hresponse, Hstatus.
  cbn [Z.eqb Pos.eqb fst snd storage location].
  split; [reflexivity|]. split; [apply lookup_delete_eq|].
  split; [intros k Hk; apply lookup_delete_ne; congruence|].
  split; [reflexivity|].
  intros req'. apply authorization_without_token. apply lookup_delete_eq.
Qed.

Lemma unauthorized_example :
  storage (snd (getUserProfile Samples.unauthorized Samples.signed_in))
  = {[ "selected_model_id" := "m" ]}
  /\ location (snd (getUserProfile Samples.unauthorized Samples.signed_in)) = "/login".
Proof.
  destruct (unauthorized_answer_signs_out Samples.unauthorized
              {| method := GET; url := "/auth/me"; body := JsUndefined |}
              Samples.signed_in _ _ eq_refl eq_refl eq_refl)
    as (_ & _ & _ & Hlocation & _).
  split; [|exact Hlocation].
  apply map_eq. intros k. unfold getUserProfile, axiosInstance. simpl.
  destruct (decide (k = "auth_token")) as [->|Hk].
  - rewrite lookup_delete_eq. reflexivity.
  - rewrite lookup_delete_ne by congruence.
    rewrite lookup_insert_ne by congruence. reflexivity.
Defined.

(** X20: [login] never throws, and a failed login stores nothing.  When
    the server rejects without a 401, the browser is untouched and the
    caller gets [handleError]'s result; when the server answers 2xx but
    the body, or its [data], is [null] or [undefined], the browser is
    untouched and the caller gets the failure-tagged result with code
    ["unknown_error"]. *)
Theorem login_failure_stores_nothing server email password b :
  let settled := server (requestInterceptor
                           {| method := POST; url := "/auth/login";
                              body := credentials email password |} b) in
  (exists v, fst (login server email password b) = Normal v)
  /\ match settled with
     | Rejected error =>
         fst (login server email password b) = Normal (handleError error)
         /\ ((forall r, response error = Some r -> http_status r <> 401) ->
             snd (login server email password b) = b)
     | Resolved r =>
         (forall e, bind (get (data r) "data") (fun d => get d "token") = Throw e ->
            snd (login server email password b) = b
            /\ exists v, fst (login server email password b) = Normal v
                         /\ isTaggedResult v = true
                         /\ errorCode v = Some (JsString "unknown_error"))
     end.
Proof.
  cbv zeta. unfold login, axiosInstance.
  destruct (server _) as [r|error]; cbn [responseInterceptor].
  - destruct (bind (get (data r) "data") (fun d => get d "token")) as [tok|e] eqn:E.
    + destruct (to_string tok); (split; [eauto|]); intros e0 H; discriminate.
    + split; [eauto|]. intros e' H. injection H as <-.
      split; [reflexivity|]. eexists. split; [reflexivity|].
      assert (Hnone : response e = None).
      { unfold bind in E. unfold get in E.
        destruct (data r); try discriminate;
          try (injection E as <-; reflexivity);
          match type of E with
          | context [default JsUndefined ?o] =>
              destruct (default JsUndefined o); try discriminate;
              injection E as <-; reflexivity
          end. }
      unfold handleError. rewrite Hnone. apply unknown_error_result_tagged.
  - destruct (response error) as [r|] eqn:E.
    + destruct (http_status r =? 401) eqn:E401; cbn [fst snd].
      * split; [eauto|]. split; [reflexivity|]. intros H.
        apply Z.eqb_eq in E401. exfalso. exact (H r eq_refl E401).
      * split; [eauto|]. split; reflexivity.
    + cbn [fst snd]. split; [eauto|]. split; reflexivity.
Qed.

End AxiosFacts.

Section AuthStoreFacts.
Import Js Types AuthStore.

(** X21: [checkAuth] resolves to [true] exactly when it runs in the
    browser, a non-empty token is stored and the profile request is
    answered with a true [status].  It always ends not loading, with
    [isAuthenticated] equal to its result; when it resolves to [false] no
    user is kept and the socket is not connected, and if a non-empty
    token had been stored (in the browser) that token is removed. *)
Theorem checkAuth_outcome browser api w :
  let w' := fst (checkAuth browser api w) in
  let ok := snd (checkAuth browser api w) in
  (ok = true <->
   browser = true
   /\ exists stored response,
        storage w !! "auth_token" = Some stored /\ stored <> ""
        /\ fst (api (storage w)) = Normal response /\ status response = true)
  /\ isLoading (state w') = false
  /\ isAuthenticated (state w') = ok
  /\ (ok = false ->
      current (state w') = None
      /\ calls w' = calls w
      /\ (browser = true ->
          forall stored, storage w !! "auth_token" = Some stored -> stored <> "" ->
                         storage w' !! "auth_token" = None))
  /\ (ok = true -> calls w' = (calls w ++ [connectSocket])%list).
Proof.
  cbv zeta. unfold checkAuth. destruct browser; cbn [negb].
  2: { repeat split; try reflexivity; try discriminate.
       intros [Hq _]. discriminate. }
  destruct (storage w !! "auth_token") as [stored|] eqn:Es.
  2: { repeat split; try reflexivity; try discriminate;
         try (intros; congruence).
       intros (_ & ? & ? & Hq & _). discriminate. }
  destruct (String.eqb_spec stored "") as [->|Hne].
  { repeat split; try reflexivity; try discriminate;
      try (intros; congruence).
    intros (_ & s & r & Hq & Hs & _). congruence. }
  destruct (api (storage w)) as [answer storage'] eqn:Eapi.
  destruct answer as [response|e]; [destruct (status response) eqn:Est|];
    cbn [fst snd state storage calls isLoading isAuthenticated current];
    repeat split; try reflexivity; try discriminate;
    try (intros; apply lookup_delete_eq);
    try (intros (_ & s & r & Hq1 & Hq2 & Hq3 & Hq4); cbn in *; congruence).
  exists stored, response. auto.
Qed.

Lemma checkAuth_example :
  snd (checkAuth true (fun s => (Samples.ok Samples.ada, s)) Samples.fresh_auth) = true
  /\ snd (checkAuth true
            (fun s => (Normal (mkApiResponse false Samples.ada None), s))
            Samples.fresh_auth) = false.
Proof.
  split.
  - destruct (checkAuth_outcome true (fun s => (Samples.ok Samples.ada, s))
                Samples.fresh_auth) as ([_ Hyes] & _).
    apply Hyes. split; [reflexivity|].
    exists "abc", (mkApiResponse true Samples.ada None).
    split; [reflexivity|]. split; [discriminate|]. split; reflexivity.
  - reflexivity.
Defined.

(** X22: a successful [login] in the browser leaves the store
    authenticated, not loading, with the answer's user, the answer's
    token under ["auth_token"] (whatever the client had stored there) and
    the socket asked to connect; a [logout] after it leaves the store
    signed out, without token, and the socket asked to disconnect; a
    refused login changes neither the store value nor the socket. *)
Theorem login_then_logout api email password w :
  match fst (api email password (storage w)) with
  | Normal response =>
      if status response then
        let w1 := fst (login true api email password w) in
        snd (login true api email password w) = Some true
        /\ state w1 = {| isAuthenticated := true; isLoading := false;
                         current := Some (user (Types.data response)) |}
        /\ storage w1 !! "auth_token" = Some (token (Types.data response))
        /\ calls w1 = (calls w ++ [connectSocket])%list
        /\ state (logout true w1) = signedOut
        /\ storage (logout true w1) !! "auth_token" = None
        /\ calls (logout true w1)
           = (calls w ++ [connectSocket; disconnectSocket])%list
      else
        snd (login true api email password w) = Some false
        /\ state (fst (login true api email password w)) = state w
        /\ calls (fst (login true api email password w)) = calls w
  | Throw _ => snd (login true api email password w) = None
  end.
Proof.
  unfold login. destruct (api email password (storage w)) as [answer storage'].
  destruct answer as [response|e]; cbn [fst];
    [destruct (status response) eqn:Est|]; cbn; rewrite ?Est.
  - repeat split; try reflexivity.
    + apply lookup_insert_eq.
    + apply lookup_delete_eq.
    + rewrite <- app_assoc. reflexivity.
  - repeat split.
  - reflexivity.
Qed.

End AuthStoreFacts.

(** * Properties of the settings store and of the sidebar *)

Section SettingsFacts.
Import Js Types SettingsStore.

Lemma loadSettings_first browser prefersDark api response received st classes :
  hasLoaded st = false ->
  api tt = Normal response ->
  status response = true ->
  Types.data response = Some received ->
  loadSettings browser prefersDark api (st, classes)
  = ({| settings := received; isLoading := false; hasLoaded := true;
        error := error st |},
     if browser
     then applyTheme true prefersDark (or_else (theme (app received)) "system") classes
     else classes,
     true).
Proof.
  intros Hnot Hapi Hstatus Hdata. unfold loadSettings.
  rewrite Hnot, Hapi, Hstatus, Hdata. destruct browser; reflexivity.
Qed.

Lemma loadSettings_again browser prefersDark api st classes :
  hasLoaded st = true ->
  loadSettings browser prefersDark api (st, classes)
  = ({| settings := settings st; isLoading := false; hasLoaded := true;
        error := error st |}, classes, true).
Proof. intros H. unfold loadSettings. rewrite H. reflexivity. Qed.

(** X23: settings are fetched once.  After a [loadSettings] that was
    answered with a true [status] and settings, a second [loadSettings]
    resolves to [true] whatever the API would answer, and leaves the
    store and the document classes exactly as the first call left them,
    with the received settings. *)
Theorem settings_load_once browser prefersDark api1 api2 response received st classes :
  hasLoaded st = false ->
  api1 tt = Normal response ->
  status response = true ->
  Types.data response = Some received ->
  let r1 := loadSettings browser prefersDark api1 (st, classes) in
  let r2 := loadSettings browser prefersDark api2 (fst r1) in
  snd r1 = true
  /\ settings (fst (fst r1)) = received
  /\ hasLoaded (fst (fst r1)) = true
  /\ snd r2 = true
  /\ fst r2 = fst r1.
Proof.
  intros Hnot Hapi Hstatus Hdata. cbv zeta.
  rewrite (loadSettings_first browser prefersDark api1 response received st classes)
    by assumption.
  cbn [fst snd]. rewrite loadSettings_again by reflexivity.
  repeat split; reflexivity.
Qed.

Lemma settings_load_once_example :
  settings
    (fst (fst (loadSettings true true (fun _ => Throw (TypeError "Network Error"))
                 (fst (loadSettings true true
                         (fun _ => Samples.ok (Some Samples.dark_settings))
                         (initialState, ∅))))))
  = Samples.dark_settings.
Proof.
  destruct (settings_load_once true true
              (fun _ => Samples.ok (Some Samples.dark_settings))
              (fun _ => Throw (TypeError "Network Error"))
              (mkApiResponse true (Some Samples.dark_settings) None)
              Samples.dark_settings initialState ∅ eq_refl eq_refl eq_refl eq_refl)
    as (_ & Hsettings & _ & _ & Hsame).
  cbv zeta in Hsame. rewrite Hsame. exact Hsettings.
Defined.

(** X24: in the browser, an answer with a true [status] but no settings
    is reported as a failure (the method resolves to [false] with the
    error ["Error loading settings"]), yet the store is marked as loaded
    with the default settings; every later [loadSettings] then resolves
    to [true] without asking again. *)
Theorem settings_without_data prefersDark api1 api2 response st classes :
  hasLoaded st = false ->
  api1 tt = Normal response ->
  status response = true ->
  Types.data response = None ->
  let r1 := loadSettings true prefersDark api1 (st, classes) in
  let r2 := loadSettings true prefersDark api2 (fst r1) in
  snd r1 = false
  /\ error (fst (fst r1)) = Some "Error loading settings"
  /\ hasLoaded (fst (fst r1)) = true
  /\ settings (fst (fst r1)) = defaultSettings
  /\ snd (fst r1) = classes
  /\ snd r2 = true
  /\ settings (fst (fst r2)) = defaultSettings.
Proof.
  intros Hnot Hapi Hstatus Hdata. cbv zeta.
  assert (H1 : loadSettings true prefersDark api1 (st, classes)
               = (fail_with "Error loading settings"
                    {| settings := defaultSettings; isLoading := false;
                       hasLoaded := true; error := error st |}, classes, false)).
  { unfold loadSettings. rewrite Hnot, Hapi, Hstatus, Hdata. reflexivity. }
  rewrite H1. cbn [fst snd]. rewrite loadSettings_again by reflexivity.
  repeat split; reflexivity.
Qed.

Lemma settings_without_data_example :
  snd (loadSettings true false (fun _ => @Samples.ok (option UserSettings) None) (initialState, ∅)) = false
  /\ hasLoaded (fst (fst (loadSettings true false (fun _ => @Samples.ok (option UserSettings) None)
                            (initialState, ∅)))) = true.
Proof.
  destruct (settings_without_data false (fun _ => @Samples.ok (option UserSettings) None)
              (fun _ => @Samples.ok (option UserSettings) None) (@mkApiResponse (option UserSettings) true None None)
              initialState ∅ eq_refl eq_refl eq_refl eq_refl)
    as (Hresult & _ & Hloaded & _).
  split; [exact Hresult | exact Hloaded].
Defined.

(** X25: [applyTheme] leaves the document with exactly one of the classes
    [light] and [dark] when the theme is ["light"], ["dark"] or
    ["system"] (for ["system"], the one the system prefers), keeps every
    other class, and applying the same theme twice is the same as
    applying it once; outside the browser it does nothing. *)
Theorem applyTheme_one_class prefersDark theme classes :
  theme = "light" \/ theme = "dark" \/ theme = "system" ->
  let shown : string :=
    if String.eqb theme "system"
    then (if prefersDark : bool then "dark" else "light") else theme in
  let classes' := applyTheme true prefersDark theme classes in
  shown ∈ classes'
  /\ ("light" ∈ classes' <-> "dark" ∉ classes')
  /\ (forall k, k <> "light" -> k <> "dark" -> k ∈ classes' <-> k ∈ classes)
  /\ applyTheme true prefersDark theme classes' = classes'
  /\ applyTheme false prefersDark theme classes = classes.
Proof.
  intros Htheme. cbv zeta. unfold applyTheme. cbn [negb].
  assert (Hld : "light" <> "dark") by discriminate.
  destruct Htheme as [-> | [-> | ->]]; cbn [String.eqb Ascii.eqb Bool.eqb];
    [| |destruct prefersDark]; cbn;
    (split; [set_unfold; intuition congruence|]); (split; [set_unfold; intuition congruence|]);
    (split; [set_unfold; intuition congruence|]);
    (split; [apply set_eq; intros k; set_unfold; intuition congruence|reflexivity]).
Qed.

Lemma applyTheme_example :
  applyTheme true true "system" {[ "light"; "h-full" ]} = {[ "dark"; "h-full" ]}.
Proof.
  destruct (applyTheme_one_class true "system" {[ "light"; "h-full" ]})
    as (_ & _ & _ & _); [auto|].
  apply set_eq. intros k. unfold applyTheme. cbn.
  assert (Hld : "light" <> "dark") by discriminate.
  assert (Hlh : "light" <> "h-full") by discriminate.
  assert (Hdh : "dark" <> "h-full") by discriminate.
  set_solver.
Defined.

(** X26: [setTheme], [toggleFeature] and [resetSettings] never update the
    settings: each of them ends by calling [this.updateSettings] where
    [this] is [undefined], so the returned promise is rejected and the
    store is left as it was; [setTheme] has by then applied the theme to
    the document (in the browser), the other two change nothing. *)
Theorem settings_setters_reject browser prefersDark theme feature st classes :
  (exists e, snd (setTheme browser prefersDark theme (st, classes)) = Throw e)
  /\ fst (setTheme browser prefersDark theme (st, classes))
     = (st, applyTheme browser prefersDark theme classes)
  /\ (exists e, snd (toggleFeature feature (st, classes)) = Throw e)
  /\ fst (toggleFeature feature (st, classes)) = (st, classes)
  /\ (exists e, snd (resetSettings (st, classes)) = Throw e)
  /\ fst (resetSettings (st, classes)) = (st, classes).
Proof.
  unfold setTheme, toggleFeature, resetSettings, this_updateSettings, applyTheme.
  destruct browser; cbn; repeat split; eauto.
Qed.

End SettingsFacts.

Section SidebarFacts.
Import Js Types Sidebar.

Lemma prefix_spec (sub s : string) :
  String.prefix sub s = true <-> exists b, s = sub +:+ b.
Proof.
  revert s. induction sub as [|c sub IH]; intros s.
  - split; [intros _; exists s; reflexivity | intros _; destruct s; reflexivity].
  - destruct s as [|c' s]; simpl.
    + split; [discriminate | intros [b H]; discriminate].
    + destruct (Ascii.ascii_dec c c') as [->|Hc].
      * rewrite IH. split; intros [b H]; exists b.
        -- change (String c' sub +:+ b) with (String c' (sub +:+ b)). congruence.
        -- change (String c' sub +:+ b) with (String c' (sub +:+ b)) in H. congruence.
      * split; [discriminate|]. intros [b H].
        change (String c sub +:+ b) with (String c (sub +:+ b)) in H. congruence.
Qed.

Lemma includes_spec (sub s : string) :
  includes sub s = true <-> exists a b, s = a +:+ sub +:+ b.
Proof.
  induction s as [|c s IH].
  - cbn [includes]. rewrite orb_false_r, prefix_spec. split.
    + intros [b H]. exists "", b. exact H.
    + intros [a [b H]]. destruct a as [|c a]; [exists b; exact H|].
      change (String c a +:+ sub +:+ b) with (String c (a +:+ sub +:+ b)) in H.
      discriminate.
  - cbn [includes]. rewrite orb_true_iff, prefix_spec, IH. split.
    + intros [[b H] | [a [b H]]].
      * exists "", b. exact H.
      * exists (String c a), b.
        change (String c a +:+ sub +:+ b) with (String c (a +:+ sub +:+ b)).
        congruence.
    + intros [a [b H]]. destruct a as [|c' a].
      * left. exists b. exact H.
      * right. exists a, b.
        change (String c' a +:+ sub +:+ b) with (String c' (a +:+ sub +:+ b)) in H.
        congruence.
Qed.

Lemma filter_filter_same {A} (f : A -> bool) (l : list A) :
  List.filter f (List.filter f l) = List.filter f l.
Proof.
  induction l as [|x l IH]; simpl; [reflexivity|].
  destruct (f x) eqn:E; simpl; [rewrite E, IH|]; auto.
Qed.

(** X27: the sidebar shows a sub-list of the conversations, in their
    order: all of them when the trimmed search query is empty, and
    otherwise exactly those whose lower-cased title contains the
    lower-cased query (untrimmed) as a contiguous run of code units;
    filtering what is shown by the same query changes nothing. *)
Theorem filteredConversations_spec trim toLowerCase searchQuery conversations :
  let shown := filteredConversations trim toLowerCase searchQuery conversations in
  sublist shown conversations
  /\ (trim searchQuery = "" -> shown = conversations)
  /\ (trim searchQuery <> "" ->
      forall c, c ∈ shown <->
        c ∈ conversations
        /\ exists a b, toLowerCase (Conversation.title c)
                       = a +:+ toLowerCase searchQuery +:+ b)
  /\ filteredConversations trim toLowerCase searchQuery shown = shown.
Proof.
  cbv zeta. unfold filteredConversations.
  destruct (String.eqb_spec (trim searchQuery) "") as [E|E]; cbn [negb].
  - split; [reflexivity|]. split; [reflexivity|]. split; [contradiction|reflexivity].
  - split; [apply filter_sublist|]. split; [contradiction|]. split.
    + intros _ c. rewrite !list_elem_of_In, filter_In, includes_spec. reflexivity.
    + apply filter_filter_same.
Qed.

End SidebarFacts.

(** ** Objects as property lists *)

Section ObjectFacts.
Import Js Objects.

Lemma rev_reverse {A} (l : list A) : rev l = reverse l.
Proof. unfold reverse. apply rev_alt. Qed.

Lemma get_set_field {A} (k k' : string) (v : A) fields :
  get_field k (set_field k' v fields)
  = if String.eqb k k' then Some v else get_field k fields.
Proof.
  induction fields as [|[k0 v0] rest IH]; cbn.
  - destruct (String.eqb k k'); reflexivity.
  - destruct (String.eqb k' k0) eqn:E0; cbn.
    + apply String.eqb_eq in E0. subst k0.
      destruct (String.eqb k k'); reflexivity.
    + destruct (String.eqb k k0) eqn:E1.
      * apply String.eqb_eq in E1. subst k0.
        rewrite String.eqb_sym, E0. reflexivity.
      * exact IH.
Qed.

Lemma assign_snoc {A} (a b : list (string * A)) e :
  assign a (b ++ [e]) = set_field (fst e) (snd e) (assign a b).
Proof. unfold assign. rewrite fold_left_app. reflexivity. Qed.

(** A property of [{ ...a, ...b }] is [b]'s (its last binding) when [b]
    has it, and [a]'s otherwise. *)
Lemma get_assign {A} (k : string) (a b : list (string * A)) :
  get_field k (assign a b)
  = match get_field k (rev b) with
    | Some v => Some v
    | None => get_field k a
    end.
Proof.
  induction b as [|[k' v] b IH] using rev_ind; [reflexivity|].
  rewrite assign_snoc, rev_unit, get_set_field. cbn.
  destruct (String.eqb k k'); [reflexivity|exact IH].
Qed.

Lemma get_field_elem_of {A} (k : string) (v : A) fields :
  get_field k fields = Some v -> (k, v) ∈ fields.
Proof.
  induction fields as [|[k0 v0] rest IH]; cbn; [discriminate|].
  destruct (String.eqb k k0) eqn:E.
  - apply String.eqb_eq in E. intros [= ->]. subst. left.
  - intros H. right. auto.
Qed.

Lemma get_field_None {A} (k : string) (fields : list (string * A)) :
  get_field k fields = None <-> k ∉ fields.*1.
Proof.
  induction fields as [|[k0 v0] rest IH]; cbn.
  - split; [intros _; apply not_elem_of_nil|reflexivity].
  - rewrite not_elem_of_cons. destruct (String.eqb k k0) eqn:E.
    + apply String.eqb_eq in E. split; [discriminate|intros []; contradiction].
    + apply String.eqb_neq in E. rewrite IH. tauto.
Qed.

Lemma get_field_nodup {A} (k : string) (v : A) fields :
  NoDup fields.*1 -> (k, v) ∈ fields -> get_field k fields = Some v.
Proof.
  induction fields as [|[k0 v0] rest IH]; cbn; intros Hnd Hin.
  - apply elem_of_nil in Hin. contradiction.
  - apply NoDup_cons in Hnd as [Hk0 Hnd].
    apply elem_of_cons in Hin as [Heq|Hin].
    + injection Heq as -> ->. rewrite String.eqb_refl. reflexivity.
    + destruct (String.eqb k k0) eqn:E.
      * apply String.eqb_eq in E. subst k0. exfalso. apply Hk0.
        apply (list_elem_of_fmap_2 fst _ (k, v)). exact Hin.
      * auto.
Qed.

Lemma set_field_same {A} (k : string) (v : A) fields :
  get_field k fields = Some v -> set_field k v fields = fields.
Proof.
  induction fields as [|[k0 v0] rest IH]; cbn; [discriminate|].
  destruct (String.eqb k k0) eqn:E.
  - apply String.eqb_eq in E. intros [= ->]. subst. reflexivity.
  - intros H. rewrite IH by exact H. reflexivity.
Qed.

Lemma assign_fixed {A} (a b : list (string * A)) :
  (forall e, e ∈ b -> get_field (fst e) a = Some (snd e)) -> assign a b = a.
Proof.
  induction b as [|e b IH] using rev_ind; [reflexivity|].
  intros H. rewrite assign_snoc, IH.
  - apply set_field_same, H, elem_of_app. right. left.
  - intros e' He'. apply H, elem_of_app. left. exact He'.
Qed.

(** Spreading the same object twice is spreading it once. *)
Lemma assign_idem {A} (a b : list (string * A)) :
  NoDup b.*1 -> assign (assign a b) b = assign a b.
Proof.
  intros Hnd. apply assign_fixed. intros [k v] Hin. cbn.
  rewrite get_assign.
  rewrite (get_field_nodup k v (rev b)); [reflexivity| |].
  - rewrite rev_reverse, fmap_reverse, reverse_Permutation. exact Hnd.
  - rewrite rev_reverse. apply elem_of_reverse. exact Hin.
Qed.

Lemma set_field_keys {A} (k : string) (v : A) fields :
  is_Some (get_field k fields) -> (set_field k v fields).*1 = fields.*1.
Proof.
  induction fields as [|[k0 v0] rest IH]; cbn; intros H.
  - destruct H as [? H]. discriminate.
  - destruct (String.eqb k k0) eqn:E; cbn.
    + apply String.eqb_eq in E. subst. reflexivity.
    + rewrite IH by exact H. reflexivity.
Qed.

Lemma assign_keys {A} (a b : list (string * A)) :
  (forall e, e ∈ b -> is_Some (get_field (fst e) a)) ->
  (assign a b).*1 = a.*1.
Proof.
  induction b as [|e b IH] using rev_ind; [reflexivity|].
  intros H. rewrite assign_snoc.
  assert (Hb : (assign a b).*1 = a.*1).
  { apply IH. intros e' He'. apply H, elem_of_app. left. exact He'. }
  rewrite set_field_keys; [exact Hb|].
  rewrite get_assign. destruct (get_field (fst e) (rev b)); [eauto|].
  apply H, elem_of_app. right. left.
Qed.

Lemma set_field_new {A} (k : string) (v : A) fields :
  get_field k fields = None -> (set_field k v fields).*1 = (fields.*1 ++ [k])%list.
Proof.
  induction fields as [|[k0 v0] rest IH]; [reflexivity|]. cbn.
  destruct (String.eqb k k0) eqn:E; [discriminate|]. intros H. cbn.
  rewrite IH by exact H. reflexivity.
Qed.

(** The keys of [{ ...a, ...b }]: those of [a] in their places, then the
    keys that only [b] has. *)
Lemma assign_keys_added {A} (a b : list (string * A)) :
  exists added,
    (assign a b).*1 = (a.*1 ++ added)%list
    /\ forall k, k ∈ added -> k ∈ b.*1 /\ get_field k a = None.
Proof.
  induction b as [|[k v] b IH] using rev_ind.
  - exists []. split; [cbn; rewrite app_nil_r; reflexivity|].
    intros k Hk. inversion Hk.
  - destruct IH as (added & Hkeys & Hadded). rewrite assign_snoc. cbn [fst snd].
    destruct (get_field k (assign a b)) as [v0|] eqn:E.
    + exists added. split.
      * rewrite set_field_keys by eauto. exact Hkeys.
      * intros k' Hk'. destruct (Hadded k' Hk') as [H1 H2]. split; [|exact H2].
        rewrite fmap_app. apply elem_of_app. left. exact H1.
    + exists (added ++ [k])%list. split.
      * rewrite set_field_new by exact E. rewrite Hkeys, app_assoc. reflexivity.
      * intros k' Hk'. apply elem_of_app in Hk' as [Hk'|Hk'].
        -- destruct (Hadded k' Hk') as [H1 H2]. split; [|exact H2].
           rewrite fmap_app. apply elem_of_app. left. exact H1.
        -- apply list_elem_of_singleton in Hk'. subst k'. split.
           ++ rewrite fmap_app. apply elem_of_app. right. left.
           ++ rewrite get_assign in E.
              destruct (get_field k (rev b)); [discriminate|exact E].
Qed.

Lemma set_field_nodup {A} (k : string) (v : A) fields :
  NoDup fields.*1 -> NoDup (set_field k v fields).*1.
Proof.
  intros Hnd. destruct (get_field k fields) as [v0|] eqn:E.
  - rewrite set_field_keys by eauto. exact Hnd.
  - apply get_field_None in E.
    assert (Hs : (set_field k v fields).*1 = (fields.*1 ++ [k])%list).
    { clear Hnd. induction fields as [|[k0 v0] rest IH]; [reflexivity|].
      cbn in E. apply not_elem_of_cons in E as [Hne Hrest]. cbn.
      apply String.eqb_neq in Hne. rewrite Hne. cbn. rewrite IH by exact Hrest.
      reflexivity. }
    rewrite Hs. apply NoDup_app. split; [exact Hnd|]. split.
    + intros x Hx Hx'. apply list_elem_of_singleton in Hx'. subst. contradiction.
    + apply NoDup_singleton.
Qed.

Lemma get_field_rev {A} (k : string) (fields : list (string * A)) :
  NoDup fields.*1 -> get_field k (rev fields) = get_field k fields.
Proof.
  intros Hnd. destruct (get_field k fields) as [v|] eqn:E.
  - apply get_field_nodup.
    + rewrite rev_reverse, fmap_reverse, reverse_Permutation. exact Hnd.
    + rewrite rev_reverse. apply elem_of_reverse, get_field_elem_of. exact E.
  - apply get_field_None. rewrite rev_reverse, fmap_reverse, elem_of_reverse.
    apply get_field_None. exact E.
Qed.

End ObjectFacts.

(** ** The settings store: [updateSettings] *)

Section SettingsUpdateFacts.
Import Js Types Objects SettingsStore.

Lemma applyTheme_idem browser prefersDark theme classes :
  applyTheme browser prefersDark theme
    (applyTheme browser prefersDark theme classes)
  = applyTheme browser prefersDark theme classes.
Proof.
  unfold applyTheme. destruct browser; cbn [negb]; [|reflexivity].
  destruct (String.eqb theme "system"); apply set_eq; intros k;
    set_unfold; tauto.
Qed.

Lemma spread_app_idem a p : spread_app (spread_app a p) p = spread_app a p.
Proof.
  destruct p as [[t l d]|]; [|reflexivity]. destruct a as [t0 l0 d0].
  destruct t, l, d; reflexivity.
Qed.

Lemma spread_features_idem f p :
  spread_features (spread_features f p) p = spread_features f p.
Proof.
  destruct p as [[a b c]|]; [|reflexivity]. destruct f as [a0 b0 c0].
  destruct a, b, c; reflexivity.
Qed.

(** X28: [updateSettings] always ends not loading and never changes
    [hasLoaded].  When it resolves to [true], the flattened settings were
    accepted by the API, [error] is as before, a section the patch does
    not name is unchanged, a theme named by the patch is the new theme,
    the settings of a model named by the patch are replaced as a whole by
    the patch's (they are not merged property by property) while those of
    the other models are kept, and the document shows the patch's theme
    when it names a non-empty one.  When it resolves to [false], settings
    and document are unchanged and a non-empty error is set. *)
Theorem updateSettings_outcomes browser prefersDark api newSettings st classes :
  let r := updateSettings browser prefersDark api newSettings (st, classes) in
  let st' := fst (fst r) in
  let classes' := snd (fst r) in
  isLoading st' = false
  /\ hasLoaded st' = hasLoaded st
  /\ (snd r = true ->
      (exists flat response,
          flatten newSettings = Normal flat
          /\ api flat = Normal response /\ status response = true)
      /\ error st' = error st
      /\ (new_app newSettings = None -> app (settings st') = app (settings st))
      /\ (new_models newSettings = None ->
          models (settings st') = models (settings st))
      /\ (new_features newSettings = None ->
          features (settings st') = features (settings st))
      /\ (forall a t, new_app newSettings = Some a -> new_theme a = Some t ->
                      theme (app (settings st')) = t)
      /\ (forall modelId,
            get_field modelId (models (settings st'))
            = match get_field modelId (rev (default [] (new_models newSettings))) with
              | Some o => Some o
              | None => get_field modelId (models (settings st))
              end)
      /\ classes' = match theme_to_apply newSettings with
                    | Some t => applyTheme browser prefersDark t classes
                    | None => classes
                    end)
  /\ (snd r = false ->
      settings st' = settings st
      /\ classes' = classes
      /\ exists e, error st' = Some e /\ e <> "").
Proof.
  cbv zeta. unfold updateSettings.
  destruct (flatten newSettings) as [flat|e] eqn:Eflat; cbn [bind].
  - destruct (api flat) as [response|e] eqn:Eapi.
    + destruct (status response) eqn:Est; cbn [fst snd isLoading hasLoaded settings
                                                 error fail_with].
      * split; [reflexivity|]. split; [reflexivity|]. split; [|discriminate].
        intros _. split; [exists flat, response; auto|].
        split; [reflexivity|]. cbn [app models features].
        split; [intros ->; reflexivity|].
        split; [intros ->; reflexivity|].
        split; [intros ->; reflexivity|].
        split; [intros a t -> Ht; cbn; rewrite Ht; reflexivity|].
        split; [intros modelId; apply get_assign|].
        destruct (theme_to_apply newSettings); [|reflexivity].
        destruct browser; reflexivity.
      * split; [reflexivity|]. split; [reflexivity|]. split; [discriminate|].
        intros _. split; [reflexivity|]. split; [reflexivity|].
        eexists. split; [reflexivity|]. apply error_or_nonempty. discriminate.
    + cbn. split; [reflexivity|]. split; [reflexivity|]. split; [discriminate|].
      intros _. split; [reflexivity|]. split; [reflexivity|].
      eexists. split; [reflexivity|]. discriminate.
  - cbn. split; [reflexivity|]. split; [reflexivity|]. split; [discriminate|].
    intros _. split; [reflexivity|]. split; [reflexivity|].
    eexists. split; [reflexivity|]. discriminate.
Qed.

(** X29: updating the settings twice with the same patch is updating them
    once.  If two [updateSettings] with the same patch (an object names
    each model once) both resolve to [true], the second leaves the store
    and the document classes exactly as the first left them. *)
Theorem updateSettings_twice browser prefersDark api1 api2 newSettings st classes :
  NoDup (default [] (new_models newSettings)).*1 ->
  let r1 := updateSettings browser prefersDark api1 newSettings (st, classes) in
  let r2 := updateSettings browser prefersDark api2 newSettings (fst r1) in
  snd r1 = true -> snd r2 = true -> fst r2 = fst r1.
Proof.
  intros Hnd. cbv zeta. unfold updateSettings.
  destruct (flatten newSettings) as [flat|e]; cbn [bind]; [|discriminate].
  destruct (api1 flat) as [r1|e]; [|discriminate].
  destruct (status r1); [|discriminate]. intros _. cbn [fst snd].
  destruct (api2 flat) as [r2|e]; [|discriminate].
  destruct (status r2); [|discriminate]. intros _.
  cbn [fst snd settings isLoading hasLoaded error app models features].
  rewrite spread_app_idem, spread_features_idem, assign_idem by exact Hnd.
  f_equal.
  destruct (theme_to_apply newSettings) as [t|]; [|reflexivity].
  destruct browser; [|reflexivity]. apply applyTheme_idem.
Qed.

End SettingsUpdateFacts.

Section SettingsUpdateExamples.
Import Js Types Objects SettingsStore.

Lemma updateSettings_twice_example :
  let accept := fun _ : list (string * JsValue) => Samples.ok JsNull in
  let r1 := updateSettings true false accept Samples.darker (initialState, ∅) in
  fst (updateSettings true false accept Samples.darker (fst r1)) = fst r1.
Proof.
  cbv zeta.
  apply (updateSettings_twice true false (fun _ => Samples.ok JsNull)
           (fun _ => Samples.ok JsNull) Samples.darker initialState ∅).
  - cbn. apply NoDup_singleton.
  - reflexivity.
  - reflexivity.
Defined.

End SettingsUpdateExamples.

(** ** The models store: [updateModelParameters] *)

Section ModelParametersFacts.
Import Js Types Objects ModelParameters.

Lemma new_defaults_snoc existing es e :
  new_defaults existing (es ++ [e])
  = if String.eqb (fst e) "__proto__" then new_defaults existing es
    else match parameter_at (fst e) existing with
         | Some p => set_field (fst e) (set_field "default" (snd e) p)
                               (new_defaults existing es)
         | None => new_defaults existing es
         end.
Proof. unfold new_defaults. rewrite fold_left_app. reflexivity. Qed.

Lemma new_defaults_get existing es k :
  get_field k (new_defaults existing es)
  = if String.eqb k "__proto__" then None
    else match parameter_at k existing, get_field k (rev es) with
         | Some p, Some v => Some (set_field "default" v p)
         | _, _ => None
         end.
Proof.
  induction es as [|[k' v] es IH] using rev_ind.
  - cbn. destruct (String.eqb k "__proto__"); [reflexivity|].
    destruct (parameter_at k existing); reflexivity.
  - rewrite new_defaults_snoc, rev_unit. cbn [fst snd get_field].
    destruct (String.eqb k k') eqn:E.
    + apply String.eqb_eq in E. subst k'.
      destruct (String.eqb k "__proto__") eqn:Ep.
      * rewrite IH. rewrite ?Ep. reflexivity.
      * destruct (parameter_at k existing) as [p|] eqn:Epar.
        -- rewrite get_set_field, String.eqb_refl. reflexivity.
        -- rewrite IH. rewrite ?Ep, ?Epar. reflexivity.
    + destruct (String.eqb k' "__proto__"); [exact IH|].
      destruct (parameter_at k' existing) as [p'|].
      * rewrite get_set_field, E. exact IH.
      * exact IH.
Qed.

Lemma new_defaults_nodup existing es : NoDup (new_defaults existing es).*1.
Proof.
  induction es as [|e es IH] using rev_ind; [apply NoDup_nil_2|].
  rewrite new_defaults_snoc. destruct (String.eqb (fst e) "__proto__"); [exact IH|].
  destruct (parameter_at (fst e) existing); [|exact IH].
  apply set_field_nodup, IH.
Qed.

Lemma get_field_keys {A} (k : string) (fields : list (string * A)) :
  k ∈ fields.*1 -> is_Some (get_field k fields).
Proof.
  intros Hk. destruct (get_field k fields) eqn:E; [eauto|].
  apply get_field_None in E. contradiction.
Qed.

(** What the [map] callback does to one model. *)
Lemma update_model_spec modelId given m m' :
  update_model modelId given m = Normal m' ->
  model m' = model m
  /\ (id m <> modelId -> m' = m)
  /\ (id m = modelId ->
      exists es added,
        entries given = Normal es
        /\ (parameters m').*1 = ((parameters m).*1 ++ added)%list
        /\ (forall k, k ∈ added ->
              k ∈ inherited_methods
              /\ get_field k (parameters m) = None
              /\ exists v, get_field k (rev es) = Some v
                           /\ get_field k (parameters m') = Some [("default", v)])
        /\ (forall k p, get_field k (parameters m) = Some p ->
              get_field k (parameters m')
              = Some (if String.eqb k "__proto__" then p
                      else match get_field k (rev es) with
                           | Some v => set_field "default" v p
                           | None => p
                           end))).
Proof.
  unfold update_model. destruct (String.eqb (id m) modelId) eqn:E.
  - apply String.eqb_eq in E.
    destruct (entries given) as [es|e]; cbn [bind]; [|discriminate].
    intros [= <-]. cbn [model parameters].
    split; [reflexivity|]. split; [contradiction|]. intros _.
    destruct (assign_keys_added (parameters m) (new_defaults (parameters m) es))
      as (added & Hkeys & Hadded).
    assert (Hget : forall k,
               get_field k (assign (parameters m) (new_defaults (parameters m) es))
               = match (if String.eqb k "__proto__" then None
                        else match parameter_at k (parameters m),
                                   get_field k (rev es) with
                             | Some p, Some v => Some (set_field "default" v p)
                             | _, _ => None
                             end) with
                 | Some x => Some x
                 | None => get_field k (parameters m)
                 end).
    { intros k. rewrite get_assign.
      rewrite get_field_rev by apply new_defaults_nodup.
      rewrite new_defaults_get. reflexivity. }
    exists es, added. split; [reflexivity|]. split; [exact Hkeys|]. split.
    + intros k Hk. destruct (Hadded k Hk) as [Hin Hnone].
      apply get_field_keys in Hin as [x Hx].
      rewrite new_defaults_get in Hx.
      destruct (String.eqb k "__proto__") eqn:Ep; [discriminate|].
      unfold parameter_at in Hx. rewrite Hnone in Hx.
      destruct (bool_decide (k ∈ inherited_methods)) eqn:Einh; [|discriminate].
      apply bool_decide_eq_true in Einh.
      split; [exact Einh|]. split; [exact Hnone|].
      destruct (get_field k (rev es)) as [v|] eqn:Ev; [|discriminate].
      exists v. split; [reflexivity|].
      rewrite Hget, Ep. unfold parameter_at. rewrite Hnone.
      rewrite (bool_decide_eq_true_2 _ Einh), Ev. reflexivity.
    + intros k p Hp. rewrite Hget. unfold parameter_at. rewrite Hp.
      destruct (String.eqb k "__proto__"); [reflexivity|].
      destruct (get_field k (rev es)); reflexivity.
  - apply String.eqb_neq in E. intros [= <-].
    split; [reflexivity|]. split; [reflexivity|contradiction].
Qed.

Lemma map_completion_Forall2 {A B} (f : A -> Completion B) l l' :
  map_completion f l = Normal l' -> Forall2 (fun x y => f x = Normal y) l l'.
Proof.
  revert l'. induction l as [|x l IH]; cbn; intros l'.
  - intros [= <-]. constructor.
  - destruct (f x) as [y|e] eqn:Ex; cbn [bind]; [|discriminate].
    destruct (map_completion f l) as [ys|e]; cbn [bind]; [|discriminate].
    intros [= <-]. constructor; [exact Ex|apply IH; reflexivity].
Qed.

(** X30: [updateModelParameters] changes the store only when it resolves
    to [true]; [isLoading] and [error] are never touched.  On [true] the
    models are the same, in the same order: a model of another id is
    unchanged; a model of the given id keeps every parameter it had, in
    its place, and each of them that the given object names gets the
    given value as [default] (its other properties kept), the others
    staying as they were.  The only parameters it can gain are named
    after a method every object inherits ([toString], [constructor],
    ...), when the given object has such a key: each is added as
    [{ default: value }].  A selected model that was in the list is still
    in the list afterwards, with the same id. *)
Theorem updateModelParameters_spec api modelId given st :
  let r := updateModelParameters api modelId given st in
  let st' := fst r in
  isLoading st' = isLoading st
  /\ error st' = error st
  /\ (snd r = false -> st' = st)
  /\ (snd r = true ->
      Forall2
        (fun m m' =>
           model m' = model m
           /\ (id m <> modelId -> m' = m)
           /\ (id m = modelId ->
               exists es added,
                 entries given = Normal es
                 /\ (parameters m').*1 = ((parameters m).*1 ++ added)%list
                 /\ (forall k, k ∈ added ->
                       k ∈ inherited_methods
                       /\ get_field k (parameters m) = None
                       /\ exists v, get_field k (rev es) = Some v
                            /\ get_field k (parameters m') = Some [("default", v)])
                 /\ (forall k p, get_field k (parameters m) = Some p ->
                       get_field k (parameters m')
                       = Some (if String.eqb k "__proto__" then p
                               else match get_field k (rev es) with
                                    | Some v => set_field "default" v p
                                    | None => p
                                    end))))
        (models st) (models st')
      /\ (forall s, selectedModel st = Some s -> s ∈ models st ->
            exists s', selectedModel st' = Some s' /\ s' ∈ models st'
                       /\ id s' = id s)
      /\ (selectedModel st = None -> selectedModel st' = None)).
Proof.
  cbv zeta. unfold updateModelParameters.
  destruct (api modelId given) as [response|e];
    [|cbn; split; [reflexivity|]; split; [reflexivity|]; split; [reflexivity|discriminate]].
  destruct (status response);
    [|cbn; split; [reflexivity|]; split; [reflexivity|]; split; [reflexivity|discriminate]].
  destruct (map_completion (update_model modelId given) (models st))
    as [updated|e] eqn:Emap;
    [|cbn; split; [reflexivity|]; split; [reflexivity|]; split; [reflexivity|discriminate]].
  cbn [fst snd isLoading error models selectedModel].
  split; [reflexivity|]. split; [reflexivity|]. split; [discriminate|].
  intros _.
  pose proof (map_completion_Forall2 _ _ _ Emap) as HF0.
  assert (HF : Forall2 (fun m m' => model m' = model m /\ (id m <> modelId -> m' = m))
                       (models st) updated).
  { eapply Forall2_impl; [exact HF0|].
    intros m m' H. destruct (update_model_spec _ _ _ _ H) as (H1 & H2 & _). auto. }
  split.
  { eapply Forall2_impl; [exact HF0|].
    intros m m' H. apply (update_model_spec _ _ _ _ H). }
  split.
  - intros s -> Hin.
    apply list_elem_of_lookup in Hin as [i Hi].
    destruct (Forall2_lookup_l _ _ _ i s HF Hi) as (s1 & Hi1 & Hm & Hother).
    destruct (String.eqb (id s) modelId) eqn:E.
    + apply String.eqb_eq in E.
      destruct (List.find (fun m => String.eqb (id m) modelId) updated)
        as [x|] eqn:Efind.
      * apply find_some in Efind as [Hx Hidx]. apply String.eqb_eq in Hidx.
        exists x. split; [reflexivity|]. split.
        -- apply list_elem_of_In. exact Hx.
        -- congruence.
      * exfalso.
        assert (Hs1 : In s1 updated).
        { apply list_elem_of_In, list_elem_of_lookup. exists i. exact Hi1. }
        pose proof (find_none _ _ Efind s1 Hs1) as Hno. cbn beta in Hno.
        apply String.eqb_neq in Hno. apply Hno.
        unfold id in *. rewrite Hm. exact E.
    + apply String.eqb_neq in E. exists s. split; [reflexivity|].
      split; [|reflexivity]. rewrite <- (Hother E).
      apply list_elem_of_lookup. exists i. exact Hi1.
  - intros ->. reflexivity.
Qed.

End ModelParametersFacts.

Section ModelParametersExamples.
Import Js Types Objects ModelParameters.

(** A new default for [temperature] is taken; the unknown [top_p] is
    dropped; [toString], which every object inherits, becomes a
    parameter. *)
Lemma updateModelParameters_example :
  let st := {| models := [Samples.tunable]; isLoading := false;
               selectedModel := Some Samples.tunable; error := None |} in
  let r := updateModelParameters (fun _ _ => Samples.ok JsNull) "ollama/llama3"
             (JsObject [ ("temperature", JsNumber 0); ("top_p", JsNumber 5);
                         ("toString", JsNumber 7) ]) st in
  snd r = true
  /\ parameters <$> models (fst r)
     = [ [ ("temperature", [ ("type", JsString "number"); ("default", JsNumber 0);
                             ("max", JsNumber 2) ]);
           ("max_tokens", [ ("type", JsString "integer");
                            ("default", JsNumber 256) ]);
           ("toString", [ ("default", JsNumber 7) ]) ] ]
  /\ selectedModel (fst r) = head (models (fst r)).
Proof. cbv zeta. vm_compute. repeat split. Qed.

End ModelParametersExamples.
